(** * oneapi: manifest-driven CRUD service

    A shallow embedding of the Go packages [spec] (manifest model and
    loader), [storage] (entity compiler, validation, SQLite repository)
    and [server] (JSON:API handlers), with the properties of the
    repository's specification stated and proved over it.

    Conventions.
    - A Go [string] is a byte sequence: Rocq's [string] (a list of 8-bit
      [ascii]).
    - A Go [int] / [int64] is a [Z] in the signed 64-bit range; arithmetic
      that can leave the range is written with [wrap64].
    - A Go [map[string]T] is a [gmap string T].  Go leaves the iteration
      order of a map unspecified; a [range] loop is a left fold over
      [map_to_list], and every statement about a list built by such a loop
      is made up to permutation.
    - A Go [error] result is a [result]; a [nil] map is [None]. *)

From Stdlib Require Import ZArith Ascii String.
From stdpp Require Import gmap strings list fin_maps pretty.

Local Open Scope string_scope.
Local Open Scope list_scope.
Local Open Scope Z_scope.

(** ** Go runtime values and the parts of the standard library used *)

Module golang.

(** Signed 64-bit wrap-around of Go's [int] arithmetic. *)
Definition wrap64 (z : Z) : Z := (z + 2 ^ 63) mod 2 ^ 64 - 2 ^ 63.

(** A [float64], identified by its IEEE-754 bit pattern
    ([math.Float64frombits]).  The program never computes on floats; it
    only inspects the dynamic type. *)
Inductive float64 := Float64frombits (bits : Z).

(** The dynamic values an [any] holds in this program: [nil], [string],
    [int], [int64], [float64], [bool], [[]byte], and [VOther] for a value
    of any other dynamic type (a decoded JSON array or object). *)
Inductive Value :=
  | VNil
  | VString (s : string)
  | VInt (n : Z)
  | VInt64 (n : Z)
  | VFloat64 (f : float64)
  | VBool (b : bool)
  | VBytes (b : string)
  | VOther.

#[global] Instance float64_eq_dec : EqDecision float64.
Proof. solve_decision. Defined.
#[global] Instance Value_eq_dec : EqDecision Value.
Proof. solve_decision. Defined.

Inductive result (E A : Type) :=
  | Ok (a : A)
  | Err (e : E).
Arguments Ok {E A} a.
Arguments Err {E A} e.

Definition byte (c : ascii) : Z := Z.of_N (N_of_ascii c).

(** [strings.Join]. *)
Fixpoint Join (elems : list string) (sep : string) : string :=
  match elems with
  | [] => ""
  | [x] => x
  | x :: rest => x +:+ sep +:+ Join rest sep
  end.

(** [slices.Contains] on strings. *)
Definition Contains (s : list string) (v : string) : bool :=
  existsb (String.eqb v) s.

(** The six ASCII space bytes of [strings.TrimSpace]'s fast path:
    tab, line feed, vertical tab, form feed, carriage return, space. *)
Definition asciiSpace (b : Z) : bool :=
  (b =? 9) || (b =? 10) || (b =? 11) || (b =? 12) || (b =? 13) || (b =? 32).

(** [unicode.IsSpace] on a rune encoded in two bytes: U+0085 and U+00A0. *)
Definition isSpace2 (b1 b2 : Z) : bool :=
  (b1 =? 0xC2) && ((b2 =? 0x85) || (b2 =? 0xA0)).

(** [unicode.IsSpace] on a rune encoded in three bytes: U+1680,
    U+2000..U+200A, U+2028, U+2029, U+202F, U+205F and U+3000. *)
Definition isSpace3 (b1 b2 b3 : Z) : bool :=
  ((b1 =? 0xE1) && (b2 =? 0x9A) && (b3 =? 0x80))
  || ((b1 =? 0xE2) && (b2 =? 0x80)
      && (((0x80 <=? b3) && (b3 <=? 0x8A))
          || (b3 =? 0xA8) || (b3 =? 0xA9) || (b3 =? 0xAF)))
  || ((b1 =? 0xE2) && (b2 =? 0x81) && (b3 =? 0x9F))
  || ((b1 =? 0xE3) && (b2 =? 0x80) && (b3 =? 0x80)).

(** [strings.TrimSpace(s) == ""]: the string is a (possibly empty)
    sequence of UTF-8 encoded white space runes.  A byte that starts no
    white space rune stops the trimming and leaves a non-empty result. *)
Fixpoint TrimSpace_empty (s : string) : bool :=
  match s with
  | EmptyString => true
  | String c1 r1 =>
      if byte c1 <? 0x80 then asciiSpace (byte c1) && TrimSpace_empty r1
      else
        match r1 with
        | EmptyString => false
        | String c2 r2 =>
            if isSpace2 (byte c1) (byte c2) then TrimSpace_empty r2
            else
              match r2 with
              | EmptyString => false
              | String c3 r3 =>
                  isSpace3 (byte c1) (byte c2) (byte c3) && TrimSpace_empty r3
              end
        end
  end.

(** The two failures of [strconv]'s integer parsers. *)
Inductive NumError := ErrSyntax | ErrRange.

(** The digit loop of [strconv.ParseUint(s, 10, 64)]: a byte that is not a
    decimal digit is a syntax error, a value of 2^64 or more a range
    error. *)
Fixpoint parseDigits (s : string) (n : Z) : result NumError Z :=
  match s with
  | EmptyString => Ok n
  | String c r =>
      if (48 <=? byte c) && (byte c <=? 57) then
        let n1 := n * 10 + (byte c - 48) in
        if n1 <? 2 ^ 64 then parseDigits r n1
        else
          (* the syntax of the rest is not looked at once the value is out
             of range *)
          Err ErrRange
      else Err ErrSyntax
  end.

Definition ParseUint (s : string) : result NumError Z :=
  match s with
  | EmptyString => Err ErrSyntax
  | _ => parseDigits s 0
  end.

(** [strconv.ParseInt(s, 10, 64)]: the value and the error.  On a range
    error the value is the nearest bound, on a syntax error it is 0. *)
Definition ParseInt (s : string) : Z * option NumError :=
  match s with
  | EmptyString => (0, Some ErrSyntax)
  | String c r =>
      let neg := bool_decide (c = "-"%char) in
      let s0 := if bool_decide (c = "+"%char) || neg then r else s in
      match ParseUint s0 with
      | Err ErrSyntax => (0, Some ErrSyntax)
      | Err ErrRange =>
          (if neg then - 2 ^ 63 else 2 ^ 63 - 1, Some ErrRange)
      | Ok un =>
          if negb neg && (2 ^ 63 <=? un) then (2 ^ 63 - 1, Some ErrRange)
          else if neg && (2 ^ 63 <? un) then (- 2 ^ 63, Some ErrRange)
          else (if neg then - un else un, None)
      end
  end.

(** [strconv.Atoi] on a 64-bit platform agrees with [ParseInt(s, 10, 64)]. *)
Definition Atoi (s : string) : Z * option NumError := ParseInt s.

(** [fmt.Sprintf("%d", n)]. *)
Definition Sprintf_d (n : Z) : string := pretty n.

End golang.

Import golang.

(** ** Package [spec]: the manifest model and its loader *)

Module spec.

Record ServerConfig := {
  Port : option Z;
  HealthCheck : option string;
  APIDocsPrefix : option string;
  APIDocsUIPath : option string
}.

Record AuthConfig := { BearerToken : option string }.

Record FieldDef := {
  Type_ : string;
  Required : bool;
  Variants : list string
}.

(** [Fields] is only ever ranged over, so a [nil] map is the empty map. *)
Record EntityDef := { Fields : gmap string FieldDef }.

(** [Entities] is compared with [nil] by the loader: [None] is the [nil]
    map, [Some m] a map that was allocated (possibly with no entry). *)
Record Manifest := {
  Prefix : option string;
  Server : option ServerConfig;
  Auth : option AuthConfig;
  Entities : option (gmap string EntityDef)
}.

Section LoadManifest.
(** The file system and the YAML decoder are outside the repository:
    [os_Open] and [yaml_Decode] stand for [os.Open] and
    [yaml.NewDecoder(file).Decode(&manifest)]. *)
Variable File : Type.
Variable os_Open : string -> result string File.
Variable yaml_Decode : File -> result string Manifest.

Definition LoadManifest (path : string) : result string Manifest :=
  match os_Open path with
  | Err err => Err err
  | Ok file =>
      match yaml_Decode file with
      | Err err => Err err
      | Ok manifest =>
          match Entities manifest with
          | None => Err "manifest must have at least one entity"
          | Some _ => Ok manifest
          end
      end
  end.
End LoadManifest.

End spec.

(** ** The storage engine: [database/sql] over go-sqlite3

    The engine is outside the repository.  This module is a model of it
    at the boundary the repository uses: the eight statement shapes the
    repository sends, run against tables of rows.

    Scope of the model.  [Exec], [Query] and [QueryRow] below run one
    statement on the database of one connection; the handle of the
    program, a pool of connections with a database each, comes after
    them.  A text spliced into a statement as a name is read as SQLite
    reads one token: a text that is not one identifier token makes the
    statement a syntax error (quoted names and texts of several tokens
    are not followed further).  Argument conversion and scanning are
    those of [database/sql] and go-sqlite3; the type affinity of columns
    is the [Affinity] interface. *)

Module sql.

(** The storage classes of a stored value. *)
Inductive SqlValue :=
  | SNull
  | SInteger (n : Z)
  | SReal (f : float64)
  | SText (s : string)
  | SBlob (b : string).

#[global] Instance SqlValue_eq_dec : EqDecision SqlValue.
Proof. solve_decision. Defined.

(** [math.IsNaN]: exponent bits all set, fraction not zero. *)
Definition isNaN (f : float64) : bool :=
  match f with
  | Float64frombits bits => 0x7FF0000000000000 <? bits mod 2 ^ 63
  end.

(** The argument conversion of [Exec] and [Query]: [database/sql] accepts
    [nil], the integer, float, boolean and string kinds and byte slices,
    and refuses other dynamic types ([None]); go-sqlite3 binds a boolean
    as 0 or 1, and a NaN binds as NULL. *)
Definition bind (v : Value) : option SqlValue :=
  match v with
  | VNil => Some SNull
  | VString s => Some (SText s)
  | VInt n | VInt64 n => Some (SInteger n)
  | VFloat64 f => Some (if isNaN f then SNull else SReal f)
  | VBool b => Some (SInteger (if b then 1 else 0))
  | VBytes b => Some (SBlob b)
  | VOther => None
  end.

(** The Go value [Scan] yields for a stored value of a column declared
    with [decltype]: go-sqlite3 reports an integer of a BOOLEAN column as
    a [bool].  (Its date and time column types do not occur.) *)
Definition scan (decltype : string) (v : SqlValue) : Value :=
  match v with
  | SNull => VNil
  | SInteger n =>
      if String.eqb decltype "BOOLEAN" then VBool (0 <? n) else VInt64 n
  | SReal f => VFloat64 f
  | SText s => VString s
  | SBlob b => VBytes b
  end.

(** The conversion SQLite applies to a value stored in a column of the
    given declared type (its type affinity).  It involves float
    arithmetic and is kept abstract: the repository is verified for every
    conversion that, like SQLite's, neither makes nor removes a NULL. *)
Class Affinity := {
  affinity : string -> SqlValue -> SqlValue;
  affinity_null : forall decltype v, affinity decltype v = SNull <-> v = SNull
}.

Inductive Error :=
  | ErrNoRows
  | NoSuchTable (table : string)
  | NoSuchColumn (column : string)
  | DuplicateColumn (column : string)
  | ReservedName (table : string)
  | TooManyColumns (table : string)
  | SyntaxError (text : string)
  | UnsupportedType
  | WrongArgCount
  | DatatypeMismatch
  | NotNullConstraint (column : string)
  | DatabaseFull
  | NotAQuery
  | ScanError.

(** *** Names

    The repository writes the names of the manifest into its statements
    as they are.  SQLite takes such a text for a name when it is one
    identifier token and not a keyword it keeps for itself, and it
    compares names without regard to the case of ASCII letters. *)

(** [sqlite3UpperToLower]: ASCII upper case to lower case, every other
    byte as it is. *)
Definition lower (c : ascii) : ascii :=
  if (65 <=? byte c) && (byte c <=? 90)
  then ascii_of_N (N_of_ascii c + 32) else c.

Fixpoint fold (s : string) : string :=
  match s with
  | EmptyString => EmptyString
  | String c r => String (lower c) (fold r)
  end.

(** The bytes of an identifier token: a letter, [_] or a byte of 0x80
    and above first; after it also a digit or [$]. *)
Definition idStart (b : Z) : bool :=
  ((65 <=? b) && (b <=? 90)) || ((97 <=? b) && (b <=? 122))
  || (b =? 95) || (128 <=? b).

Definition idChar (b : Z) : bool :=
  idStart b || ((48 <=? b) && (b <=? 57)) || (b =? 36).

Fixpoint idChars (s : string) : bool :=
  match s with
  | EmptyString => true
  | String c r => idChar (byte c) && idChars r
  end.

Definition identifier (s : string) : bool :=
  match s with
  | EmptyString => false
  | String c r => idStart (byte c) && idChars r
  end.

(** The keywords that SQLite's grammar (3.35 and later) does not let
    stand for a name: those it neither falls back to an identifier for
    ([%fallback ID] in its grammar) nor accepts as a name otherwise (the
    join keywords, [INDEXED], and [FILTER], [OVER] and [WINDOW], which
    are keywords by context only). *)
Definition reserved_words : list string :=
  ["add"; "all"; "alter"; "and"; "as"; "autoincrement"; "between"; "case";
   "check"; "collate"; "commit"; "constraint"; "create"; "default";
   "deferrable"; "delete"; "distinct"; "drop"; "else"; "escape"; "except";
   "exists"; "foreign"; "from"; "group"; "having"; "in"; "index"; "insert";
   "intersect"; "into"; "is"; "isnull"; "join"; "limit"; "not"; "nothing";
   "notnull"; "null"; "on"; "or"; "order"; "primary"; "references";
   "returning"; "select"; "set"; "table"; "then"; "to"; "transaction";
   "union"; "unique"; "update"; "using"; "values"; "when"; "where"].

Definition reserved (s : string) : bool :=
  existsb (String.eqb (fold s)) reserved_words.

(** A text that SQLite reads as a name where a statement has it in the
    place of a table or of a column. *)
Definition name_ok (s : string) : bool := identifier s && negb (reserved s).

Record Column := {
  column_name : string;
  column_type : string;
  column_notnull : bool
}.

(** A row: its rowid (the [id] column) and its other cells; a column with
    no cell holds NULL. *)
Record Row := { rowid : Z; cells : gmap string SqlValue }.

(** A table created by the repository: the columns after [id], the rows
    in rowid order, and the largest rowid ever handed out (the counter of
    AUTOINCREMENT).  A database maps the folded name of a table to the
    table. *)
Record Table := {
  columns : list Column;
  rows : list Row;
  sequence : Z
}.

Abbreviation DB := (gmap string Table).

(** The statements the repository sends.  [Stmt_text] is the text the
    repository builds for each with [fmt.Sprintf]. *)
Inductive Stmt :=
  | CreateTable (table : string) (cols : list Column)
  | SelectCount (table : string)
  | SelectLimitOffset (table : string)
  | SelectLimit1 (table : string)
  | SelectById (table : string)
  | Insert (table : string) (fields : list string)
  | Update (table : string) (setFields : list string)
  | Delete (table : string).

Definition Column_text (c : Column) : string :=
  column_name c +:+ " " +:+ column_type c
  +:+ (if column_notnull c then " NOT NULL" else "").

Definition Stmt_text (stmt : Stmt) : string :=
  match stmt with
  | CreateTable table cols =>
      "CREATE TABLE IF NOT EXISTS " +:+ table +:+ " ("
      +:+ Join ("id INTEGER PRIMARY KEY AUTOINCREMENT"
                :: map Column_text cols) ", "
      +:+ ")"
  | SelectCount table => "SELECT COUNT(*) FROM " +:+ table
  | SelectLimitOffset table =>
      "SELECT * FROM " +:+ table +:+ " LIMIT ? OFFSET ?"
  | SelectLimit1 table => "SELECT * FROM " +:+ table +:+ " LIMIT 1"
  | SelectById table => "SELECT * FROM " +:+ table +:+ " WHERE id = ?"
  | Insert table fields =>
      "INSERT INTO " +:+ table +:+ " (" +:+ Join fields ", "
      +:+ ") VALUES (" +:+ Join (map (fun _ => "?") fields) ", " +:+ ")"
  | Update table setFields =>
      "UPDATE " +:+ table +:+ " SET "
      +:+ Join (map (fun f => f +:+ " = ?") setFields) ", "
      +:+ " WHERE id = ?"
  | Delete table => "DELETE FROM " +:+ table +:+ " WHERE id = ?"
  end.

(** The column a statement names: names are compared folded. *)
Definition find_column (cols : list Column) (name : string)
  : option Column :=
  find (fun c => String.eqb (fold (column_name c)) (fold name)) cols.

Definition cell (r : Row) (c : Column) : SqlValue :=
  default SNull (cells r !! column_name c).

(** The columns named by a statement, each with the argument bound to
    it; an error when a name is not a column of the table.  The [id]
    column is never named by the repository's statements and is not in
    [cols]. *)
Fixpoint assignments (cols : list Column) (fields : list string)
    (args : list SqlValue) : result Error (list (Column * SqlValue)) :=
  match fields, args with
  | [], [] => Ok []
  | f :: fields', a :: args' =>
      match find_column cols f with
      | None => Err (NoSuchColumn f)
      | Some c =>
          match assignments cols fields' args' with
          | Ok l => Ok ((c, a) :: l)
          | Err e => Err e
          end
      end
  | _, _ => Err WrongArgCount
  end.

Section Engine.
Context `{Affinity}.

(** The arguments of a call are converted before the statement is
    looked at. *)
Definition bind_all (args : list Value) : result Error (list SqlValue) :=
  match mapM bind args with
  | Some l => Ok l
  | None => Err UnsupportedType
  end.

(** The cells of a row after the assignments: each value is stored
    with the conversion of its column. *)
Definition store (l : list (Column * SqlValue))
    (old : gmap string SqlValue) : gmap string SqlValue :=
  foldl (fun m ca =>
           <[column_name (fst ca) :=
               affinity (column_type (fst ca)) (snd ca)]> m) old l.

(** The first NOT NULL column of the table that would hold NULL. *)
Definition null_violation (cols : list Column)
    (m : gmap string SqlValue) : option Column :=
  find (fun c => column_notnull c
                 && bool_decide (default SNull (m !! column_name c)
                                 = SNull)) cols.

Definition column_names (cols : list Column) : list string :=
  "id" :: map column_name cols.

(** A result row as [Scan] delivers it, [id] first. *)
Definition scan_row (cols : list Column) (r : Row) : list Value :=
  VInt64 (rowid r) :: map (fun c => scan (column_type c) (cell r c)) cols.

Definition find_row (id : Z) (l : list Row) : option Row :=
  find (fun r => rowid r =? id) l.

Definition update_row (l : list (Column * SqlValue)) (id : Z) (r : Row)
  : Row :=
  if rowid r =? id then {| rowid := rowid r; cells := store l (cells r) |}
  else r.

(** LIMIT and OFFSET: a negative offset is no offset, a negative limit
    no limit. *)
Definition limit_offset {A} (limit offset : Z) (l : list A) : list A :=
  let l' := drop (Z.to_nat offset) l in
  if limit <? 0 then l' else take (Z.to_nat limit) l'.

(** INSERT: the columns not named hold NULL; the new rowid is one more
    than the largest ever used. *)
Definition exec_insert (table : string) (t : Table)
    (fields : list string) (args : list SqlValue)
  : result Error (Table * Z) :=
  match fields with
  | [] => Err (SyntaxError (Stmt_text (Insert table fields)))
  | _ =>
      match assignments (columns t) fields args with
      | Err e => Err e
      | Ok l =>
          let m := store l ∅ in
          match null_violation (columns t) m with
          | Some c => Err (NotNullConstraint (column_name c))
          | None =>
              let id := sequence t + 1 in
              if 2 ^ 63 <=? id then Err DatabaseFull
              else
                Ok ({| columns := columns t;
                       rows := rows t ++ [{| rowid := id; cells := m |}];
                       sequence := id |}, id)
          end
      end
  end.

(** UPDATE ... WHERE id = ?: the last argument is the id. *)
Definition exec_update (table : string) (t : Table)
    (setFields : list string) (args : list SqlValue)
  : result Error (Table * Z) :=
  match setFields with
  | [] => Err (SyntaxError (Stmt_text (Update table setFields)))
  | _ =>
      match assignments (columns t) setFields
              (take (length setFields) args) with
      | Err e => Err e
      | Ok l =>
          match drop (length setFields) args with
          | [SInteger id] =>
              match find_row id (rows t) with
              | None => Ok (t, sequence t)
              | Some r =>
                  match null_violation (columns t) (store l (cells r)) with
                  | Some c => Err (NotNullConstraint (column_name c))
                  | None =>
                      Ok ({| columns := columns t;
                             rows := map (update_row l id) (rows t);
                             sequence := sequence t |}, sequence t)
                  end
              end
          | [_] => Ok (t, sequence t)
          | _ => Err WrongArgCount
          end
      end
  end.

Definition exec_delete (t : Table) (args : list SqlValue)
  : result Error (Table * Z) :=
  match args with
  | [SInteger id] =>
      Ok ({| columns := columns t;
             rows := filter (fun r => rowid r ≠ id) (rows t);
             sequence := sequence t |}, sequence t)
  | [_] => Ok (t, sequence t)
  | _ => Err WrongArgCount
  end.

(** SQLITE_MAX_COLUMN: a table has at most 2000 columns, [id] counted. *)
Definition max_columns : nat := 2000.

(** CREATE TABLE IF NOT EXISTS.  The statement is parsed whether the
    table is there or not; a name that starts with [sqlite_] is kept for
    the engine; a table that is there is left as it is; two columns of
    one name, folded, are refused ([id] is the first column). *)
Definition exec_create (db : DB) (table : string) (cols : list Column)
  : result Error DB :=
  if negb (name_ok table && forallb (fun c => name_ok (column_name c)) cols)
  then Err (SyntaxError (Stmt_text (CreateTable table cols)))
  else if String.prefix "sqlite_" (fold table) then Err (ReservedName table)
  else
    match db !! fold table with
    | Some _ => Ok db
    | None =>
        if negb (bool_decide (NoDup (fold <$> column_names cols))) then
          Err (DuplicateColumn (Stmt_text (CreateTable table cols)))
        else if (max_columns <? S (length cols))%nat then
          Err (TooManyColumns table)
        else
          Ok (<[fold table := {| columns := cols; rows := [];
                                 sequence := 0 |}]> db)
    end.

(** [Exec(query, args...)] on one connection: its database after the
    statement, and [LastInsertId].  A statement is parsed before its
    table is looked up: an empty column list is a syntax error on any
    database. *)
Definition Exec (db : DB) (stmt : Stmt) (args : list Value)
  : result Error (DB * Z) :=
  match bind_all args with
  | Err e => Err e
  | Ok a =>
      match stmt with
      | CreateTable table cols =>
          match exec_create db table cols with
          | Err e => Err e
          | Ok db' => Ok (db', 0)
          end
      | Insert table fields =>
          match fields, db !! fold table with
          | [], _ => Err (SyntaxError (Stmt_text stmt))
          | _, None => Err (NoSuchTable table)
          | _, Some t =>
              match exec_insert table t fields a with
              | Err e => Err e
              | Ok (t', id) => Ok (<[fold table := t']> db, id)
              end
          end
      | Update table setFields =>
          match setFields, db !! fold table with
          | [], _ => Err (SyntaxError (Stmt_text stmt))
          | _, None => Err (NoSuchTable table)
          | _, Some t =>
              match exec_update table t setFields a with
              | Err e => Err e
              | Ok (t', id) => Ok (<[fold table := t']> db, id)
              end
          end
      | Delete table =>
          match db !! fold table with
          | None => Err (NoSuchTable table)
          | Some t =>
              match exec_delete t a with
              | Err e => Err e
              | Ok (t', id) => Ok (<[fold table := t']> db, id)
              end
          end
      | SelectCount table | SelectLimitOffset table
      | SelectLimit1 table | SelectById table =>
          match db !! fold table with
          | None => Err (NoSuchTable table)
          | Some _ => Ok (db, 0)
          end
      end
  end.

(** [Query(query, args...)] on one connection: the column names and the
    rows. *)
Definition Query (db : DB) (stmt : Stmt) (args : list Value)
  : result Error (list string * list (list Value)) :=
  match bind_all args with
  | Err e => Err e
  | Ok a =>
      match stmt with
      | SelectCount table =>
          match db !! fold table, a with
          | None, _ => Err (NoSuchTable table)
          | Some t, [] =>
              Ok (["COUNT(*)"], [[VInt64 (Z.of_nat (length (rows t)))]])
          | Some _, _ => Err WrongArgCount
          end
      | SelectLimitOffset table =>
          match db !! fold table, a with
          | None, _ => Err (NoSuchTable table)
          | Some t, [SInteger limit; SInteger offset] =>
              Ok (column_names (columns t),
                  map (scan_row (columns t))
                    (limit_offset limit offset (rows t)))
          | Some _, [_; _] => Err DatatypeMismatch
          | Some _, _ => Err WrongArgCount
          end
      | SelectLimit1 table =>
          match db !! fold table, a with
          | None, _ => Err (NoSuchTable table)
          | Some t, [] =>
              Ok (column_names (columns t),
                  map (scan_row (columns t)) (take 1 (rows t)))
          | Some _, _ => Err WrongArgCount
          end
      | SelectById table =>
          match db !! fold table, a with
          | None, _ => Err (NoSuchTable table)
          | Some t, [SInteger id] =>
              Ok (column_names (columns t),
                  map (scan_row (columns t))
                    (filter (fun r => rowid r = id) (rows t)))
          | Some t, [_] => Ok (column_names (columns t), [])
          | Some _, _ => Err WrongArgCount
          end
      | _ => Err NotAQuery
      end
  end.

(** [QueryRow(query, args...).Scan(dest...)] on one connection: the
    first row, or [sql.ErrNoRows]. *)
Definition QueryRow (db : DB) (stmt : Stmt) (args : list Value)
  : result Error (list Value) :=
  match Query db stmt args with
  | Err e => Err e
  | Ok (_, []) => Err ErrNoRows
  | Ok (_, r :: _) => Ok r
  end.

(** *** The handle

    [sql.Open("sqlite3", ":memory:")] gives a pool of connections, and
    every connection the pool opens to [:memory:] has a database of its
    own, empty when it is opened.  [idle] is the free list of the pool,
    the connection released last first; [busy] holds the connections
    that were handed out and are never released. *)

Record Pool := { idle : list DB; busy : list DB }.

(** [defaultMaxIdleConns]. *)
Definition maxIdleConns : nat := 2.

(** [db.conn]: a free connection, or a new one when none is free (the
    number of open connections is not limited).  Which of several free
    connections is taken differs between versions of [database/sql];
    here it is the one released last, and no property below is about a
    pool with more than one. *)
Definition conn (p : Pool) : DB * Pool :=
  match idle p with
  | c :: rest => (c, {| idle := rest; busy := busy p |})
  | [] => (∅, p)
  end.

(** [db.putConn]: the connection goes back to the free list, unless the
    list is full: then it is closed, and its database is gone. *)
Definition putConn (c : DB) (p : Pool) : Pool :=
  if (length (idle p) <? maxIdleConns)%nat
  then {| idle := c :: idle p; busy := busy p |}
  else p.

(** [*sql.Rows]: the result of a query and the connection it keeps until
    it is closed.  [SqlRow] is [*sql.Row], the outcome of [QueryRow] before
    [Scan]:
    the rows, or the error of the query. *)
Record Rows := {
  Rows_conn : DB;
  Rows_columns : list string;
  Rows_values : list (list Value)
}.

Definition SqlRow : Type := result Error Rows.

(** [db.Exec(query, args...)]: the pool after the call and
    [LastInsertId]. *)
Definition DB_Exec (p : Pool) (stmt : Stmt) (args : list Value)
  : Pool * result Error Z :=
  let '(c, p) := conn p in
  match Exec c stmt args with
  | Err e => (putConn c p, Err e)
  | Ok (c', id) => (putConn c' p, Ok id)
  end.

(** [db.Query(query, args...)]: on success the rows keep the
    connection. *)
Definition DB_Query (p : Pool) (stmt : Stmt) (args : list Value)
  : Pool * result Error Rows :=
  let '(c, p) := conn p in
  match Query c stmt args with
  | Err e => (putConn c p, Err e)
  | Ok (columns, values) =>
      (p, Ok {| Rows_conn := c; Rows_columns := columns;
                Rows_values := values |})
  end.

(** [rows.Close()]. *)
Definition Rows_Close (rows : Rows) (p : Pool) : Pool :=
  putConn (Rows_conn rows) p.

(** [db.QueryRow(query, args...)]. *)
Definition DB_QueryRow (p : Pool) (stmt : Stmt) (args : list Value)
  : Pool * SqlRow :=
  DB_Query p stmt args.

(** [row.Scan(dest...)]: the error of the query if it had one; otherwise
    the rows are closed, and the first row is the result. *)
Definition Row_Scan (row : SqlRow) (p : Pool)
  : Pool * result Error (list Value) :=
  match row with
  | Err e => (p, Err e)
  | Ok rows =>
      (Rows_Close rows p,
       match Rows_values rows with
       | [] => Err ErrNoRows
       | r :: _ => Ok r
       end)
  end.

(** A [*sql.Row] that is dropped without [Scan]: nothing closes its
    rows, and their connection stays out of the free list for good. *)
Definition Row_drop (row : SqlRow) (p : Pool) : Pool :=
  match row with
  | Err _ => p
  | Ok rows => {| idle := idle p; busy := busy p ++ [Rows_conn rows] |}
  end.
End Engine.

End sql.

(** ** Package [storage]: entities, validation, repository *)

Module storage.

(** The errors [fmt.Errorf] builds in this package, by format and
    argument; [Error_string] is the message. *)
Inductive Error :=
  | UnknownField (fieldName : string)
  | FieldRequired (name : string)
  | MustBeString (name : string)
  | MustBeNumber (name : string)
  | MustBeInteger (name : string)
  | MustBeEnumString (name : string)
  | MustBeOneOf (name : string) (variants : list string).

#[global] Instance Error_eq_dec : EqDecision Error.
Proof. solve_decision. Defined.

Definition Error_string (e : Error) : string :=
  match e with
  | UnknownField fieldName => "unknown field: " +:+ fieldName
  | FieldRequired name => "field " +:+ name +:+ " is required"
  | MustBeString name => "field " +:+ name +:+ " must be a string"
  | MustBeNumber name => "field " +:+ name +:+ " must be a number"
  | MustBeInteger name => "field " +:+ name +:+ " must be an integer"
  | MustBeEnumString name =>
      "field " +:+ name +:+ " must be a string for enum type"
  | MustBeOneOf name variants =>
      "field " +:+ name +:+ " must be one of: " +:+ Join variants ", "
  end.

(** [type FieldValidator func(any) error]; [None] is the [nil] error. *)
Definition FieldValidator : Type := Value -> option Error.

Record Field := {
  Field_Name : string;
  Field_Type : string;
  Field_Required : bool;
  Field_Variants : list string
}.

Record Entity := {
  Name : string;
  Fields : gmap string Field;
  Validations : gmap string (list FieldValidator)
}.

(** The closures of [NewEntity].  Each captures the loop variable [name]
    of its own iteration (the loop semantics of Go 1.22 and later). *)
Definition required_validator (name : string) : FieldValidator :=
  fun value =>
    match value with
    | VNil => Some (FieldRequired name)
    | VString s =>
        if TrimSpace_empty s then Some (FieldRequired name) else None
    | _ => None
    end.

Definition string_validator (name : string) : FieldValidator :=
  fun value =>
    match value with
    | VNil => None
    | VString _ => None
    | _ => Some (MustBeString name)
    end.

Definition int_validator (name : string) : FieldValidator :=
  fun value =>
    match value with
    | VNil => None
    | VInt _ | VInt64 _ => None
    | VString v =>
        match snd (ParseInt v) with
        | Some _ => Some (MustBeNumber name)
        | None => None
        end
    | _ => Some (MustBeInteger name)
    end.

Definition enum_validator (name : string) (variants : list string)
  : FieldValidator :=
  fun value =>
    match value with
    | VNil => None
    | VString strValue =>
        if Contains variants strValue then None
        else Some (MustBeOneOf name variants)
    | _ => Some (MustBeEnumString name)
    end.

Section Entity.
(** [strconv.ParseFloat(v, 64)]: the value, or [None] when it returns an
    error.  Float parsing is not modelled; every statement below holds
    for whatever texts it accepts. *)
Variable ParseFloat : string -> option float64.

Definition double_validator (name : string) : FieldValidator :=
  fun value =>
    match value with
    | VNil => None
    | VFloat64 _ => None
    | VString v =>
        match ParseFloat v with
        | None => Some (MustBeNumber name)
        | Some _ => None
        end
    | _ => Some (MustBeNumber name)
    end.

(** The [switch field.Type] of [NewEntity]. *)
Definition type_validations (name : string) (field : spec.FieldDef)
  : list FieldValidator :=
  let ty := spec.Type_ field in
  if String.eqb ty "string" then [string_validator name]
  else if String.eqb ty "int" then [int_validator name]
  else if String.eqb ty "double" then [double_validator name]
  else if String.eqb ty "enum" then
    [enum_validator name (spec.Variants field)]
  else [].

(** The slice [validations] built for one field: the required check
    first when the field is required, then the check of its type. *)
Definition field_validations (name : string) (field : spec.FieldDef)
  : list FieldValidator :=
  (if spec.Required field then [required_validator name] else [])
  ++ type_validations name field.

(** One iteration of the loop of [NewEntity].  The [Name] of the
    [Field] literal is not set and stays the empty string. *)
Definition NewEntity_step (entity : Entity)
    (kv : string * spec.FieldDef) : Entity :=
  let '(name, field) := kv in
  {| Name := Name entity;
     Fields :=
       <[name := {| Field_Name := "";
                    Field_Type := spec.Type_ field;
                    Field_Required := spec.Required field;
                    Field_Variants := spec.Variants field |}]>
         (Fields entity);
     Validations :=
       <[name := field_validations name field]> (Validations entity) |}.

Definition NewEntity (name : string) (def : spec.EntityDef) : Entity :=
  foldl NewEntity_step
    {| Name := name; Fields := ∅; Validations := ∅ |}
    (map_to_list (spec.Fields def)).
End Entity.

Definition GetFieldType (e : Entity) (fieldName : string) : string :=
  match Fields e !! fieldName with
  | None => ""
  | Some field =>
      let ty := Field_Type field in
      if String.eqb ty "string" || String.eqb ty "enum" then "TEXT"
      else if String.eqb ty "int" then "INTEGER"
      else if String.eqb ty "double" then "REAL"
      else if String.eqb ty "bool" then "BOOLEAN"
      else "TEXT"
  end.

(** The inner loop of [Validate]: run every validator of one chain on
    [value] and append each error. *)
Definition run_validators (errs : list Error)
    (validators : list FieldValidator) (value : Value) : list Error :=
  foldl (fun errs validator =>
           match validator value with
           | Some err => errs ++ [err]
           | None => errs
           end) errs validators.

Definition Validate (e : Entity) (data : gmap string Value) : list Error :=
  (* Check for unknown fields *)
  let errs :=
    foldl (fun errs (kv : string * Value) =>
             match Fields e !! fst kv with
             | None => errs ++ [UnknownField (fst kv)]
             | Some _ => errs
             end) [] (map_to_list data) in
  (* Validate each field *)
  foldl (fun errs (kv : string * list FieldValidator) =>
           let value := default VNil (data !! fst kv) in
           run_validators errs (snd kv) value)
    errs (map_to_list (Validations e)).

(** *** The SQLite repository, on one connection

    [CreateSchema], [List] and [Create] send their statements one after
    another, each finished before the next: they are given here on the
    database of the connection that runs them, which they take before
    the call and, when they can write, return after it.  The methods on
    the handle, [FindByID], [Update] and [Delete] among them, follow in
    [repository]. *)

(** The errors a repository method returns: the two it builds itself,

      "validation failed: %v"      "entity with id %d not found"

    and the errors of the engine, passed on unchanged. *)
Inductive RepoError :=
  | ValidationFailed (errs : list Error)
  | NotFound (id : Z)
  | Storage (err : sql.Error).

(** The conversion both [List] and [FindByID] apply to a scanned value:
    a byte slice becomes a string, anything else ([nil] too) is kept. *)
Definition convert (val : Value) : Value :=
  match val with
  | VBytes v => VString v
  | _ => val
  end.

(** The map built from one scanned row: [entry[col] = values[i]]. *)
Definition row_entry (columns : list string) (values : list Value)
  : gmap string Value :=
  foldl (fun entry (cv : string * Value) =>
           <[fst cv := convert (snd cv)]> entry) ∅ (zip columns values).

(** [Scan(&total)] with [total] an [int]. *)
Definition scan_int (values : list Value) : result sql.Error Z :=
  match values with
  | [VInt64 n] => Ok n
  | _ => Err sql.ScanError
  end.

(** The declared fields of [data] with their values, in the order of the
    loop: the column list and the argument list of a write. *)
Definition declared (e : Entity) (data : gmap string Value)
  : list string * list Value :=
  foldl (fun (acc : list string * list Value) (kv : string * Value) =>
           match Fields e !! fst kv with
           | None => acc
           | Some _ => (fst acc ++ [fst kv], snd acc ++ [snd kv])
           end) ([], []) (map_to_list data).

(** The merged view of [Update]: the existing record without [id],
    overlaid with the patch ([maps.Copy]). *)
Definition merge (existing data : gmap string Value) : gmap string Value :=
  let merged :=
    foldl (fun merged (kv : string * Value) =>
             if String.eqb (fst kv) "id" then merged
             else <[fst kv := snd kv]> merged) ∅ (map_to_list existing) in
  foldl (fun merged (kv : string * Value) => <[fst kv := snd kv]> merged)
    merged (map_to_list data).

Section Repository.
Context `{sql.Affinity}.
Variable entity : Entity.

Definition schema_columns : list sql.Column :=
  foldl (fun columns (kv : string * Field) =>
           let sqlType := GetFieldType entity (fst kv) in
           if String.eqb sqlType "" then columns
           else columns ++ [{| sql.column_name := fst kv;
                               sql.column_type := sqlType;
                               sql.column_notnull :=
                                 Field_Required (snd kv) |}])
    [] (map_to_list (Fields entity)).

Definition CreateSchema (db : sql.DB) : sql.DB * option sql.Error :=
  match sql.Exec db (sql.CreateTable (Name entity) schema_columns) [] with
  | Err err => (db, Some err)
  | Ok (db', _) => (db', None)
  end.

Definition List (db : sql.DB) (page pageSize : Z)
  : result RepoError (list (gmap string Value) * Z) :=
  let page := if page <? 1 then 1 else page in
  let pageSize := if pageSize <? 1 then 10 else pageSize in
  let offset := wrap64 ((page - 1) * pageSize) in
  (* Count total rows *)
  match sql.QueryRow db (sql.SelectCount (Name entity)) [] with
  | Err err => Err (Storage err)
  | Ok values =>
      match scan_int values with
      | Err err => Err (Storage err)
      | Ok total =>
          (* Fetch paginated data *)
          match sql.Query db (sql.SelectLimitOffset (Name entity))
                  [VInt pageSize; VInt offset] with
          | Err err => Err (Storage err)
          | Ok (columns, rows) =>
              Ok (map (row_entry columns) rows, total)
          end
      end
  end.

Definition Create (db : sql.DB) (data : gmap string Value)
  : sql.DB * result RepoError Z :=
  (* Validate data *)
  let errs := Validate entity data in
  match errs with
  | _ :: _ => (db, Err (ValidationFailed errs))
  | [] =>
      (* Prepare SQL fields and values *)
      let '(fields, values) := declared entity data in
      match sql.Exec db (sql.Insert (Name entity) fields) values with
      | Err err => (db, Err (Storage err))
      | Ok (db', id) => (db', Ok id)
      end
  end.

End Repository.

End storage.

(** ** Package [storage]: the SQLite repository on the handle

    The methods of [SQLiteRepository] as the program runs them: [r.db]
    is the pool of connections, which every method takes before the
    call and returns after it.  A call runs from its first statement to
    its return with no other call in between: the properties below are
    those of a service that takes one request at a time. *)

Module repository.
Import storage.

Section SQLiteRepository.
Context `{sql.Affinity}.
Variable entity : Entity.

Definition CreateSchema (p : sql.Pool) : sql.Pool * option sql.Error :=
  match sql.DB_Exec p (sql.CreateTable (Name entity) (schema_columns entity))
          [] with
  | (p, Err err) => (p, Some err)
  | (p, Ok _) => (p, None)
  end.

Definition List (p : sql.Pool) (page pageSize : Z)
  : sql.Pool * result RepoError (list (gmap string Value) * Z) :=
  let page := if page <? 1 then 1 else page in
  let pageSize := if pageSize <? 1 then 10 else pageSize in
  let offset := wrap64 ((page - 1) * pageSize) in
  (* Count total rows *)
  let '(p, row) := sql.DB_QueryRow p (sql.SelectCount (Name entity)) [] in
  match sql.Row_Scan row p with
  | (p, Err err) => (p, Err (Storage err))
  | (p, Ok values) =>
      match scan_int values with
      | Err err => (p, Err (Storage err))
      | Ok total =>
          (* Fetch paginated data *)
          match sql.DB_Query p (sql.SelectLimitOffset (Name entity))
                  [VInt pageSize; VInt offset] with
          | (p, Err err) => (p, Err (Storage err))
          | (p, Ok rows) =>
              (* defer rows.Close() *)
              (sql.Rows_Close rows p,
               Ok (map (row_entry (sql.Rows_columns rows))
                     (sql.Rows_values rows), total))
          end
      end
  end.

(** [row] keeps its connection from [QueryRow] to [Scan]; the query for
    the columns in between needs a second one.  When that query fails,
    the method returns without [Scan]. *)
Definition FindByID (p : sql.Pool) (id : Z)
  : sql.Pool * result RepoError (gmap string Value) :=
  let '(p, row) :=
    sql.DB_QueryRow p (sql.SelectById (Name entity)) [VInt64 id] in
  (* Get columns *)
  match sql.DB_Query p (sql.SelectLimit1 (Name entity)) [] with
  | (p, Err err) => (sql.Row_drop row p, Err (Storage err))
  | (p, Ok rows) =>
      let columns := sql.Rows_columns rows in
      let p := sql.Rows_Close rows p in
      match sql.Row_Scan row p with
      | (p, Err sql.ErrNoRows) => (p, Err (NotFound id))
      | (p, Err err) => (p, Err (Storage err))
      | (p, Ok values) => (p, Ok (row_entry columns values))
      end
  end.

Definition Create (p : sql.Pool) (data : gmap string Value)
  : sql.Pool * result RepoError Z :=
  (* Validate data *)
  let errs := Validate entity data in
  match errs with
  | _ :: _ => (p, Err (ValidationFailed errs))
  | [] =>
      (* Prepare SQL fields and values *)
      let '(fields, values) := declared entity data in
      match sql.DB_Exec p (sql.Insert (Name entity) fields) values with
      | (p, Err err) => (p, Err (Storage err))
      | (p, Ok id) => (p, Ok id)
      end
  end.

Definition Update (p : sql.Pool) (id : Z) (data : gmap string Value)
  : sql.Pool * option RepoError :=
  (* Check if entity exists *)
  match FindByID p id with
  | (p, Err err) => (p, Some err)
  | (p, Ok _) =>
      (* Get existing data to merge with update data *)
      match FindByID p id with
      | (p, Err err) => (p, Some err)
      | (p, Ok existing) =>
          let merged := merge existing data in
          (* Validate merged data *)
          let errs := Validate entity merged in
          match errs with
          | _ :: _ => (p, Some (ValidationFailed errs))
          | [] =>
              let '(setFields, values) := declared entity data in
              (* Add ID for the WHERE clause *)
              let values := values ++ [VInt64 id] in
              match sql.DB_Exec p (sql.Update (Name entity) setFields)
                      values with
              | (p, Err err) => (p, Some (Storage err))
              | (p, Ok _) => (p, None)
              end
          end
      end
  end.

Definition Delete (p : sql.Pool) (id : Z) : sql.Pool * option RepoError :=
  (* Check if entity exists *)
  match FindByID p id with
  | (p, Err err) => (p, Some err)
  | (p, Ok _) =>
      match sql.DB_Exec p (sql.Delete (Name entity)) [VInt64 id] with
      | (p, Err err) => (p, Some (Storage err))
      | (p, Ok _) => (p, None)
      end
  end.
End SQLiteRepository.

End repository.

(** An instance for the examples: of SQLite's affinities it has the
    conversion of integer text stored in an INTEGER column (or a NUMERIC
    one, as BOOLEAN is) and of an integer stored in a TEXT column.  The
    conversions that need float arithmetic are left out (such a value is
    kept as bound); no example below stores one. *)
Module sqlite.

Definition affinity (decltype : string) (v : sql.SqlValue) : sql.SqlValue :=
  if String.eqb decltype "INTEGER" || String.eqb decltype "BOOLEAN" then
    match v with
    | sql.SText s =>
        match ParseInt s with
        | (n, None) => sql.SInteger n
        | _ => v
        end
    | _ => v
    end
  else if String.eqb decltype "TEXT" then
    match v with
    | sql.SInteger n => sql.SText (Sprintf_d n)
    | _ => v
    end
  else v.

#[global] Instance sqlite_affinity : sql.Affinity.
Proof.
  refine {| sql.affinity := affinity |}.
  intros decltype v. unfold affinity.
  destruct (String.eqb decltype "INTEGER" || String.eqb decltype "BOOLEAN").
  - destruct v; try done. by destruct (ParseInt s) as [n [e|]].
  - destruct (String.eqb decltype "TEXT"); by destruct v.
Defined.

End sqlite.

(** ** Package [server]: the JSON:API handlers *)

Module server.

(** The envelope [formatJSONapiResource] returns: a map with exactly the
    keys ["id"], ["type"] and ["attributes"]. *)
Record Resource := {
  id : string;
  type_ : string;
  attributes : gmap string Value
}.

Definition formatJSONapiResource (data : gmap string Value) : Resource :=
  let id := match data !! "id" with
            | Some (VInt64 id) => id
            | _ => 0
            end in
  let idStr := Sprintf_d id in
  (* Remove id from attributes *)
  let attributes :=
    foldl (fun attributes (kv : string * Value) =>
             if String.eqb (fst kv) "id" then attributes
             else <[fst kv := snd kv]> attributes) ∅ (map_to_list data) in
  {| id := idStr;
     type_ := "entity";
     attributes := attributes |}.

Definition formatJSONapiData (data : list (gmap string Value))
  : list Resource :=
  map formatJSONapiResource data.

(** The ["meta"] block of a list response. *)
Record Meta := {
  total : Z;
  page : Z;
  page_size : Z;
  total_pages : Z
}.

Record ListResponse := { data : list Resource; meta : Meta }.

(** What a handler does: it answers, returns an error to the framework,
    or panics. *)
Inductive Outcome (A : Type) :=
  | Respond (a : A)
  | Fail (err : storage.RepoError)
  | Panic (msg : string).
Arguments Respond {A} a.
Arguments Fail {A} err.
Arguments Panic {A} msg.

(** [c.Query(key, defaultValue)]: the default stands in for a parameter
    that is absent or empty. *)
Definition Query (query : gmap string string) (key defaultValue : string)
  : string :=
  match query !! key with
  | Some v => if String.eqb v "" then defaultValue else v
  | None => defaultValue
  end.

(** Go's [/] on [int]: truncated division, wrapping at the one quotient
    that leaves the range.  The divisor is not zero. *)
Definition int_div (a b : Z) : Z := wrap64 (Z.quot a b).

(** [List] has its two queries run one after the other: it is given
    here on the database of the connection that runs them; the handlers
    on the handle follow in [handlers]. *)
Section Handler.
(** [h.repo] is the SQLite repository of one entity. *)
Variable entity : storage.Entity.

Definition List (db : sql.DB) (query : gmap string string)
  : Outcome ListResponse :=
  (* Parse pagination parameters *)
  let page := fst (Atoi (Query query "page[number]" "1")) in
  let pageSize := fst (Atoi (Query query "page[size]" "10")) in
  (* Get data from repository *)
  match storage.List entity db page pageSize with
  | Err err => Fail err
  | Ok (data, total) =>
      if pageSize =? 0 then Panic "runtime error: integer divide by zero"
      else
        Respond
          {| data := formatJSONapiData data;
             meta :=
               {| total := total;
                  page := page;
                  page_size := pageSize;
                  total_pages :=
                    int_div (wrap64 (wrap64 (total + pageSize) - 1))
                      pageSize |} |}
  end.
End Handler.

End server.

(** ** Package [storage]: the entity registry *)

Module registry.

Record EntityRegistry := { entities : gmap string storage.Entity }.

Definition NewEntityRegistry : EntityRegistry := {| entities := ∅ |}.

(** [RegisterEntity] compiles the definition, stores the entity under its
    name and returns it; the registry after the call comes first. *)
Definition RegisterEntity (ParseFloat : string -> option float64)
    (r : EntityRegistry) (name : string) (def : spec.EntityDef)
  : EntityRegistry * storage.Entity :=
  let entity := storage.NewEntity ParseFloat name def in
  ({| entities := <[name := entity]> (entities r) |}, entity).

Definition GetEntity (r : EntityRegistry) (name : string)
  : result string storage.Entity :=
  match entities r !! name with
  | None => Err ("entity " +:+ name +:+ " not found")
  | Some entity => Ok entity
  end.

End registry.

(** ** Package [storage]: opening the database *)

Module db.

(** [NewSQLiteDB]: [sql.Open] opens no connection; [Ping] opens the
    first one and releases it.  [sql_Open] and [ping] are the errors of
    the two calls, [None] when they succeed. *)
Definition NewSQLiteDB (sql_Open ping : option string)
  : result string sql.Pool :=
  match sql_Open with
  | Some err => Err err
  | None =>
      match ping with
      | Some err => Err err
      | None => Ok (sql.putConn ∅ {| sql.idle := []; sql.busy := [] |})
      end
  end.

End db.

(** ** The command: start-up *)

Module main.

(** How [main] ends its start-up: [log.Fatalf], or the server started
    with one repository (and one group of routes) per entity, all over
    one handle. *)
Inductive Startup :=
  | Fatal (msg : string)
  | Serving (p : sql.Pool) (repositories : gmap string storage.Entity).

Section Main.
Context `{sql.Affinity}.
Variable ParseFloat : string -> option float64.
Variable File : Type.
Variable os_Open : string -> result string File.
Variable yaml_Decode : File -> result string spec.Manifest.
(** The errors of [sql.Open] and of [db.Ping()] in [NewSQLiteDB], and
    the message of an error of the engine. *)
Variable sql_Open : option string.
Variable ping : option string.
Variable sql_message : sql.Error -> string.

(** One iteration of the loop over [manifest.Entities]; a failure of
    [CreateSchema] ends the process. *)
Definition register (acc : result string
                             (sql.Pool * gmap string storage.Entity))
    (kv : string * spec.EntityDef)
  : result string (sql.Pool * gmap string storage.Entity) :=
  match acc with
  | Err msg => Err msg
  | Ok (p, repositories) =>
      let entityRegistry := registry.NewEntityRegistry in
      let entityObj :=
        snd (registry.RegisterEntity ParseFloat entityRegistry
               (fst kv) (snd kv)) in
      match repository.CreateSchema entityObj p with
      | (_, Some err) =>
          Err ("Failed to create schema for entity " +:+ fst kv +:+ ": "
               +:+ sql_message err)
      | (p, None) => Ok (p, <[fst kv := entityObj]> repositories)
      end
  end.

Definition main (path : string) : Startup :=
  match spec.LoadManifest File os_Open yaml_Decode path with
  | Err err => Fatal ("Failed to load manifest: " +:+ err)
  | Ok manifest =>
      match db.NewSQLiteDB sql_Open ping with
      | Err err => Fatal ("Failed to initialize database: " +:+ err)
      | Ok p =>
          match foldl register (Ok (p, ∅))
                  (map_to_list (default ∅ (spec.Entities manifest))) with
          | Err msg => Fatal msg
          | Ok (p, repositories) => Serving p repositories
          end
      end
  end.
End Main.

End main.

(** ** Example entities *)

Module examples.

(** No example has a [double] field, so none calls the float parser;
    this stands in for it. *)
Definition no_ParseFloat : string -> option float64 := fun _ => None.

Definition field (type : string) (required : bool) (variants : list string)
  : spec.FieldDef :=
  {| spec.Type_ := type; spec.Required := required;
     spec.Variants := variants |}.

(** The entity of the specification's example:
    [title: string, required] and [status: enum(open, done), required]. *)
Definition task_def : spec.EntityDef :=
  {| spec.Fields :=
       <["title" := field "string" true []]>
         (<["status" := field "enum" true ["open"; "done"]]> ∅) |}.

Definition task : storage.Entity :=
  storage.NewEntity no_ParseFloat "task" task_def.

(** An entity with optional fields only: [label: string], [qty: int]. *)
Definition item_def : spec.EntityDef :=
  {| spec.Fields :=
       <["label" := field "string" false []]>
         (<["qty" := field "int" false []]> ∅) |}.

Definition item : storage.Entity :=
  storage.NewEntity no_ParseFloat "item" item_def.

(** An entity with a boolean field: [done: bool]. *)
Definition todo_def : spec.EntityDef :=
  {| spec.Fields := <["done" := field "bool" false []]> ∅ |}.

Definition todo : storage.Entity :=
  storage.NewEntity no_ParseFloat "todo" todo_def.

(** The database of the first connection after start-up with one
    entity, and the handle then. *)
Definition fresh (e : storage.Entity) : sql.DB :=
  fst (storage.CreateSchema e ∅).

Definition serving (e : storage.Entity) : sql.Pool :=
  {| sql.idle := [fresh e]; sql.busy := [] |}.

(** The handle after [NewSQLiteDB]: one free connection, its database
    empty. *)
Definition opened : sql.Pool := {| sql.idle := [∅]; sql.busy := [] |}.

(** A manifest document and what the decoder yields for it: a file is
    its decoded content here. *)
Definition manifest (entities : option (gmap string spec.EntityDef))
  : spec.Manifest :=
  {| spec.Prefix := None; spec.Server := None; spec.Auth := None;
     spec.Entities := entities |}.

Definition open_file (content : spec.Manifest) (path : string)
  : result string spec.Manifest :=
  Ok content.

Definition decode (file : spec.Manifest) : result string spec.Manifest :=
  Ok file.

(** Records of the examples. *)
Definition task_x_open : gmap string Value :=
  <["title" := VString "x"]> (<["status" := VString "open"]> ∅).

Definition status_done : gmap string Value := <["status" := VString "done"]> ∅.

(** The table [CreateSchema] makes for an entity. *)
Definition empty_table (e : storage.Entity) : sql.Table :=
  {| sql.columns := storage.schema_columns e;
     sql.rows := [];
     sql.sequence := 0 |}.

(** The task table and database after [Create(task_x_open)], and the
    record of that row. *)
Definition task_db_1 : sql.DB :=
  fst (storage.Create (H := sqlite.sqlite_affinity) task (fresh task)
         task_x_open).

Definition task_table_1 : sql.Table :=
  {| sql.columns := storage.schema_columns task;
     sql.rows :=
       [{| sql.rowid := 1;
           sql.cells := <["title" := sql.SText "x"]>
                          (<["status" := sql.SText "open"]> ∅) |}];
     sql.sequence := 1 |}.

Definition task_record_1 : gmap string Value :=
  <["id" := VInt64 1]> task_x_open.

(** The handle after that [Create] on the handle at start-up. *)
Definition task_pool_1 : sql.Pool :=
  {| sql.idle := [task_db_1]; sql.busy := [] |}.


(** The message of the engine for a table that is not there (the
    examples need no other). *)
Definition sqlite_message (err : sql.Error) : string :=
  match err with
  | sql.NoSuchTable table => "no such table: " +:+ table
  | _ => ""
  end.

(** An entity with a [double] field: [price: double], and a record that
    gives it an integer. *)
Definition product_def : spec.EntityDef :=
  {| spec.Fields := <["price" := field "double" false []]> ∅ |}.

Definition product : storage.Entity :=
  storage.NewEntity no_ParseFloat "product" product_def.

Definition price_3 : gmap string Value := <["price" := VInt64 3]> ∅.

End examples.

(** ** The error report in the words of the specification

    "For every key in [record] not present in the entity's field set,
    emit an unknown-field error.  For every declared field, run its
    validator chain against the record's value for that field (or null if
    absent); emit all resulting errors." *)

Module specification.

Definition unknown_field_errors (def : spec.EntityDef)
    (record : gmap string Value) : list storage.Error :=
  map_to_list record ≫= fun kv =>
    match spec.Fields def !! fst kv with
    | None => [storage.UnknownField (fst kv)]
    | Some _ => []
    end.

(** Every error a chain produces on a value. *)
Definition chain_errors (chain : list storage.FieldValidator)
    (value : Value) : list storage.Error :=
  omap (fun validator => validator value) chain.

Definition field_errors (ParseFloat : string -> option float64)
    (def : spec.EntityDef) (record : gmap string Value)
  : list storage.Error :=
  map_to_list (spec.Fields def) ≫= fun kv =>
    chain_errors (storage.field_validations ParseFloat (fst kv) (snd kv))
      (default VNil (record !! fst kv)).

Definition Validate_spec (ParseFloat : string -> option float64)
    (def : spec.EntityDef) (record : gmap string Value)
  : list storage.Error :=
  unknown_field_errors def record ++ field_errors ParseFloat def record.

(** A declared type that [NewEntity] and [GetFieldType] do not name. *)
Definition unmapped (type : string) : Prop :=
  type ∉ ["string"; "int"; "double"; "enum"; "bool"].

(** The [Field] literal [NewEntity] stores for a field definition. *)
Definition compile_field (field : spec.FieldDef) : storage.Field :=
  {| storage.Field_Name := "";
     storage.Field_Type := spec.Type_ field;
     storage.Field_Required := spec.Required field;
     storage.Field_Variants := spec.Variants field |}.

(** *** The state of a running service

    [main] creates the table of every entity before the server starts
    and ends the process when that fails, and the table is only ever
    written by the repository.  So the table of an entity has one column
    per declared field, with the storage type and the NOT NULL mark the
    schema gave it, no two of them (nor one and [id]) of the same name
    when folded; its rowids are distinct and not above the AUTOINCREMENT
    counter; and every row satisfies the NOT NULL marks. *)

Definition column_ok (e : storage.Entity) (c : sql.Column) : Prop :=
  storage.Field_Required <$> storage.Fields e !! sql.column_name c
  = Some (sql.column_notnull c)
  /\ sql.column_type c = storage.GetFieldType e (sql.column_name c).

Definition schema_ok (e : storage.Entity) (cols : list sql.Column) : Prop :=
  NoDup (sql.fold <$> sql.column_names cols)
  /\ Forall (column_ok e) cols
  /\ Forall (fun kv : string * storage.Field =>
               fst kv ∈ sql.column_name <$> cols)
       (map_to_list (storage.Fields e)).

Definition rows_ok (t : sql.Table) : Prop :=
  Forall (fun r => sql.rowid r <= sql.sequence t) (sql.rows t)
  /\ NoDup (sql.rowid <$> sql.rows t)
  /\ Forall (fun r => sql.null_violation (sql.columns t) (sql.cells r)
                      = None) (sql.rows t).

Definition table_ok (e : storage.Entity) (t : sql.Table) : Prop :=
  schema_ok e (sql.columns t) /\ rows_ok t.

(** The database holds the table of the entity, in order. *)
Definition db_ok (e : storage.Entity) (db : sql.DB) : Prop :=
  match db !! sql.fold (storage.Name e) with
  | Some t => table_ok e t
  | None => False
  end.

(** The names of an entity that the engine accepts in CREATE TABLE: the
    name of the entity and of every field is read as a name, the table
    is not one of the engine's own, no two field names (nor one and
    [id]) are the same when folded, and the columns are not too many. *)
Definition schema_accepted (e : storage.Entity) : Prop :=
  sql.name_ok (storage.Name e) = true
  /\ String.prefix "sqlite_" (sql.fold (storage.Name e)) = false
  /\ Forall (fun f => sql.name_ok f = true)
       (map_to_list (storage.Fields e)).*1
  /\ NoDup (sql.fold <$> "id" :: (map_to_list (storage.Fields e)).*1)
  /\ (size (storage.Fields e) < sql.max_columns)%nat.

#[global] Instance schema_accepted_dec e : Decision (schema_accepted e).
Proof. unfold schema_accepted. apply _. Defined.

(** The handle of a running service that takes one request at a time:
    one connection is free, and every database of the pool that has the
    table of the entity has it in order. *)
Definition pool_ok (e : storage.Entity) (p : sql.Pool) : Prop :=
  length (sql.idle p) = 1%nat
  /\ Forall (fun c => is_Some (c !! sql.fold (storage.Name e)) -> db_ok e c)
       (sql.idle p ++ sql.busy p).

#[global] Instance column_ok_dec e c : Decision (column_ok e c).
Proof. unfold column_ok. apply _. Defined.
#[global] Instance schema_ok_dec e cols : Decision (schema_ok e cols).
Proof. unfold schema_ok. apply _. Defined.
#[global] Instance rows_ok_dec t : Decision (rows_ok t).
Proof. unfold rows_ok. apply _. Defined.
#[global] Instance table_ok_dec e t : Decision (table_ok e t).
Proof. unfold table_ok. apply _. Defined.
#[global] Instance db_ok_dec e db : Decision (db_ok e db).
Proof.
  unfold db_ok. destruct (db !! sql.fold (storage.Name e)); apply _.
Defined.
#[global] Instance pool_ok_dec e p : Decision (pool_ok e p).
Proof. unfold pool_ok. apply _. Defined.

(** *** Values as the engine returns them *)

(** A value the engine accepts and does not store as NULL unless it is
    [nil]: any value but one of an unsupported type or a NaN. *)
Definition storable (v : Value) : Prop :=
  match v with
  | VOther => False
  | VFloat64 f => sql.isNaN f = false
  | _ => True
  end.

(** The record [FindByID] and [List] build for a row of a table. *)
Definition record_of (t : sql.Table) (r : sql.Row) : gmap string Value :=
  storage.row_entry (sql.column_names (sql.columns t))
    (sql.scan_row (sql.columns t) r).

(** The declared keys of a map, with their values, in loop order. *)
Definition declared_entries (e : storage.Entity) (data : gmap string Value)
  : list (string * Value) :=
  filter (fun kv => is_Some (storage.Fields e !! fst kv)) (map_to_list data).

(** What one entry of a write becomes: the column of the key and the
    bound value. *)
Definition assigned (cols : list sql.Column) (kv : string * Value)
    (ca : sql.Column * sql.SqlValue) : Prop :=
  sql.find_column cols (fst kv) = Some (fst ca)
  /\ sql.bind (snd kv) = Some (snd ca).

End specification.

(** ** Package [server]: the options *)

Module options.

Record Options := {
  APIName : string;
  Port : Z;
  PathPrefix : string;
  HealthCheckPath : string;
  APIDocsPrefix : string;
  APIDocsUIPath : string
}.

Definition NewOptions : Options :=
  {| APIName := "OneAPI";
     Port := 9090;
     PathPrefix := "/api";
     APIDocsUIPath := "/api/docs";
     HealthCheckPath := "/_oneapi/health";
     APIDocsPrefix := "/_oneapi/docs" |}.

(** Each of the four settings of the manifest's server section replaces
    the default when it is present. *)
Definition OptionsFromManifest (manifest : spec.Manifest)
  : result string Options :=
  let opts := NewOptions in
  match spec.Server manifest with
  | None => Ok opts
  | Some server =>
      let opts :=
        match spec.Port server with
        | Some port =>
            {| APIName := APIName opts; Port := port;
               PathPrefix := PathPrefix opts;
               HealthCheckPath := HealthCheckPath opts;
               APIDocsPrefix := APIDocsPrefix opts;
               APIDocsUIPath := APIDocsUIPath opts |}
        | None => opts
        end in
      let opts :=
        match spec.HealthCheck server with
        | Some path =>
            {| APIName := APIName opts; Port := Port opts;
               PathPrefix := PathPrefix opts;
               HealthCheckPath := path;
               APIDocsPrefix := APIDocsPrefix opts;
               APIDocsUIPath := APIDocsUIPath opts |}
        | None => opts
        end in
      let opts :=
        match spec.APIDocsPrefix server with
        | Some prefix =>
            {| APIName := APIName opts; Port := Port opts;
               PathPrefix := PathPrefix opts;
               HealthCheckPath := HealthCheckPath opts;
               APIDocsPrefix := prefix;
               APIDocsUIPath := APIDocsUIPath opts |}
        | None => opts
        end in
      let opts :=
        match spec.APIDocsUIPath server with
        | Some path =>
            {| APIName := APIName opts; Port := Port opts;
               PathPrefix := PathPrefix opts;
               HealthCheckPath := HealthCheckPath opts;
               APIDocsPrefix := APIDocsPrefix opts;
               APIDocsUIPath := path |}
        | None => opts
        end in
      Ok opts
  end.

End options.

(** ** Package [server]: the handlers of one record, and the error handler

    A handler either sends a response or returns an error to the
    framework, whose error handler (installed by [Server.Start]) turns it
    into a response.  The request is taken as decoded: the [id] path
    parameter as text, the body as its attributes, [None] when
    [BodyParser] fails.  Every handler takes the handle before the call
    and returns it after. *)

Module handlers.

(** [strings.Contains]. *)
Fixpoint strings_Contains (s substr : string) : bool :=
  String.prefix substr s
  || match s with
     | EmptyString => false
     | String _ rest => strings_Contains rest substr
     end.

(** The errors a handler returns: a [*fiber.Error], or the error of the
    repository as it is. *)
Inductive Error :=
  | FiberError (code : Z) (message : string)
  | RepoErr (err : storage.RepoError).

Inductive Reply (A : Type) :=
  | Sent (status : Z) (body : A)
  | Failed (err : Error).
Arguments Sent {A} status body.
Arguments Failed {A} err.

Definition StatusOK : Z := 200.
Definition StatusCreated : Z := 201.
Definition StatusNoContent : Z := 204.
Definition StatusBadRequest : Z := 400.
Definition StatusNotFound : Z := 404.
Definition StatusUnprocessableEntity : Z := 422.
Definition StatusInternalServerError : Z := 500.

(** The one entry of the error envelope. *)
Record ErrorEntry := {
  entry_status : string;
  entry_title : string;
  entry_detail : string
}.

Section Handlers.
Context `{sql.Affinity}.
(** [h.repo] is the SQLite repository of one entity. *)
Variable entity : storage.Entity.
(** The message of an error of the engine. *)
Variable sql_message : sql.Error -> string.

(** [err.Error()] of an error of the repository; [%v] prints the list of
    validation errors between brackets, separated by spaces. *)
Definition Error_text (err : storage.RepoError) : string :=
  match err with
  | storage.ValidationFailed errs =>
      "validation failed: ["
      +:+ Join (map storage.Error_string errs) " " +:+ "]"
  | storage.NotFound id =>
      "entity with id " +:+ Sprintf_d id +:+ " not found"
  | storage.Storage e => sql_message e
  end.

Definition message (err : Error) : string :=
  match err with
  | FiberError _ msg => msg
  | RepoErr e => Error_text e
  end.

(** The [ErrorHandler] of [Server.Start]: the status is the code of a
    [*fiber.Error] and 500 for any other error. *)
Definition ErrorHandler (err : Error) : Z * ErrorEntry :=
  let code := match err with
              | FiberError code _ => code
              | RepoErr _ => StatusInternalServerError
              end in
  (code, {| entry_status := Sprintf_d code;
            entry_title := "Error";
            entry_detail := message err |}).

(** The status the client sees. *)
Definition status {A} (r : Reply A) : Z :=
  match r with
  | Sent code _ => code
  | Failed err => fst (ErrorHandler err)
  end.

Definition List (p : sql.Pool) (query : gmap string string)
  : sql.Pool * server.Outcome server.ListResponse :=
  (* Parse pagination parameters *)
  let page := fst (Atoi (server.Query query "page[number]" "1")) in
  let pageSize := fst (Atoi (server.Query query "page[size]" "10")) in
  (* Get data from repository *)
  match repository.List entity p page pageSize with
  | (p, Err err) => (p, server.Fail err)
  | (p, Ok (data, total)) =>
      if pageSize =? 0 then
        (p, server.Panic "runtime error: integer divide by zero")
      else
        (p, server.Respond
              {| server.data := server.formatJSONapiData data;
                 server.meta :=
                   {| server.total := total;
                      server.page := page;
                      server.page_size := pageSize;
                      server.total_pages :=
                        server.int_div
                          (wrap64 (wrap64 (total + pageSize) - 1))
                          pageSize |} |})
  end.

Definition Get (p : sql.Pool) (idParam : string)
  : sql.Pool * Reply server.Resource :=
  match ParseInt idParam with
  | (_, Some _) =>
      (p, Failed (FiberError StatusBadRequest "Invalid ID format"))
  | (id, None) =>
      match repository.FindByID entity p id with
      | (p, Err err) =>
          (p, Failed (FiberError StatusNotFound (Error_text err)))
      | (p, Ok data) =>
          (p, Sent StatusOK (server.formatJSONapiResource data))
      end
  end.

Definition Create (p : sql.Pool) (body : option (gmap string Value))
  : sql.Pool * Reply server.Resource :=
  match body with
  | None => (p, Failed (FiberError StatusBadRequest "Invalid request body"))
  | Some data =>
      (* Create in repository *)
      match repository.Create entity p data with
      | (p, Err err) =>
          (* Check if it's a validation error *)
          if strings_Contains (Error_text err) "validation failed" then
            (p, Failed (FiberError StatusUnprocessableEntity
                          (Error_text err)))
          else (p, Failed (RepoErr err))
      | (p, Ok id) =>
          (* Fetch the created entity *)
          match repository.FindByID entity p id with
          | (p, Err err) => (p, Failed (RepoErr err))
          | (p, Ok created) =>
              (p, Sent StatusCreated
                    (server.formatJSONapiResource created))
          end
      end
  end.

Definition Update (p : sql.Pool) (idParam : string)
    (body : option (gmap string Value))
  : sql.Pool * Reply server.Resource :=
  match ParseInt idParam with
  | (_, Some _) =>
      (p, Failed (FiberError StatusBadRequest "Invalid ID format"))
  | (id, None) =>
      match body with
      | None =>
          (p, Failed (FiberError StatusBadRequest "Invalid request body"))
      | Some data =>
          (* Update in repository *)
          match repository.Update entity p id data with
          | (p, Some err) =>
              if strings_Contains (Error_text err) "validation failed" then
                (p, Failed (FiberError StatusUnprocessableEntity
                              (Error_text err)))
              else (p, Failed (RepoErr err))
          | (p, None) =>
              (* Fetch the updated entity *)
              match repository.FindByID entity p id with
              | (p, Err err) => (p, Failed (RepoErr err))
              | (p, Ok updated) =>
                  (p, Sent StatusOK
                        (server.formatJSONapiResource updated))
              end
          end
      end
  end.

Definition Delete (p : sql.Pool) (idParam : string)
  : sql.Pool * Reply unit :=
  match ParseInt idParam with
  | (_, Some _) =>
      (p, Failed (FiberError StatusBadRequest "Invalid ID format"))
  | (id, None) =>
      match repository.Delete entity p id with
      | (p, Some err) => (p, Failed (RepoErr err))
      | (p, None) => (p, Sent StatusNoContent tt)
      end
  end.
End Handlers.

End handlers.

(** * Properties *)

Import storage examples specification.

(** ** Loops over maps *)

Section Folds.
Context {A B : Type}.

(** A loop that only appends to a slice builds the concatenation of
    what each iteration appends. *)
Lemma foldl_append (f : list B -> A -> list B) (h : A -> list B) :
  (forall acc x, f acc x = acc ++ h x) ->
  forall l init, foldl f init l = init ++ (l ≫= h).
Proof.
  intros Hf l. induction l as [|x l IH]; intros init; simpl.
  - by rewrite app_nil_r.
  - rewrite IH, Hf. by rewrite <- app_assoc.
Qed.

(** A loop that stores at most one entry per key of a list of distinct
    keys. *)
Lemma foldl_insert_lookup
    (f : gmap string B -> string * A -> gmap string B)
    (g : string -> A -> option B) :
  (forall m kv, f m kv = match g (fst kv) (snd kv) with
                         | Some b => <[fst kv := b]> m
                         | None => m
                         end) ->
  forall (l : list (string * A)) (m0 : gmap string B) (k : string),
    NoDup l.*1 ->
    foldl f m0 l !! k =
      match (list_to_map l : gmap string A) !! k with
      | Some a => match g k a with
                  | Some b => Some b
                  | None => m0 !! k
                  end
      | None => m0 !! k
      end.
Proof.
  intros Hf l. induction l as [|[k' a] l IH]; intros m0 k Hnd; simpl.
  - by rewrite lookup_empty.
  - apply NoDup_cons in Hnd as [Hk' Hnd].
    rewrite IH by done. rewrite Hf. simpl.
    destruct (decide (k' = k)) as [->|Hne].
    + rewrite lookup_insert_eq.
      assert ((list_to_map l : gmap string A) !! k = None) as ->
        by by apply not_elem_of_list_to_map_1.
      destruct (g k a); [by rewrite lookup_insert_eq|done].
    + rewrite lookup_insert_ne by done.
      destruct (g k' a); [by rewrite lookup_insert_ne|done].
Qed.
End Folds.

Lemma foldl_insert_lookup_map {A B}
    (f : gmap string B -> string * A -> gmap string B)
    (g : string -> A -> option B) (m : gmap string A)
    (m0 : gmap string B) (k : string) :
  (forall m kv, f m kv = match g (fst kv) (snd kv) with
                         | Some b => <[fst kv := b]> m
                         | None => m
                         end) ->
  foldl f m0 (map_to_list m) !! k =
    match m !! k with
    | Some a => match g k a with
                | Some b => Some b
                | None => m0 !! k
                end
    | None => m0 !! k
    end.
Proof.
  intros Hf. rewrite (foldl_insert_lookup f g Hf).
  - by rewrite list_to_map_to_list.
  - apply NoDup_fst_map_to_list.
Qed.

(** ** The compiled entity *)

Section EntityFacts.
Variable ParseFloat : string -> option float64.
Variable name : string.
Variable def : spec.EntityDef.

Let e := NewEntity ParseFloat name def.

Lemma NewEntity_unfold l e0 :
  Name (foldl (NewEntity_step ParseFloat) e0 l) = Name e0
  /\ Fields (foldl (NewEntity_step ParseFloat) e0 l)
     = foldl (fun m (kv : string * spec.FieldDef) =>
                <[fst kv := compile_field (snd kv)]> m) (Fields e0) l
  /\ Validations (foldl (NewEntity_step ParseFloat) e0 l)
     = foldl (fun m (kv : string * spec.FieldDef) =>
                <[fst kv := field_validations ParseFloat (fst kv) (snd kv)]>
                  m) (Validations e0) l.
Proof.
  revert e0. induction l as [|[k fd] l IH]; intros e0; [done|].
  change (foldl (NewEntity_step ParseFloat) e0 ((k, fd) :: l))
    with (foldl (NewEntity_step ParseFloat)
            (NewEntity_step ParseFloat e0 (k, fd)) l).
  destruct (IH (NewEntity_step ParseFloat e0 (k, fd))) as (E1 & E2 & E3).
  rewrite E1, E2, E3. done.
Qed.

Lemma NewEntity_Name : Name e = name.
Proof. unfold e, NewEntity. by rewrite (proj1 (NewEntity_unfold _ _)). Qed.

Lemma NewEntity_Fields k :
  Fields e !! k = compile_field <$> spec.Fields def !! k.
Proof.
  unfold e, NewEntity.
  rewrite (proj1 (proj2 (NewEntity_unfold _ _))). simpl.
  rewrite (foldl_insert_lookup_map _ (fun _ fd => Some (compile_field fd)))
    by done.
  rewrite lookup_empty. by destruct (spec.Fields def !! k).
Qed.

Lemma NewEntity_Validations k :
  Validations e !! k
  = field_validations ParseFloat k <$> spec.Fields def !! k.
Proof.
  unfold e, NewEntity.
  rewrite (proj2 (proj2 (NewEntity_unfold _ _))). simpl.
  rewrite (foldl_insert_lookup_map _
             (fun k fd => Some (field_validations ParseFloat k fd)))
    by done.
  rewrite lookup_empty. by destruct (spec.Fields def !! k).
Qed.
End EntityFacts.

(** ** Validation *)

Import specification.

Lemma bind_option_list {A B} (f : A -> option B) (l : list A) :
  l ≫= (fun x => match f x with Some b => [b] | None => [] end) = omap f l.
Proof.
  induction l as [|x l IH]; [done|].
  rewrite bind_cons, IH. simpl. by destruct (f x).
Qed.

Lemma run_validators_chain errs validators value :
  run_validators errs validators value
  = errs ++ chain_errors validators value.
Proof.
  unfold run_validators, chain_errors.
  rewrite (foldl_append _
             (fun validator : FieldValidator =>
                match validator value with
                | Some err => [err]
                | None => []
                end)).
  - by rewrite bind_option_list.
  - intros acc v. destruct (v value); [done|by rewrite app_nil_r].
Qed.

(** The two loops of [Validate], each as the list it builds. *)
Lemma Validate_unfold (e : Entity) (data : gmap string Value) :
  Validate e data
  = (map_to_list data ≫= fun kv =>
       match Fields e !! fst kv with
       | None => [UnknownField (fst kv)]
       | Some _ => []
       end)
    ++ (map_to_list (Validations e) ≫= fun kv =>
          chain_errors (snd kv) (default VNil (data !! fst kv))).
Proof.
  unfold Validate.
  rewrite (foldl_append _
             (fun kv : string * list FieldValidator =>
                chain_errors (snd kv) (default VNil (data !! fst kv)))).
  2:{ intros acc kv. apply run_validators_chain. }
  f_equal.
  rewrite (foldl_append _
             (fun kv : string * Value =>
                match Fields e !! fst kv with
                | None => [UnknownField (fst kv)]
                | Some _ => []
                end)).
  - done.
  - intros acc kv. destruct (Fields e !! fst kv); [by rewrite app_nil_r|done].
Qed.

Section ValidateFacts.
Variable ParseFloat : string -> option float64.
Variable name : string.
Variable def : spec.EntityDef.

Let e := NewEntity ParseFloat name def.

Lemma Validations_to_list :
  map_to_list (Validations e)
  ≡ₚ (fun kv : string * spec.FieldDef =>
        (fst kv, field_validations ParseFloat (fst kv) (snd kv)))
     <$> map_to_list (spec.Fields def).
Proof.
  apply NoDup_Permutation.
  - apply NoDup_map_to_list.
  - apply (NoDup_fmap_1 fst). rewrite <- list_fmap_compose.
    apply NoDup_fst_map_to_list.
  - intros [k vs]. rewrite elem_of_map_to_list.
    unfold e. rewrite NewEntity_Validations. rewrite list_elem_of_fmap.
    split.
    + destruct (spec.Fields def !! k) as [fd|] eqn:Hk; [|done].
      intros [= <-]. exists (k, fd). split; [done|].
      by apply elem_of_map_to_list.
    + intros ([k' fd] & [= -> ->] & Hin).
      apply elem_of_map_to_list in Hin. by rewrite Hin.
Qed.

Lemma Validate_refines data :
  Validate e data ≡ₚ Validate_spec ParseFloat def data.
Proof.
  rewrite Validate_unfold. unfold Validate_spec. f_equiv.
  - unfold unknown_field_errors.
    erewrite list_bind_ext; [reflexivity| |reflexivity].
    intros kv. unfold e. rewrite NewEntity_Fields.
    by destruct (spec.Fields def !! fst kv).
  - rewrite Validations_to_list. unfold field_errors.
    generalize (map_to_list (spec.Fields def)) as l.
    induction l as [|kv l IH]; [done|]. simpl. by rewrite IH.
Qed.
End ValidateFacts.

(** No validator of a compiled chain reports an unknown field. *)
Lemma field_validations_not_unknown ParseFloat f fd validator value k :
  validator ∈ field_validations ParseFloat f fd ->
  validator value <> Some (UnknownField k).
Proof.
  unfold field_validations, type_validations.
  rewrite elem_of_app. intros [Hv|Hv].
  - destruct (spec.Required fd); [|by apply elem_of_nil in Hv].
    apply list_elem_of_singleton in Hv as ->.
    destruct value; simpl; try done. by destruct (TrimSpace_empty s).
  - repeat match type of Hv with
           | _ ∈ (if ?b then _ else _) => destruct b
           end;
      try (by apply elem_of_nil in Hv);
      apply list_elem_of_singleton in Hv as ->;
      destruct value; simpl; try done.
    + by destruct (snd (ParseInt s)).
    + by destruct (ParseFloat s).
    + by destruct (Contains (spec.Variants fd) s).
Qed.

Section ValidateReport.
Variable ParseFloat : string -> option float64.
Variable name : string.
Variable def : spec.EntityDef.
Variable record : gmap string Value.

Let e := NewEntity ParseFloat name def.

Lemma elem_of_unknown_field_errors err :
  err ∈ unknown_field_errors def record <->
  exists k, is_Some (record !! k) /\ spec.Fields def !! k = None
            /\ err = UnknownField k.
Proof.
  unfold unknown_field_errors. rewrite list_elem_of_bind. split.
  - intros ([k v] & Herr & Hin). apply elem_of_map_to_list in Hin.
    simpl in Herr. destruct (spec.Fields def !! k) eqn:Hk.
    + by apply elem_of_nil in Herr.
    + apply list_elem_of_singleton in Herr. exists k. eauto.
  - intros (k & [v Hv] & Hk & ->). exists (k, v). simpl. rewrite Hk.
    split; [by apply list_elem_of_singleton|by apply elem_of_map_to_list].
Qed.

Lemma NoDup_unknown_field_errors : NoDup (unknown_field_errors def record).
Proof.
  unfold unknown_field_errors.
  pose proof (NoDup_fst_map_to_list record) as Hnd.
  induction (map_to_list record) as [|[k v] l IH]; [constructor|].
  simpl in Hnd. apply NoDup_cons in Hnd as [Hk Hnd].
  rewrite bind_cons. simpl. destruct (spec.Fields def !! k); [by apply IH|].
  simpl. apply NoDup_cons. split; [|by apply IH].
  rewrite list_elem_of_bind. intros ([k' v'] & Hin & Hl). simpl in Hin.
  destruct (spec.Fields def !! k'); [by apply elem_of_nil in Hin|].
  apply list_elem_of_singleton in Hin as [= ->].
  apply Hk. apply list_elem_of_fmap. by exists (k', v').
Qed.

Lemma elem_of_field_errors err :
  err ∈ field_errors ParseFloat def record <->
  exists f fd validator,
    spec.Fields def !! f = Some fd
    /\ validator ∈ field_validations ParseFloat f fd
    /\ validator (default VNil (record !! f)) = Some err.
Proof.
  unfold field_errors, chain_errors. rewrite list_elem_of_bind. split.
  - intros ([f fd] & Herr & Hin). apply elem_of_map_to_list in Hin.
    apply list_elem_of_omap in Herr as (validator & Hv & Herr).
    by exists f, fd, validator.
  - intros (f & fd & validator & Hf & Hv & Herr). exists (f, fd).
    split; [|by apply elem_of_map_to_list].
    apply list_elem_of_omap. by exists validator.
Qed.

Lemma elem_of_Validate err :
  err ∈ Validate e record <->
  (exists k, is_Some (record !! k) /\ spec.Fields def !! k = None
             /\ err = UnknownField k)
  \/ (exists f fd validator,
        spec.Fields def !! f = Some fd
        /\ validator ∈ field_validations ParseFloat f fd
        /\ validator (default VNil (record !! f)) = Some err).
Proof.
  pose proof (Validate_refines ParseFloat name def record) as Hperm.
  fold e in Hperm. unfold Validate_spec in Hperm.
  rewrite Hperm, elem_of_app.
  by rewrite elem_of_unknown_field_errors, elem_of_field_errors.
Qed.
End ValidateReport.

(** C3.  [Validate] on a compiled entity is total and returns the whole
    report: up to the order of the loops it is the list of the
    specification -- the unknown-field errors, one for each key of the
    record that is not a declared field and no other, followed by every
    error of every validator of every declared field, run on the record's
    value or on [nil] when the record has no such key.  So an error is in
    the report exactly when it is one of these, and a required field that
    is absent from the record (or [nil]) has its required-field error in
    the report whatever the other fields hold. *)
Theorem Validate_complete (ParseFloat : string -> option float64)
    (name : string) (def : spec.EntityDef) (record : gmap string Value) :
  let e := NewEntity ParseFloat name def in
  Validate e record
    ≡ₚ unknown_field_errors def record ++ field_errors ParseFloat def record
  /\ NoDup (unknown_field_errors def record)
  /\ (forall k, UnknownField k ∈ Validate e record <->
                is_Some (record !! k) /\ spec.Fields def !! k = None)
  /\ (forall k, UnknownField k ∉ field_errors ParseFloat def record)
  /\ (forall err,
        err ∈ Validate e record <->
        (exists k, is_Some (record !! k) /\ spec.Fields def !! k = None
                   /\ err = UnknownField k)
        \/ (exists f fd validator,
              spec.Fields def !! f = Some fd
              /\ validator ∈ field_validations ParseFloat f fd
              /\ validator (default VNil (record !! f)) = Some err))
  /\ (forall f fd,
        spec.Fields def !! f = Some fd ->
        spec.Required fd = true ->
        default VNil (record !! f) = VNil ->
        FieldRequired f ∈ Validate e record).
Proof.
  intros e.
  pose proof (Validate_refines ParseFloat name def record) as Hperm.
  fold e in Hperm. unfold Validate_spec in Hperm.
  pose proof (elem_of_Validate ParseFloat name def record) as Hmem.
  fold e in Hmem.
  assert (forall k, UnknownField k ∉ field_errors ParseFloat def record)
    as Hnot.
  { intros k. rewrite elem_of_field_errors.
    intros (f & fd & validator & _ & Hv & Herr).
    by eapply field_validations_not_unknown. }
  split_and!; [done|apply NoDup_unknown_field_errors| |done|done|].
  - intros k. rewrite Hmem. split.
    + intros [(k' & Hk & Hd & [= ->])|(f & fd & validator & _ & Hv & Herr)];
        [done|].
      by eapply field_validations_not_unknown in Hv.
    + intros [Hk Hd]. left. by exists k.
  - intros f fd Hf Hreq Hnil. apply Hmem. right.
    exists f, fd, (required_validator f). split_and!; [done| |].
    + unfold field_validations. rewrite Hreq. by left.
    + by rewrite Hnil.
Qed.

Lemma Validate_complete_witness :
  FieldRequired "status" ∈ Validate task (<["title" := VString "x"]> ∅).
Proof.
  apply (proj2 (proj2 (proj2 (proj2 (proj2
           (Validate_complete no_ParseFloat "task" task_def
              (<["title" := VString "x"]> ∅))))))
           "status" (field "enum" true ["open"; "done"]));
    vm_compute; reflexivity.
Defined.

(** ** Field types without a type validator *)

Lemma type_validations_none ParseFloat f fd :
  spec.Type_ fd = "bool" \/ unmapped (spec.Type_ fd) ->
  type_validations ParseFloat f fd = [].
Proof.
  unfold type_validations, unmapped. intros Hty.
  repeat match goal with
         | |- context [String.eqb ?a ?b] =>
             destruct (String.eqb_spec a b) as [Heq|_];
             [exfalso; destruct Hty as [Hty|Hty];
              [by rewrite Hty in Heq|apply Hty; rewrite Heq; set_solver]|]
         end.
  done.
Qed.

(** C9 (amended).  For a field whose declared type is [bool] or a type
    the compiler does not know, the compiled chain is the required check
    alone (and empty when the field is not required): no value fails a
    type check, every value passes when the field is optional, and the
    only error a value can meet is the required-field error, on [nil] or
    blank text.  The storage type is TEXT for an unknown type, but BOOLEAN
    for [bool]. *)
Theorem bool_and_unmapped_fields (ParseFloat : string -> option float64)
    (name : string) (def : spec.EntityDef) (f : string) (fd : spec.FieldDef) :
  spec.Fields def !! f = Some fd ->
  spec.Type_ fd = "bool" \/ unmapped (spec.Type_ fd) ->
  let e := NewEntity ParseFloat name def in
  Validations e !! f
    = Some (if spec.Required fd then [required_validator f] else [])
  /\ (forall value err,
        err ∈ chain_errors (field_validations ParseFloat f fd) value ->
        spec.Required fd = true /\ err = FieldRequired f
        /\ (value = VNil
            \/ exists s, value = VString s /\ TrimSpace_empty s = true))
  /\ (spec.Required fd = false ->
      forall value,
        chain_errors (field_validations ParseFloat f fd) value = [])
  /\ GetFieldType e f
     = (if String.eqb (spec.Type_ fd) "bool" then "BOOLEAN" else "TEXT").
Proof.
  intros Hf Hty e.
  assert (field_validations ParseFloat f fd
          = if spec.Required fd then [required_validator f] else [])
    as Hchain.
  { unfold field_validations. rewrite type_validations_none by done.
    by rewrite app_nil_r. }
  split_and!.
  - unfold e. by rewrite NewEntity_Validations, Hf, <- Hchain.
  - intros value err. rewrite Hchain.
    destruct (spec.Required fd); [|by intros ?%elem_of_nil].
    unfold chain_errors. simpl.
    destruct value; simpl; try (by intros ?%elem_of_nil).
    + intros ->%list_elem_of_singleton. eauto.
    + destruct (TrimSpace_empty s) eqn:Hs; [|by intros ?%elem_of_nil].
      intros ->%list_elem_of_singleton. split_and!; eauto.
  - intros Hreq value. by rewrite Hchain, Hreq.
  - unfold GetFieldType, e. rewrite NewEntity_Fields, Hf. simpl.
    unfold unmapped in Hty.
    repeat match goal with
           | |- context [String.eqb ?a ?b] =>
               destruct (String.eqb_spec a b) as [Heq|?]
           end; simpl; try done;
      exfalso; destruct Hty as [Hty|Hty]; try congruence;
      apply Hty; rewrite Heq; set_solver.
Qed.

Lemma bool_and_unmapped_fields_witness :
  Validations todo !! "done" = Some []
  /\ GetFieldType todo "done" = "BOOLEAN".
Proof.
  pose proof (bool_and_unmapped_fields no_ParseFloat "todo" todo_def "done"
                (field "bool" false []) eq_refl (or_introl eq_refl)) as H.
  split; [exact (proj1 H)|exact (proj2 (proj2 (proj2 H)))].
Defined.

(** The storage type of a [bool] field is not TEXT. *)
Lemma bool_storage_type_not_text :
  ~ (spec.Fields todo_def !! "done" = Some (field "bool" false [])
     -> GetFieldType todo "done" = "TEXT").
Proof. intros H. specialize (H eq_refl). vm_compute in H. discriminate. Qed.

(** ** The resource envelope *)

Lemma attributes_lookup (data : gmap string Value) (k : string) :
  server.attributes (server.formatJSONapiResource data) !! k
  = if decide (k = "id") then None else data !! k.
Proof.
  unfold server.formatJSONapiResource. simpl.
  rewrite (foldl_insert_lookup_map _
             (fun k v => if String.eqb k "id" then None else Some v)).
  2:{ intros m kv. by destruct (String.eqb (fst kv) "id"). }
  rewrite lookup_empty. destruct (String.eqb_spec k "id") as [->|Hne].
  - rewrite decide_True by done. by destruct (data !! "id").
  - rewrite decide_False by done. by destruct (data !! k).
Qed.

(** C7 (what the code does).  [formatJSONapiResource] renders an [int64]
    id in decimal (and any other or absent id as "0"), copies every field
    but [id] into the attributes -- and sets the type tag to the constant
    "entity" for every record: the function is not given the entity, and a
    record of the entity [task] is tagged "entity". *)
Theorem formatJSONapiResource_envelope (data : gmap string Value) :
  let r := server.formatJSONapiResource data in
  server.id r = Sprintf_d (match data !! "id" with
                           | Some (VInt64 n) => n
                           | _ => 0
                           end)
  /\ server.attributes r = delete "id" data
  /\ server.type_ r = "entity"
  /\ server.type_ r <> Name task.
Proof.
  intros r. split_and!.
  - reflexivity.
  - apply map_eq. intros k. unfold r. rewrite attributes_lookup.
    destruct (decide (k = "id")) as [->|Hne].
    + by rewrite lookup_delete_eq.
    + by rewrite lookup_delete_ne.
  - reflexivity.
  - unfold task. rewrite NewEntity_Name. simpl. discriminate.
Qed.

(** ** The manifest loader *)

(** C8 (what the code does).  [LoadManifest] refuses a decoded manifest
    whose [Entities] map is [nil], with the message "manifest must have
    at least one entity"; it accepts every other one, the manifest whose
    map is allocated and empty included, and [main] then starts the
    server with no repository (whenever the database opens; no error of
    the manifest is reported in either case). *)
Theorem LoadManifest_entities (File : Type)
    (os_Open : string -> result string File)
    (yaml_Decode : File -> result string spec.Manifest)
    (path : string) (file : File) (manifest : spec.Manifest) :
  os_Open path = Ok file ->
  yaml_Decode file = Ok manifest ->
  (spec.Entities manifest = None ->
   spec.LoadManifest File os_Open yaml_Decode path
   = Err "manifest must have at least one entity")
  /\ (forall entities,
        spec.Entities manifest = Some entities ->
        spec.LoadManifest File os_Open yaml_Decode path = Ok manifest)
  /\ (forall `{sql.Affinity} ParseFloat sql_Open ping sql_message,
        spec.Entities manifest = Some ∅ ->
        main.main ParseFloat File os_Open yaml_Decode sql_Open ping
          sql_message path
        = match sql_Open, ping with
          | None, None => main.Serving opened ∅
          | Some err, _ | None, Some err =>
              main.Fatal ("Failed to initialize database: " +:+ err)
          end).
Proof.
  intros Hopen Hdecode. unfold main.main, spec.LoadManifest.
  rewrite Hopen, Hdecode. split_and!.
  - by intros ->.
  - by intros entities ->.
  - intros aff ParseFloat sql_Open ping sql_message Hent. rewrite Hent.
    simpl. destruct sql_Open as [err|]; [done|].
    destruct ping as [err|]; [done|]. simpl. by rewrite Hent.
Qed.

Lemma LoadManifest_entities_witness :
  spec.LoadManifest spec.Manifest (open_file (manifest (Some ∅))) decode
    "oneapi.yaml"
  = Ok (manifest (Some ∅))
  /\ main.main no_ParseFloat spec.Manifest (open_file (manifest (Some ∅)))
       decode None None (fun _ => "") "oneapi.yaml"
     = main.Serving opened ∅.
Proof.
  pose proof (LoadManifest_entities spec.Manifest
                (open_file (manifest (Some ∅))) decode "oneapi.yaml"
                (manifest (Some ∅)) (manifest (Some ∅)) eq_refl eq_refl)
    as H.
  split.
  - exact (proj1 (proj2 H) ∅ eq_refl).
  - exact (proj2 (proj2 H) sqlite.sqlite_affinity no_ParseFloat None None
             (fun _ => "") eq_refl).
Defined.

(** ** The list handler *)

(** C6 (what the code does).  The handler passes the page size of the
    request to the repository, which lists with its own effective size,
    and then divides by the size of the request as it came: for every
    request whose [page[size]] reads as 0 and whose listing succeeds, the
    handler panics on the division instead of reporting
    [ceil(total / 10)]; for any other size the quotient is taken with the
    size of the request, not with the effective one. *)
Theorem List_total_pages_raw_size (e : Entity) (db : sql.DB)
    (query : gmap string string) (data : list (gmap string Value))
    (total : Z) :
  let page := fst (Atoi (server.Query query "page[number]" "1")) in
  let pageSize := fst (Atoi (server.Query query "page[size]" "10")) in
  storage.List e db page pageSize = Ok (data, total) ->
  (pageSize = 0 ->
   storage.List e db page 10 = Ok (data, total)
   /\ server.List e db query
      = server.Panic "runtime error: integer divide by zero")
  /\ (pageSize <> 0 ->
      exists r,
        server.List e db query = server.Respond r
        /\ server.total_pages (server.meta r)
           = server.int_div (wrap64 (wrap64 (total + pageSize) - 1))
               pageSize).
Proof.
  intros page pageSize Hlist. split.
  - intros Hzero. split.
    + rewrite <- Hlist. by rewrite Hzero.
    + unfold server.List. fold page pageSize. rewrite Hlist.
      by rewrite Hzero.
  - intros Hnz. unfold server.List. fold page pageSize. rewrite Hlist.
    destruct (Z.eqb_spec pageSize 0) as [?|_]; [done|]. eauto.
Qed.

Lemma List_total_pages_raw_size_witness :
  server.List task (fresh task) (<["page[size]" := "0"]> ∅)
  = server.Panic "runtime error: integer divide by zero".
Proof.
  exact (proj2 (proj1 (List_total_pages_raw_size task (fresh task)
                         (<["page[size]" := "0"]> ∅) [] 0 eq_refl)
                  eq_refl)).
Defined.

(** ** The engine *)

Lemma zip_fmap_both {A B C} (f : A -> B) (g : A -> C) (l : list A) :
  zip (f <$> l) (g <$> l) = (fun x => (f x, g x)) <$> l.
Proof. induction l as [|x l IH]; [done|]. csimpl. by f_equal. Qed.

(** The record of a row: [id], and every column as scanned. *)
Lemma record_of_lookup (t : sql.Table) (r : sql.Row) (k : string) :
  NoDup (sql.column_names (sql.columns t)) ->
  record_of t r !! k
  = if decide (k = "id") then Some (VInt64 (sql.rowid r))
    else
      match find (fun c => String.eqb (sql.column_name c) k)
              (sql.columns t) with
      | Some c => Some (convert (sql.scan (sql.column_type c) (sql.cell r c)))
      | None => None
      end.
Proof.
  intros Hnd. unfold record_of, row_entry, sql.scan_row, sql.column_names.
  set (cols := sql.columns t) in *.
  change (zip ("id" :: map sql.column_name cols)
            (VInt64 (sql.rowid r)
             :: map (fun c => sql.scan (sql.column_type c) (sql.cell r c))
                  cols))
    with (("id", VInt64 (sql.rowid r))
          :: zip (sql.column_name <$> cols)
               ((fun c => sql.scan (sql.column_type c) (sql.cell r c))
                <$> cols)).
  rewrite zip_fmap_both.
  rewrite (foldl_insert_lookup _ (fun _ v => Some (convert v))); [|done|].
  2:{ simpl. rewrite <- list_fmap_compose. exact Hnd. }
  rewrite lookup_empty. simpl.
  unfold sql.column_names in Hnd. apply NoDup_cons in Hnd as [Hid Hnd].
  destruct (decide (k = "id")) as [->|Hne].
  - by rewrite lookup_insert_eq.
  - rewrite lookup_insert_ne by done.
    clear Hid. induction cols as [|c cols IH]; [done|].
    simpl in Hnd. apply NoDup_cons in Hnd as [Hc Hnd].
    simpl.
    destruct (String.eqb_spec (sql.column_name c) k) as [<-|Hck].
    + by rewrite lookup_insert_eq.
    + rewrite lookup_insert_ne by done. by apply IH.
Qed.

(** The column of a name as written. *)
Lemma find_name_Some (cols : list sql.Column) k c :
  find (fun c => String.eqb (sql.column_name c) k) cols = Some c ->
  c ∈ cols /\ sql.column_name c = k.
Proof.
  induction cols as [|c' cols IH]; [done|]. simpl.
  destruct (String.eqb_spec (sql.column_name c') k) as [Heq|Hne].
  - intros [= <-]. split; [by left|done].
  - intros Hf. destruct (IH Hf). split; [by right|done].
Qed.

Lemma find_name_None (cols : list sql.Column) k :
  find (fun c => String.eqb (sql.column_name c) k) cols = None ->
  k ∉ sql.column_name <$> cols.
Proof.
  induction cols as [|c' cols IH]; simpl.
  - intros _ Hin. by apply elem_of_nil in Hin.
  - destruct (String.eqb_spec (sql.column_name c') k) as [Heq|Hne]; [done|].
    intros Hf. rewrite not_elem_of_cons. split; [done|by apply IH].
Qed.

(** The column a statement names. *)
Lemma find_column_Some cols k c :
  sql.find_column cols k = Some c ->
  c ∈ cols /\ sql.fold (sql.column_name c) = sql.fold k.
Proof.
  unfold sql.find_column. induction cols as [|c' cols IH]; [done|]. simpl.
  destruct (String.eqb_spec (sql.fold (sql.column_name c')) (sql.fold k))
    as [Heq|Hne].
  - intros [= <-]. split; [by left|done].
  - intros Hf. destruct (IH Hf). split; [by right|done].
Qed.

Lemma find_column_None cols k :
  sql.find_column cols k = None ->
  sql.fold k ∉ (fun c => sql.fold (sql.column_name c)) <$> cols.
Proof.
  unfold sql.find_column. induction cols as [|c' cols IH]; simpl.
  - intros _ Hin. by apply elem_of_nil in Hin.
  - destruct (String.eqb_spec (sql.fold (sql.column_name c')) (sql.fold k))
      as [Heq|Hne]; [done|].
    intros Hf. rewrite not_elem_of_cons. split; [done|by apply IH].
Qed.

Lemma NoDup_fmap_eq {A B} (f : A -> B) (l : list A) x y :
  NoDup (f <$> l) -> x ∈ l -> y ∈ l -> f x = f y -> x = y.
Proof.
  induction l as [|a l IH]; intros Hnd Hx Hy Heq; [by inversion Hx|].
  rewrite fmap_cons in Hnd. apply NoDup_cons in Hnd as [Ha Hnd].
  apply elem_of_cons in Hx as [->|Hx]; apply elem_of_cons in Hy as [->|Hy].
  - done.
  - exfalso. apply Ha. rewrite Heq. by apply list_elem_of_fmap_2.
  - exfalso. apply Ha. rewrite <- Heq. by apply list_elem_of_fmap_2.
  - by apply IH.
Qed.

Section SchemaFacts.
Variable e : Entity.
Variable cols : list sql.Column.
Hypothesis Hschema : schema_ok e cols.

(** No two columns of a table in order have the same name, as written
    or folded. *)
Lemma schema_NoDup_fold :
  NoDup ((fun c => sql.fold (sql.column_name c)) <$> cols).
Proof.
  destruct Hschema as (Hnd & _ & _). unfold sql.column_names in Hnd.
  rewrite fmap_cons in Hnd. apply NoDup_cons in Hnd as [_ Hnd].
  change (map sql.column_name cols) with (sql.column_name <$> cols) in Hnd.
  by rewrite <- list_fmap_compose in Hnd.
Qed.

Lemma schema_NoDup : NoDup (sql.column_names cols).
Proof. destruct Hschema as (Hnd & _ & _). by apply NoDup_fmap_1 in Hnd. Qed.

(** Every declared field is a column, under its name as written. *)
Lemma column_declared (f : string) (field : Field) :
  Fields e !! f = Some field ->
  exists c, c ∈ cols
            /\ sql.column_name c = f
            /\ sql.column_type c = GetFieldType e f
            /\ sql.column_notnull c = Field_Required field.
Proof.
  intros Hf. destruct Hschema as (_ & Hcols & Hall).
  rewrite Forall_forall in Hall.
  pose proof (Hall (f, field)) as Hin. simpl in Hin.
  apply list_elem_of_fmap in Hin as (c & Hname & Hin).
  2:{ by apply elem_of_map_to_list. }
  rewrite Forall_forall in Hcols. destruct (Hcols c Hin) as [Hreq Hty].
  rewrite <- Hname, Hf in Hreq. simpl in Hreq. exists c.
  split_and!; [done|done|by rewrite Hname|congruence].
Qed.

(** The columns are the declared fields: a statement that names a
    declared field names its column. *)
Lemma find_column_declared (f : string) (field : Field) :
  Fields e !! f = Some field ->
  exists c, sql.find_column cols f = Some c
            /\ sql.column_name c = f
            /\ sql.column_type c = GetFieldType e f
            /\ sql.column_notnull c = Field_Required field.
Proof.
  intros Hf.
  destruct (column_declared f field Hf) as (c & Hin & Hname & Hty & Hnn).
  destruct (sql.find_column cols f) as [c'|] eqn:Hfind.
  - apply find_column_Some in Hfind as [Hin' Hfold].
    assert (c' = c) as ->; [|by exists c].
    apply (NoDup_fmap_eq (fun c => sql.fold (sql.column_name c)) cols);
      [apply schema_NoDup_fold|done|done|].
    by rewrite Hfold, Hname.
  - apply find_column_None in Hfind. exfalso. apply Hfind.
    apply list_elem_of_fmap. exists c. by rewrite Hname.
Qed.

Lemma find_name_declared (f : string) (field : Field) :
  Fields e !! f = Some field ->
  exists c, find (fun c => String.eqb (sql.column_name c) f) cols = Some c
            /\ sql.column_name c = f
            /\ sql.column_type c = GetFieldType e f
            /\ sql.column_notnull c = Field_Required field.
Proof.
  intros Hf.
  destruct (column_declared f field Hf) as (c & Hin & Hname & Hty & Hnn).
  destruct (find (fun c => String.eqb (sql.column_name c) f) cols)
    as [c'|] eqn:Hfind.
  - apply find_name_Some in Hfind as [Hin' Hname'].
    assert (c' = c) as ->; [|by exists c].
    apply (NoDup_fmap_eq (fun c => sql.fold (sql.column_name c)) cols);
      [apply schema_NoDup_fold|done|done|].
    by rewrite Hname, Hname'.
  - apply find_name_None in Hfind. exfalso. apply Hfind.
    apply list_elem_of_fmap. by exists c.
Qed.

Lemma find_name_undeclared (f : string) :
  Fields e !! f = None ->
  find (fun c => String.eqb (sql.column_name c) f) cols = None.
Proof.
  intros Hf. destruct Hschema as (_ & Hcols & _).
  destruct (find _ cols) as [c|] eqn:Hfind; [|done].
  apply find_name_Some in Hfind as [Hin <-].
  rewrite Forall_forall in Hcols. destruct (Hcols c Hin) as [Hreq _].
  by rewrite Hf in Hreq.
Qed.

Lemma id_not_declared : Fields e !! "id" = None.
Proof.
  destruct Hschema as (Hnd & _ & Hall).
  destruct (Fields e !! "id") as [field|] eqn:Hf; [|done].
  rewrite Forall_forall in Hall.
  pose proof (Hall ("id", field)) as Hin. simpl in Hin.
  unfold sql.column_names in Hnd. rewrite fmap_cons in Hnd.
  apply NoDup_cons in Hnd as [Hid _].
  exfalso. apply Hid.
  change (sql.fold "id") with (sql.fold ("id" : string)).
  apply list_elem_of_fmap_2.
  change (map sql.column_name cols) with (sql.column_name <$> cols).
  apply Hin. by apply elem_of_map_to_list.
Qed.
End SchemaFacts.

(** ** The repository *)

Lemma declared_unfold (e : Entity) (data : gmap string Value) :
  declared e data
  = ((declared_entries e data).*1, (declared_entries e data).*2).
Proof.
  unfold declared, declared_entries.
  assert (forall l a b,
            foldl (fun (acc : list string * list Value)
                     (kv : string * Value) =>
                     match Fields e !! fst kv with
                     | None => acc
                     | Some _ => (fst acc ++ [fst kv], snd acc ++ [snd kv])
                     end) (a, b) l
            = (a ++ (filter (fun kv => is_Some (Fields e !! fst kv)) l).*1,
               b ++ (filter (fun kv => is_Some (Fields e !! fst kv)) l).*2))
    as Hgen.
  { induction l as [|[k v] l IH]; intros a b; simpl.
    - by rewrite !app_nil_r.
    - destruct (Fields e !! k) as [field|] eqn:Hk.
      + rewrite filter_cons_True by (simpl; rewrite Hk; eauto).
        rewrite IH. simpl. by rewrite <- !app_assoc.
      + rewrite filter_cons_False; [by rewrite IH|].
        simpl. rewrite Hk. by intros [? ?]. }
  apply Hgen.
Qed.

Lemma NoDup_declared_entries e data : NoDup (declared_entries e data).*1.
Proof.
  unfold declared_entries.
  pose proof (NoDup_fst_map_to_list data) as Hnd.
  induction (map_to_list data) as [|[k v] l IH]; [constructor|].
  simpl in Hnd. apply NoDup_cons in Hnd as [Hk Hnd].
  destruct (decide (is_Some (Fields e !! k))) as [Hs|Hs].
  - rewrite filter_cons_True by done. simpl. apply NoDup_cons.
    split; [|by apply IH]. intros Hin. apply Hk.
    apply list_elem_of_fmap in Hin as ([k' v'] & -> & Hin).
    apply list_elem_of_filter in Hin as [_ Hin].
    apply list_elem_of_fmap. by exists (k', v').
  - rewrite filter_cons_False by done. by apply IH.
Qed.

Lemma declared_entries_lookup e data k :
  (list_to_map (declared_entries e data) : gmap string Value) !! k
  = match Fields e !! k with
    | Some _ => data !! k
    | None => None
    end.
Proof.
  pose proof (NoDup_declared_entries e data) as Hnd.
  destruct (Fields e !! k) as [field|] eqn:Hk.
  - destruct (data !! k) as [v|] eqn:Hv.
    + apply elem_of_list_to_map; [done|].
      apply list_elem_of_filter. simpl. rewrite Hk.
      split; [eauto|by apply elem_of_map_to_list].
    + apply not_elem_of_list_to_map_1.
      intros Hin. apply list_elem_of_fmap in Hin as ([k' v'] & -> & Hin).
      apply list_elem_of_filter in Hin as [_ Hin].
      apply elem_of_map_to_list in Hin. simpl in Hv. congruence.
  - apply not_elem_of_list_to_map_1.
    intros Hin. apply list_elem_of_fmap in Hin as ([k' v'] & -> & Hin).
    apply list_elem_of_filter in Hin as [[? Hs] _]. simpl in *. congruence.
Qed.

Section Writes.
Context `{sql.Affinity}.
Variable e : Entity.
Variable cols : list sql.Column.
Hypothesis Hschema : schema_ok e cols.

Lemma assignments_inv (kvs : list (string * Value)) args l :
  mapM sql.bind kvs.*2 = Some args ->
  sql.assignments cols kvs.*1 args = Ok l ->
  Forall2 (assigned cols) kvs l.
Proof.
  revert args l. induction kvs as [|[k v] kvs IH]; intros args l.
  - simpl. intros [= <-]. simpl. intros [= <-]. constructor.
  - csimpl. destruct (sql.bind v) as [s|] eqn:Hb; [|done]. simpl.
    destruct (mapM sql.bind kvs.*2) as [args'|] eqn:Hm; [|done]. simpl.
    intros [= <-]. simpl.
    destruct (sql.find_column cols k) as [c|] eqn:Hc; [|done].
    destruct (sql.assignments cols kvs.*1 args') as [l'|] eqn:Ha; [|done].
    intros [= <-]. constructor; [done|]. by eapply IH.
Qed.

Lemma assignments_declared (kvs : list (string * Value)) args :
  Forall (fun kv => is_Some (Fields e !! fst kv)) kvs ->
  mapM sql.bind kvs.*2 = Some args ->
  exists l, sql.assignments cols kvs.*1 args = Ok l.
Proof.
  revert args. induction kvs as [|[k v] kvs IH]; intros args Hall.
  - simpl. intros [= <-]. by exists [].
  - apply Forall_cons in Hall as [[field Hk] Hall]. csimpl.
    destruct (sql.bind v) as [s|] eqn:Hb; [|done]. simpl.
    destruct (mapM sql.bind kvs.*2) as [args'|] eqn:Hm; [|done]. simpl.
    intros [= <-]. simpl in *.
    destruct (find_column_declared e cols Hschema k field Hk)
      as (c & -> & _).
    destruct (IH args' Hall eq_refl) as [l' ->]. eauto.
Qed.

(** The cells after a write: a written column holds the converted
    value, every other column what it held. *)
Lemma store_lookup (kvs : list (string * Value)) l m k :
  Forall (fun kv => is_Some (Fields e !! fst kv)) kvs ->
  Forall2 (assigned cols) kvs l ->
  NoDup kvs.*1 ->
  sql.store l m !! k
  = match (list_to_map kvs : gmap string Value) !! k with
    | Some v =>
        Some (sql.affinity (GetFieldType e k)
                (default sql.SNull (sql.bind v)))
    | None => m !! k
    end.
Proof.
  intros Hdecl Hall. revert m Hdecl. unfold sql.store.
  induction Hall as [|[k' v] [c s] kvs l [Hc Hb] Hall IH]; intros m Hdecl Hnd.
  - simpl. by rewrite lookup_empty.
  - simpl in *. apply NoDup_cons in Hnd as [Hk' Hnd].
    apply Forall_cons in Hdecl as [[field Hfield] Hdecl]. simpl in Hfield.
    rewrite IH by done.
    destruct (find_column_declared e cols Hschema k' field Hfield)
      as (c' & Hc' & Hname & Hty & _).
    rewrite Hc in Hc'. injection Hc' as <-.
    rewrite Hty, Hname.
    destruct (decide (k' = k)) as [->|Hne].
    + rewrite !lookup_insert_eq.
      assert ((list_to_map kvs : gmap string Value) !! k = None) as ->
        by by apply not_elem_of_list_to_map_1.
      by rewrite Hb.
    + by rewrite !lookup_insert_ne by done.
Qed.
End Writes.

Section CreateFacts.
Context `{sql.Affinity}.
Variable e : Entity.

(** A failed validation is reported whole, before any statement. *)
Lemma Create_invalid (db : sql.DB) (data : gmap string Value) :
  Validate e data <> [] ->
  Create e db data = (db, Err (ValidationFailed (Validate e data))).
Proof. unfold Create. by destruct (Validate e data). Qed.

(** What a successful [Create] has done. *)
Lemma Create_inv (db db' : sql.DB) (data : gmap string Value) (id : Z) :
  Create e db data = (db', Ok id) ->
  Validate e data = []
  /\ declared_entries e data <> []
  /\ exists t args l,
       db !! sql.fold (Name e) = Some t
       /\ mapM sql.bind (declared_entries e data).*2 = Some args
       /\ sql.assignments (sql.columns t) (declared_entries e data).*1 args
          = Ok l
       /\ sql.null_violation (sql.columns t) (sql.store l ∅) = None
       /\ id = sql.sequence t + 1
       /\ id < 2 ^ 63
       /\ db' = <[sql.fold (Name e) :=
                    {| sql.columns := sql.columns t;
                       sql.rows :=
                         sql.rows t
                         ++ [{| sql.rowid := id;
                                sql.cells := sql.store l ∅ |}];
                       sql.sequence := id |}]> db.
Proof.
  unfold Create. destruct (Validate e data); [|done].
  rewrite declared_unfold. unfold sql.Exec, sql.bind_all, sql.exec_insert.
  destruct (mapM sql.bind (declared_entries e data).*2) as [args|];
    [|done].
  destruct (declared_entries e data) as [|kv kvs] eqn:Hentries; [done|].
  remember (kv :: kvs) as entries.
  assert ((entries.*1) <> []) as Hne by (subst; done).
  destruct (entries.*1) as [|f fs] eqn:Hfs; [done|]. rewrite <- Hfs.
  destruct (db !! sql.fold (Name e)) as [t|]; [|done].
  destruct (sql.assignments (sql.columns t) entries.*1 args) as [l|]
    eqn:Hl; [|done].
  destruct (sql.null_violation (sql.columns t) (sql.store l ∅)) eqn:Hnv;
    [done|].
  destruct (Z.leb_spec (2 ^ 63) (sql.sequence t + 1)); [done|].
  intros [= <- <-]. split; [done|]. split; [by subst|].
  exists t, args, l. by split_and!.
Qed.
End CreateFacts.

Section Records.
Variable e : Entity.
Variable t : sql.Table.
Hypothesis Hschema : schema_ok e (sql.columns t).

Lemma record_of_id r : record_of t r !! "id" = Some (VInt64 (sql.rowid r)).
Proof.
  rewrite record_of_lookup by by apply (schema_NoDup e).
  by rewrite decide_True.
Qed.

Lemma record_of_declared r f field :
  Fields e !! f = Some field ->
  record_of t r !! f
  = Some (convert (sql.scan (GetFieldType e f)
                     (default sql.SNull (sql.cells r !! f)))).
Proof.
  intros Hf. rewrite record_of_lookup by by apply (schema_NoDup e).
  rewrite decide_False.
  2:{ intros ->. by rewrite (id_not_declared e _ Hschema) in Hf. }
  destruct (find_name_declared e _ Hschema f field Hf)
    as (c & -> & Hname & Hty & _).
  unfold sql.cell. by rewrite Hname, Hty.
Qed.

Lemma record_of_undeclared r k :
  k <> "id" -> Fields e !! k = None -> record_of t r !! k = None.
Proof.
  intros Hk Hf. rewrite record_of_lookup by by apply (schema_NoDup e).
  rewrite decide_False by done.
  by rewrite (find_name_undeclared e _ Hschema).
Qed.
End Records.

(** ** Valid records *)

(** A record that validates has declared keys only. *)
Lemma Validate_nil_declared (e : Entity) (data : gmap string Value) k v :
  Validate e data = [] -> data !! k = Some v -> is_Some (Fields e !! k).
Proof.
  rewrite Validate_unfold. intros [Hunk _]%app_eq_nil Hk.
  destruct (Fields e !! k) as [field|] eqn:Hf; [eauto|].
  assert (UnknownField k ∈ ([] : list Error)) as Hin; [|by inversion Hin].
  rewrite <- Hunk. apply list_elem_of_bind. exists (k, v). simpl.
  rewrite Hf. split; [by left|by apply elem_of_map_to_list].
Qed.

(** A record that validates has a value that is neither [nil] nor blank
    text for every required field. *)
Lemma Validate_nil_required ParseFloat name def data f fd :
  Validate (NewEntity ParseFloat name def) data = [] ->
  spec.Fields def !! f = Some fd ->
  spec.Required fd = true ->
  exists v, data !! f = Some v
            /\ required_validator f v = None.
Proof.
  intros Hvalid Hf Hreq.
  pose proof (Validate_refines ParseFloat name def data) as Hperm.
  rewrite Hvalid in Hperm. symmetry in Hperm.
  apply Permutation_nil_r in Hperm.
  apply app_eq_nil in Hperm as [_ Herrs].
  destruct (required_validator f (default VNil (data !! f))) as [err|]
    eqn:Hv.
  - assert (err ∈ ([] : list Error)) as Hin; [|by inversion Hin].
    rewrite <- Herrs. apply elem_of_field_errors.
    exists f, fd, (required_validator f). split_and!; [done| |done].
    unfold field_validations. rewrite Hreq. by left.
  - destruct (data !! f) as [v|]; [eauto|done].
Qed.

Lemma find_None {A} (f : A -> bool) (l : list A) :
  Forall (fun x => f x = false) l -> find f l = None.
Proof. induction 1 as [|x l Hx Hl IH]; [done|]. simpl. by rewrite Hx. Qed.

(** A value that passes the required check and is storable is not bound
    to NULL. *)
Lemma bind_not_null name v :
  required_validator name v = None -> storable v ->
  exists s, sql.bind v = Some s /\ s <> sql.SNull.
Proof.
  destruct v; simpl; try done; eauto.
  intros _ ->. eauto.
Qed.

Section Statements.
Context `{sql.Affinity}.

Lemma Exec_insert_ok db t table fields values args l :
  db !! sql.fold table = Some t ->
  mapM sql.bind values = Some args ->
  fields <> [] ->
  sql.assignments (sql.columns t) fields args = Ok l ->
  sql.null_violation (sql.columns t) (sql.store l ∅) = None ->
  sql.sequence t + 1 < 2 ^ 63 ->
  sql.Exec db (sql.Insert table fields) values
  = Ok (<[sql.fold table :=
            {| sql.columns := sql.columns t;
               sql.rows :=
                 sql.rows t
                 ++ [{| sql.rowid := sql.sequence t + 1;
                        sql.cells := sql.store l ∅ |}];
               sql.sequence := sql.sequence t + 1 |}]> db,
        sql.sequence t + 1).
Proof.
  intros Ht Hargs Hne Hl Hnv Hseq.
  unfold sql.Exec, sql.bind_all, sql.exec_insert.
  rewrite Hargs. destruct fields as [|f fs]; [done|].
  rewrite Ht, Hl, Hnv.
  by destruct (Z.leb_spec (2 ^ 63) (sql.sequence t + 1)); [lia|].
Qed.

(** In a table in order, the values of a valid, storable record leave
    no NOT NULL column empty. *)
Lemma valid_record_not_null ParseFloat name def t record
    (m : gmap string sql.SqlValue) :
  let e := NewEntity ParseFloat name def in
  schema_ok e (sql.columns t) ->
  Validate e record = [] ->
  map_Forall (fun _ v => storable v) record ->
  (forall k v, record !! k = Some v ->
               is_Some (Fields e !! k) ->
               m !! k = Some (sql.affinity (GetFieldType e k)
                                (default sql.SNull (sql.bind v)))) ->
  sql.null_violation (sql.columns t) m = None.
Proof.
  intros e Hschema Hvalid Hstorable Hm.
  unfold sql.null_violation. apply find_None. apply Forall_forall.
  intros c Hc. destruct Hschema as (_ & Hcols & _).
  rewrite Forall_forall in Hcols. destruct (Hcols c Hc) as [Hreq _].
  destruct (sql.column_notnull c) eqn:Hnn; [|done]. simpl.
  unfold e in Hreq. rewrite NewEntity_Fields in Hreq.
  destruct (spec.Fields def !! sql.column_name c) as [fd|] eqn:Hfd;
    [|done].
  simpl in Hreq. injection Hreq as Hreq.
  destruct (Validate_nil_required _ _ _ _ _ _ Hvalid Hfd Hreq)
    as (v & Hv & Hpass).
  destruct (bind_not_null _ _ Hpass (Hstorable _ _ Hv)) as (s & Hs & Hnull).
  rewrite (Hm _ v Hv).
  2:{ unfold e. rewrite NewEntity_Fields, Hfd. eauto. }
  rewrite Hs. simpl. apply bool_decide_eq_false.
  by rewrite sql.affinity_null.
Qed.
End Statements.

(** A record that is valid, not empty and storable is inserted: one new
    row, with the next id of the counter and exactly the keys of the
    record. *)
Lemma Create_succeeds `{sql.Affinity}
    (ParseFloat : string -> option float64) (name : string)
    (def : spec.EntityDef) (db : sql.DB) (t : sql.Table)
    (data : gmap string Value) :
  let e := NewEntity ParseFloat name def in
  db !! sql.fold name = Some t ->
  table_ok e t ->
  sql.sequence t + 1 < 2 ^ 63 ->
  Validate e data = [] ->
  data <> ∅ ->
  map_Forall (fun _ v => storable v) data ->
  exists row,
    Create e db data
    = (<[sql.fold name := {| sql.columns := sql.columns t;
                    sql.rows := sql.rows t ++ [row];
                    sql.sequence := sql.sequence t + 1 |}]> db,
       Ok (sql.sequence t + 1))
    /\ sql.rowid row = sql.sequence t + 1
    /\ dom (sql.cells row) = dom data.
Proof.
  intros e Ht [Hschema Hrows] Hseq Hvalid Hne Hstorable.
  assert (Name e = name) as Hname by apply NewEntity_Name.
  unfold Create. rewrite Hvalid, declared_unfold, Hname.
  set (entries := declared_entries e data).
  assert (Forall (fun kv => is_Some (Fields e !! fst kv)) entries)
    as Hdecl.
  { apply Forall_forall. intros kv Hin.
    by apply list_elem_of_filter in Hin as [? _]. }
  assert (exists args, mapM sql.bind entries.*2 = Some args)
    as [args Hargs].
  { apply mapM_is_Some. apply Forall_fmap, Forall_forall.
    intros [k v] Hin. apply list_elem_of_filter in Hin as [_ Hin].
    apply elem_of_map_to_list in Hin. simpl.
    specialize (Hstorable k v Hin). by destruct v; simpl. }
  destruct (assignments_declared e _ Hschema entries args Hdecl Hargs)
    as [l Hl].
  assert (forall k,
            sql.store l ∅ !! k
            = match data !! k with
              | Some v => Some (sql.affinity (GetFieldType e k)
                                  (default sql.SNull (sql.bind v)))
              | None => None
              end) as Hstore.
  { intros k.
    rewrite (store_lookup e _ Hschema entries l ∅ k Hdecl
               (assignments_inv _ _ _ _ Hargs Hl)
               (NoDup_declared_entries e data)).
    unfold entries. rewrite declared_entries_lookup, lookup_empty.
    destruct (data !! k) as [v|] eqn:Hk.
    - destruct (Validate_nil_declared e data k v Hvalid Hk) as [? ->].
      done.
    - by destruct (Fields e !! k). }
  assert (entries.*1 <> []) as Hfields.
  { destruct (map_choose data Hne) as (k & v & Hk).
    intros Hnil. apply fmap_nil_inv in Hnil.
    assert ((k, v) ∈ entries) as Hin; [|rewrite Hnil in Hin; by inversion Hin].
    apply list_elem_of_filter. split.
    - by apply (Validate_nil_declared e data k v).
    - by apply elem_of_map_to_list. }
  assert (sql.null_violation (sql.columns t) (sql.store l ∅) = None)
    as Hnv.
  { apply (valid_record_not_null ParseFloat name def t data);
      [done|done|done|].
    intros k v Hk _. by rewrite Hstore, Hk. }
  rewrite (Exec_insert_ok db t name _ _ args l Ht Hargs Hfields Hl Hnv
             Hseq).
  eexists. split_and!; [reflexivity|done|]. simpl.
  apply set_eq. intros k. rewrite !elem_of_dom, Hstore.
  destruct (data !! k); [|done]. split; eauto.
Qed.

(** C2 (what the code does).  [Create] validates first: when [Validate]
    reports any error, [Create] returns the whole report as a validation
    failure and the database is the one before the call.  When it reports
    none, and the record is not empty and storable, [Create] inserts one
    row with exactly the keys of the record and returns its id, the next
    of the counter.  But for the empty record, valid when no field is
    required, the statement has an empty column list: [Create] returns
    the engine's syntax error and inserts nothing. *)
Theorem Create_validates_first `{sql.Affinity}
    (ParseFloat : string -> option float64) (name : string)
    (def : spec.EntityDef) (db : sql.DB) (data : gmap string Value) :
  let e := NewEntity ParseFloat name def in
  (Validate e data <> [] ->
   Create e db data = (db, Err (ValidationFailed (Validate e data))))
  /\ (forall t,
        db !! sql.fold name = Some t ->
        Validate e ∅ = [] ->
        Create e db ∅
        = (db, Err (Storage (sql.SyntaxError
                               ("INSERT INTO " +:+ name
                                +:+ " () VALUES ()")))))
  /\ (forall t,
        db !! sql.fold name = Some t ->
        table_ok e t ->
        sql.sequence t + 1 < 2 ^ 63 ->
        Validate e data = [] ->
        data <> ∅ ->
        map_Forall (fun _ v => storable v) data ->
        exists row,
          Create e db data
          = (<[sql.fold name := {| sql.columns := sql.columns t;
                          sql.rows := sql.rows t ++ [row];
                          sql.sequence := sql.sequence t + 1 |}]> db,
             Ok (sql.sequence t + 1))
          /\ sql.rowid row = sql.sequence t + 1
          /\ dom (sql.cells row) = dom data).
Proof.
  intros e. assert (Name e = name) as Hname by apply NewEntity_Name.
  split_and!.
  - apply Create_invalid.
  - intros t Ht Hvalid. unfold Create. rewrite Hvalid, declared_unfold.
    unfold declared_entries. rewrite map_to_list_empty. simpl.
    by rewrite Hname.
  - intros t. apply Create_succeeds.
Qed.

Lemma Create_validates_first_witness :
  Create (H := sqlite.sqlite_affinity) item (fresh item) ∅
  = (fresh item,
     Err (Storage (sql.SyntaxError "INSERT INTO item () VALUES ()"))).
Proof.
  apply (proj1 (proj2 (Create_validates_first (H := sqlite.sqlite_affinity)
                         no_ParseFloat "item" item_def (fresh item) ∅))
           (empty_table item)).
  - vm_compute. reflexivity.
  - vm_compute. reflexivity.
Defined.

(** ** The merged view of an update *)

(** The merged view: the patch, over the existing record without [id]. *)
Lemma merge_lookup (existing data : gmap string Value) (k : string) :
  merge existing data !! k
  = match data !! k with
    | Some v => Some v
    | None => if decide (k = "id") then None else existing !! k
    end.
Proof.
  unfold merge.
  rewrite (foldl_insert_lookup_map _ (fun _ v => Some v)) by done.
  destruct (data !! k) as [v|]; [done|].
  rewrite (foldl_insert_lookup_map _
             (fun k v => if String.eqb k "id" then None else Some v)).
  2:{ intros m kv. by destruct (String.eqb (fst kv) "id"). }
  rewrite lookup_empty. destruct (String.eqb_spec k "id") as [->|Hne].
  - rewrite decide_True by done. by destruct (existing !! "id").
  - rewrite decide_False by done. by destruct (existing !! k).
Qed.

(** With an empty patch the merged view is the existing record without
    [id]. *)
Lemma merge_empty (existing : gmap string Value) :
  merge existing ∅ = delete "id" existing.
Proof.
  apply map_eq. intros k. rewrite merge_lookup, lookup_empty.
  destruct (decide (k = "id")) as [->|Hne].
  - by rewrite lookup_delete_eq.
  - by rewrite lookup_delete_ne.
Qed.

(** Only the required check of a field reports that field as required. *)
Lemma field_validations_required ParseFloat f fd validator value r :
  validator ∈ field_validations ParseFloat f fd ->
  validator value = Some (FieldRequired r) ->
  f = r /\ required_validator r value = Some (FieldRequired r).
Proof.
  unfold field_validations, type_validations.
  rewrite elem_of_app. intros [Hv|Hv].
  - destruct (spec.Required fd); [|by apply elem_of_nil in Hv].
    apply list_elem_of_singleton in Hv as ->.
    destruct value; simpl; try done.
    + by intros [= ->].
    + destruct (TrimSpace_empty s); [|done]. by intros [= ->].
  - repeat match type of Hv with
           | _ ∈ (if ?b then _ else _) => destruct b
           end;
      try (by apply elem_of_nil in Hv);
      apply list_elem_of_singleton in Hv as ->;
      destruct value; simpl; try done.
    + by destruct (snd (ParseInt s)).
    + by destruct (ParseFloat s).
    + by destruct (Contains (spec.Variants fd) s).
Qed.

Lemma null_violation_None cols (m : gmap string sql.SqlValue) :
  sql.null_violation cols m = None <->
  forall c, c ∈ cols -> sql.column_notnull c = true ->
            default sql.SNull (m !! sql.column_name c) <> sql.SNull.
Proof.
  unfold sql.null_violation. split.
  - intros Hfind c Hc Hnn Hnull.
    apply list_elem_of_In in Hc.
    pose proof (find_none _ _ Hfind c Hc) as Hf. simpl in Hf.
    rewrite Hnn in Hf. simpl in Hf.
    by apply bool_decide_eq_false in Hf.
  - intros Hall. apply find_None, Forall_forall. intros c Hc.
    destruct (sql.column_notnull c) eqn:Hnn; [|done]. simpl.
    apply bool_decide_eq_false. by apply Hall.
Qed.

(** ** Listing *)

(** C5 (amended).  [List] replaces a page below 1 by 1 and a page size below 1 by
    10, skips [(page - 1) * pageSize] rows of the effective values (the
    product of Go's [int], which is the exact product whenever that fits)
    and returns at most [pageSize] rows after them; the count it returns
    is the number of rows of the table, whatever the page. *)
Theorem List_pagination (e : Entity) (db : sql.DB) (t : sql.Table)
    (page pageSize : Z) :
  db !! sql.fold (Name e) = Some t ->
  let page' := if page <? 1 then 1 else page in
  let pageSize' := if pageSize <? 1 then 10 else pageSize in
  let offset := wrap64 ((page' - 1) * pageSize') in
  List e db page pageSize
  = Ok (record_of t
          <$> take (Z.to_nat pageSize') (drop (Z.to_nat offset) (sql.rows t)),
        Z.of_nat (length (sql.rows t)))
  /\ ((page' - 1) * pageSize' < 2 ^ 63 -> offset = (page' - 1) * pageSize')
  /\ (page <= 0 -> List e db page pageSize = List e db 1 pageSize)
  /\ (pageSize <= 0 -> List e db page pageSize = List e db page 10)
  /\ (forall page2 pageSize2 records total,
        List e db page2 pageSize2 = Ok (records, total) ->
        total = Z.of_nat (length (sql.rows t))).
Proof.
  intros Ht page' pageSize' offset.
  assert (forall p ps,
            List e db p ps
            = Ok (record_of t
                    <$> take (Z.to_nat (if ps <? 1 then 10 else ps))
                          (drop (Z.to_nat
                                   (wrap64 (((if p <? 1 then 1 else p) - 1)
                                            * (if ps <? 1 then 10 else ps))))
                             (sql.rows t)),
                  Z.of_nat (length (sql.rows t)))) as Hlist.
  { intros p ps. unfold List, sql.QueryRow, sql.Query. simpl.
    rewrite Ht. simpl. unfold sql.limit_offset.
    assert (((if ps <? 1 then 10 else ps) <? 0) = false) as ->.
    { destruct (Z.ltb_spec ps 1); lia. }
    unfold record_of. by rewrite map_map. }
  split_and!.
  - apply Hlist.
  - intros Hfit. unfold offset, wrap64.
    assert (0 <= (page' - 1) * pageSize').
    { unfold page', pageSize'.
      destruct (Z.ltb_spec page 1), (Z.ltb_spec pageSize 1); nia. }
    rewrite Z.mod_small; lia.
  - intros Hpage. rewrite !Hlist.
    by destruct (Z.ltb_spec page 1); [|lia].
  - intros Hsize. rewrite !Hlist.
    by destruct (Z.ltb_spec pageSize 1); [|lia].
  - intros page2 pageSize2 records total. rewrite Hlist. by intros [= _ <-].
Qed.

Lemma List_pagination_witness :
  List task (fst (Create (H := sqlite.sqlite_affinity) task (fresh task)
                    task_x_open)) 0 0
  = List task (fst (Create (H := sqlite.sqlite_affinity) task (fresh task)
                      task_x_open)) 1 10
  /\ wrap64 ((3 - 1) * 10) = 20.
Proof.
  pose proof (List_pagination task
                (fst (Create (H := sqlite.sqlite_affinity) task (fresh task)
                        task_x_open))
                (task_table_1) 0 0 eq_refl) as (_ & _ & H1 & H2 & _).
  pose proof (List_pagination task
                (fst (Create (H := sqlite.sqlite_affinity) task (fresh task)
                        task_x_open))
                (task_table_1) 3 10 eq_refl) as (_ & H3 & _).
  split.
  - rewrite (H1 ltac:(lia)). apply (proj1 (proj2 (proj2 (proj2
      (List_pagination task
         (fst (Create (H := sqlite.sqlite_affinity) task (fresh task)
                 task_x_open)) task_table_1 1 0 eq_refl))))). lia.
  - apply H3. vm_compute. reflexivity.
Defined.

(** The offset is the product in Go's [int], not the product: for page
    [2^62 + 1] and page size 4 the product of the effective values is
    [2^64], and [List] skips no row.  It returns the one record of the
    table, where the slice at offset [2^64] is empty. *)
Lemma List_offset_wraps :
  let page := 2 ^ 62 + 1 in
  let pageSize := 4 in
  (page - 1) * pageSize = 2 ^ 64
  /\ List task task_db_1 page pageSize = Ok ([task_record_1], 1)
  /\ List task task_db_1 page pageSize
     <> Ok (record_of task_table_1
              <$> take (Z.to_nat pageSize)
                    (drop (Z.to_nat ((page - 1) * pageSize))
                       (sql.rows task_table_1)),
            Z.of_nat (length (sql.rows task_table_1))).
Proof.
  intros page pageSize.
  assert (List task task_db_1 page pageSize = Ok ([task_record_1], 1))
    as Hlist by (vm_compute; reflexivity).
  split_and!.
  - reflexivity.
  - exact Hlist.
  - rewrite Hlist, drop_ge.
    + discriminate.
    + change (length (sql.rows task_table_1)) with 1%nat.
      unfold page, pageSize. lia.
Qed.

(** ** The state of a running service is kept *)





Section Invariant.
Context `{sql.Affinity}.
Variable e : Entity.



End Invariant.

(** ** The repository on the handle *)

Section Handle.
Context `{sql.Affinity}.
Variable e : Entity.

(** A pool is its two lists. *)
Lemma Pool_eta (p : sql.Pool) :
  p = {| sql.idle := sql.idle p; sql.busy := sql.busy p |}.
Proof. by destruct p. Qed.

(** [FindByID] when the free connection has the table: the row keeps
    that connection, the query for the columns runs on a new one, whose
    database is empty, and the first connection is never released. *)
Lemma FindByID_serving (p : sql.Pool) (c : sql.DB) (t : sql.Table) (id : Z) :
  sql.idle p = [c] ->
  c !! sql.fold (Name e) = Some t ->
  repository.FindByID e p id
  = ({| sql.idle := [∅]; sql.busy := sql.busy p ++ [c] |},
     Err (Storage (sql.NoSuchTable (Name e)))).
Proof.
  intros Hidle Ht.
  unfold repository.FindByID, sql.DB_QueryRow, sql.DB_Query, sql.conn.
  rewrite Hidle. unfold sql.Query. simpl. rewrite Ht. simpl.
  by rewrite lookup_empty.
Qed.

(** [FindByID] when the free connection has no such table. *)
Lemma FindByID_lost (p : sql.Pool) (c : sql.DB) (id : Z) :
  sql.idle p = [c] ->
  c !! sql.fold (Name e) = None ->
  repository.FindByID e p id
  = (p, Err (Storage (sql.NoSuchTable (Name e)))).
Proof.
  intros Hidle Ht. rewrite (Pool_eta p) at 2.
  unfold repository.FindByID, sql.DB_QueryRow, sql.DB_Query, sql.conn.
  rewrite Hidle. unfold sql.Query. simpl. rewrite Ht. simpl.
  by rewrite Ht.
Qed.

(** [FindByID] when no connection is free. *)
Lemma FindByID_none (p : sql.Pool) (id : Z) :
  sql.idle p = [] ->
  repository.FindByID e p id
  = ({| sql.idle := [∅]; sql.busy := sql.busy p |},
     Err (Storage (sql.NoSuchTable (Name e)))).
Proof.
  intros Hidle.
  unfold repository.FindByID, sql.DB_QueryRow, sql.DB_Query, sql.conn.
  rewrite Hidle. unfold sql.Query. simpl. rewrite lookup_empty. simpl.
  unfold sql.putConn. rewrite Hidle. simpl. by rewrite lookup_empty.
Qed.

(** With at most one free connection, [FindByID] returns no record, and
    at most one connection is free after it. *)
Lemma FindByID_fails (p : sql.Pool) (id : Z) :
  (length (sql.idle p) <= 1)%nat ->
  snd (repository.FindByID e p id)
  = Err (Storage (sql.NoSuchTable (Name e)))
  /\ (length (sql.idle (fst (repository.FindByID e p id))) <= 1)%nat.
Proof.
  intros Hlen. destruct (sql.idle p) as [|c [|c' rest]] eqn:Hidle.
  - by rewrite (FindByID_none p id Hidle).
  - destruct (c !! sql.fold (Name e)) as [t|] eqn:Ht.
    + by rewrite (FindByID_serving p c t id Hidle Ht).
    + rewrite (FindByID_lost p c id Hidle Ht). simpl. by rewrite Hidle.
  - simpl in Hlen. lia.
Qed.

(** [Update] and [Delete] start with [FindByID] and return its error. *)
Lemma Update_unfold (p : sql.Pool) (id : Z) (data : gmap string Value) :
  (length (sql.idle p) <= 1)%nat ->
  repository.Update e p id data
  = (fst (repository.FindByID e p id),
     Some (Storage (sql.NoSuchTable (Name e)))).
Proof.
  intros Hlen. destruct (FindByID_fails p id Hlen) as [Herr _].
  unfold repository.Update.
  destruct (repository.FindByID e p id) as [p' res]. simpl in Herr.
  by subst res.
Qed.

Lemma Delete_unfold (p : sql.Pool) (id : Z) :
  (length (sql.idle p) <= 1)%nat ->
  repository.Delete e p id
  = (fst (repository.FindByID e p id),
     Some (Storage (sql.NoSuchTable (Name e)))).
Proof.
  intros Hlen. destruct (FindByID_fails p id Hlen) as [Herr _].
  unfold repository.Delete.
  destruct (repository.FindByID e p id) as [p' res]. simpl in Herr.
  by subst res.
Qed.

(** The methods that finish each statement before the next run on the
    free connection, and release it again. *)
Lemma CreateSchema_on_connection (p : sql.Pool) (c : sql.DB) :
  sql.idle p = [c] ->
  repository.CreateSchema e p
  = ({| sql.idle := [fst (CreateSchema e c)]; sql.busy := sql.busy p |},
     snd (CreateSchema e c)).
Proof.
  intros Hidle.
  unfold repository.CreateSchema, CreateSchema, sql.DB_Exec, sql.conn.
  rewrite Hidle.
  by destruct (sql.Exec c _ _) as [[c' n]|err].
Qed.

Lemma Create_on_connection (p : sql.Pool) (c : sql.DB)
    (data : gmap string Value) :
  sql.idle p = [c] ->
  repository.Create e p data
  = ({| sql.idle := [fst (Create e c data)]; sql.busy := sql.busy p |},
     snd (Create e c data)).
Proof.
  intros Hidle. unfold repository.Create, Create.
  destruct (Validate e data) as [|err errs].
  - destruct (declared e data) as [fields values].
    unfold sql.DB_Exec, sql.conn. rewrite Hidle.
    by destruct (sql.Exec c _ _) as [[c' n]|err].
  - simpl. rewrite <- Hidle. apply f_equal2; [apply Pool_eta|done].
Qed.

Lemma List_on_connection (p : sql.Pool) (c : sql.DB) (page pageSize : Z) :
  sql.idle p = [c] ->
  repository.List e p page pageSize = (p, List e c page pageSize).
Proof.
  intros Hidle. rewrite (Pool_eta p) at 2. rewrite Hidle.
  unfold repository.List, List, sql.QueryRow, sql.DB_QueryRow, sql.DB_Query,
    sql.conn.
  rewrite Hidle.
  destruct (sql.Query c (sql.SelectCount (Name e)) []) as [[cols vals]|err];
    simpl; [|done].
  destruct vals as [|values vals]; [done|].
  destruct (scan_int values) as [total|err]; [|done]. simpl.
  by destruct (sql.Query c (sql.SelectLimitOffset (Name e)) _)
    as [[cols' vals']|err].
Qed.
End Handle.

(** ** Reads by id, and the writes that start with one *)

(** C4 (what the code does).  Over the handle at start-up or after any
    [Create] and [List], whose one free connection has the table in
    order, [Create] of a valid, non-empty record of storable values
    inserts the row on that connection and returns the next id.  The
    [FindByID] that follows returns no record, for that id or any other:
    its first query keeps the connection, its query for the columns runs
    on a new connection, whose database is empty, and the error of that
    query, no such table, is what it returns; the connection with the
    row is left taken for good and the empty one is the free one. *)
Theorem Create_then_FindByID_fails `{sql.Affinity}
    (ParseFloat : string -> option float64) (name : string)
    (def : spec.EntityDef) (p : sql.Pool) (c : sql.DB) (t : sql.Table)
    (data : gmap string Value) :
  let e := NewEntity ParseFloat name def in
  sql.idle p = [c] ->
  c !! sql.fold name = Some t ->
  table_ok e t ->
  sql.sequence t + 1 < 2 ^ 63 ->
  Validate e data = [] ->
  data <> ∅ ->
  map_Forall (fun _ v => storable v) data ->
  exists c' row,
    repository.Create e p data
    = ({| sql.idle := [c']; sql.busy := sql.busy p |},
       Ok (sql.sequence t + 1))
    /\ c' !! sql.fold name
       = Some {| sql.columns := sql.columns t;
                 sql.rows := sql.rows t ++ [row];
                 sql.sequence := sql.sequence t + 1 |}
    /\ sql.rowid row = sql.sequence t + 1
    /\ forall id,
         repository.FindByID e {| sql.idle := [c']; sql.busy := sql.busy p |}
           id
         = ({| sql.idle := [∅]; sql.busy := sql.busy p ++ [c'] |},
            Err (Storage (sql.NoSuchTable name))).
Proof.
  intros e Hidle Ht Hok Hseq Hvalid Hne Hstorable.
  destruct (Create_succeeds ParseFloat name def c t data Ht Hok Hseq Hvalid
              Hne Hstorable) as (row & Hcreate & Hrow & _).
  fold e in Hcreate.
  assert (Name e = name) as Hname by apply NewEntity_Name.
  exists (<[sql.fold name := {| sql.columns := sql.columns t;
                               sql.rows := sql.rows t ++ [row];
                               sql.sequence := sql.sequence t + 1 |}]> c),
    row.
  split_and!.
  - rewrite (Create_on_connection e p c data Hidle).
    by rewrite Hcreate.
  - by rewrite lookup_insert_eq.
  - done.
  - intros id.
    set (c' := <[sql.fold name := _]> c).
    assert (c' !! sql.fold (Name e)
            = Some {| sql.columns := sql.columns t;
                      sql.rows := sql.rows t ++ [row];
                      sql.sequence := sql.sequence t + 1 |}) as Hc'.
    { rewrite Hname. apply lookup_insert_eq. }
    rewrite (FindByID_serving e {| sql.idle := [c']; sql.busy := sql.busy p |}
               c' _ id eq_refl Hc').
    by rewrite Hname.
Qed.

Lemma Create_then_FindByID_fails_witness :
  exists c' row,
    repository.Create (H := sqlite.sqlite_affinity) task (serving task)
      task_x_open
    = ({| sql.idle := [c']; sql.busy := [] |}, Ok 1)
    /\ c' !! "task"
       = Some {| sql.columns := sql.columns (empty_table task);
                 sql.rows := [row];
                 sql.sequence := 1 |}
    /\ sql.rowid row = 1
    /\ forall id,
         repository.FindByID task {| sql.idle := [c']; sql.busy := [] |} id
         = ({| sql.idle := [∅]; sql.busy := [c'] |},
            Err (Storage (sql.NoSuchTable "task"))).
Proof.
  apply (Create_then_FindByID_fails (H := sqlite.sqlite_affinity)
           no_ParseFloat "task" task_def (serving task) (fresh task)
           (empty_table task) task_x_open).
  - reflexivity.
  - vm_compute. reflexivity.
  - apply (bool_decide_unpack (table_ok task (empty_table task))).
    vm_compute. exact I.
  - vm_compute. reflexivity.
  - vm_compute. reflexivity.
  - intros Heq. apply (f_equal (fun m => m !! "title")) in Heq.
    vm_compute in Heq. discriminate Heq.
  - intros k v. unfold task_x_open.
    rewrite !lookup_insert_Some, lookup_empty.
    intros [[_ <-]|[_ [[_ <-]|[_ [=]]]]]; exact I.
Defined.

(** C1 (what the code does).  With at most one free connection on the
    handle, as there is whenever requests are served one at a time,
    [Update] returns the error of its first [FindByID], no such table,
    for every id and every patch: it builds no merged view, validates
    nothing and sends no UPDATE.  When the free connection has the
    table, that connection, with the row as it was, is left taken for
    good and an empty one is free; a [FindByID] after the [Update]
    returns the same error and no record. *)
Theorem Update_fails_before_merge `{sql.Affinity} (e : Entity)
    (p : sql.Pool) (id : Z) (patch : gmap string Value) :
  (length (sql.idle p) <= 1)%nat ->
  repository.Update e p id patch
  = (fst (repository.FindByID e p id),
     Some (Storage (sql.NoSuchTable (Name e))))
  /\ (forall c t,
        sql.idle p = [c] ->
        c !! sql.fold (Name e) = Some t ->
        fst (repository.Update e p id patch)
        = {| sql.idle := [∅]; sql.busy := sql.busy p ++ [c] |})
  /\ snd (repository.FindByID e (fst (repository.Update e p id patch)) id)
     = Err (Storage (sql.NoSuchTable (Name e))).
Proof.
  intros Hlen. rewrite (Update_unfold e p id patch Hlen). simpl.
  split_and!.
  - done.
  - intros c t Hidle Ht. by rewrite (FindByID_serving e p c t id Hidle Ht).
  - apply FindByID_fails. by apply FindByID_fails.
Qed.

Lemma Update_fails_before_merge_witness :
  repository.Update (H := sqlite.sqlite_affinity) task task_pool_1 1
    status_done
  = ({| sql.idle := [∅]; sql.busy := [task_db_1] |},
     Some (Storage (sql.NoSuchTable "task"))).
Proof.
  rewrite (proj1 (Update_fails_before_merge (H := sqlite.sqlite_affinity)
                    task task_pool_1 1 status_done
                    ltac:(vm_compute; lia))).
  vm_compute. reflexivity.
Defined.

(** C10 (what the code does).  With at most one free connection on the
    handle, [Update] with an empty patch returns the error of its first
    [FindByID], no such table: it validates no merged view and sends no
    statement.  When the free connection has the table, that connection
    is left taken for good with its rows as they were.  The statement
    the empty patch would make, [UPDATE <table> SET  WHERE id = ?], is
    one the engine refuses as a syntax error on every database. *)
Theorem Update_empty_patch_fails `{sql.Affinity} (e : Entity) (p : sql.Pool)
    (id : Z) :
  (length (sql.idle p) <= 1)%nat ->
  repository.Update e p id ∅
  = (fst (repository.FindByID e p id),
     Some (Storage (sql.NoSuchTable (Name e))))
  /\ (forall c t,
        sql.idle p = [c] ->
        c !! sql.fold (Name e) = Some t ->
        fst (repository.Update e p id ∅)
        = {| sql.idle := [∅]; sql.busy := sql.busy p ++ [c] |})
  /\ declared e ∅ = ([], [])
  /\ (forall db : sql.DB,
        sql.Exec db (sql.Update (Name e) []) ([] ++ [VInt64 id])
        = Err (sql.SyntaxError
                 ("UPDATE " +:+ Name e +:+ " SET  WHERE id = ?"))).
Proof.
  intros Hlen. split_and!.
  - by apply Update_unfold.
  - intros c t Hidle Ht. rewrite (Update_unfold e p id ∅ Hlen). simpl.
    by rewrite (FindByID_serving e p c t id Hidle Ht).
  - unfold declared. by rewrite map_to_list_empty.
  - done.
Qed.

Lemma Update_empty_patch_fails_witness :
  repository.Update (H := sqlite.sqlite_affinity) task task_pool_1 1 ∅
  = ({| sql.idle := [∅]; sql.busy := [task_db_1] |},
     Some (Storage (sql.NoSuchTable "task"))).
Proof.
  rewrite (proj1 (Update_empty_patch_fails (H := sqlite.sqlite_affinity)
                    task task_pool_1 1 ltac:(vm_compute; lia))).
  vm_compute. reflexivity.
Defined.

(** ** Pages *)

(** [List] reads the count and the page from the entity's table. *)
Lemma List_unfold (e : Entity) (db : sql.DB) (t : sql.Table)
    (page pageSize : Z) :
  db !! sql.fold (Name e) = Some t ->
  List e db page pageSize
  = Ok (record_of t
          <$> take (Z.to_nat (if pageSize <? 1 then 10 else pageSize))
                (drop (Z.to_nat
                         (wrap64 (((if page <? 1 then 1 else page) - 1)
                                  * (if pageSize <? 1 then 10 else pageSize))))
                   (sql.rows t)),
        Z.of_nat (length (sql.rows t))).
Proof.
  intros Ht. unfold List, sql.QueryRow, sql.Query. simpl.
  rewrite Ht. simpl. unfold sql.limit_offset.
  assert (((if pageSize <? 1 then 10 else pageSize) <? 0) = false) as ->.
  { destruct (Z.ltb_spec pageSize 1); lia. }
  unfold record_of. by rewrite map_map.
Qed.

Lemma elem_of_page {A} (n m : nat) (l : list A) (x : A) :
  x ∈ take n (drop m l) -> x ∈ l.
Proof.
  intros Hx. eapply (subseteq_drop m). by eapply (subseteq_take n).
Qed.

Lemma sublist_page {A} (n m : nat) (l : list A) :
  take n (drop m l) `sublist_of` l.
Proof.
  etransitivity; [apply sublist_take|apply sublist_drop].
Qed.

(** X6.  For a page and a page size of at least 1 whose offset fits an
    [int], the page holds the records left after the offset, at most
    [pageSize] of them: none when the offset is at or past the total. *)
Theorem List_page_length (e : Entity) (db : sql.DB) (page pageSize : Z)
    (records : list (gmap string Value)) (total : Z) :
  1 <= page -> 1 <= pageSize -> (page - 1) * pageSize < 2 ^ 63 ->
  List e db page pageSize = Ok (records, total) ->
  0 <= total
  /\ Z.of_nat (length records)
     = Z.min pageSize (Z.max 0 (total - (page - 1) * pageSize)).
Proof.
  intros Hpage Hsize Hfit. unfold List, sql.QueryRow, sql.Query. simpl.
  destruct (db !! sql.fold (Name e)) as [t|] eqn:Ht; [|done]. simpl.
  destruct (Z.ltb_spec page 1); [lia|].
  destruct (Z.ltb_spec pageSize 1); [lia|].
  assert (wrap64 ((page - 1) * pageSize) = (page - 1) * pageSize) as ->.
  { unfold wrap64. rewrite Z.mod_small; nia. }
  unfold sql.limit_offset. destruct (Z.ltb_spec pageSize 0); [lia|].
  intros [= <- <-]. split; [lia|].
  rewrite !length_map, length_take, length_drop. nia.
Qed.

Lemma List_page_length_witness :
  0 <= 1
  /\ Z.of_nat (length [task_record_1])
     = Z.min 10 (Z.max 0 (1 - (1 - 1) * 10)).
Proof.
  apply (List_page_length task task_db_1 1 10 [task_record_1] 1);
    [lia|lia|reflexivity|reflexivity].
Defined.

(** X7.  The total [List] reports counts the records: it is one more
    after a [Create] that succeeds. *)
Theorem List_total_counts `{sql.Affinity} (e : Entity) (db : sql.DB)
    (page pageSize : Z) (records : list (gmap string Value)) (total : Z) :
  db_ok e db ->
  List e db page pageSize = Ok (records, total) ->
  forall data db' id,
    Create e db data = (db', Ok id) ->
    exists records', List e db' page pageSize = Ok (records', total + 1).
Proof.
  unfold db_ok. destruct (db !! sql.fold (Name e)) as [t|] eqn:Ht; [|done].
  intros [Hschema (_ & Hnd & _)].
  rewrite (List_unfold e db t page pageSize Ht). intros [= _ <-].
  intros data db' id Hcreate.
  destruct (Create_inv e db db' data id Hcreate)
    as (_ & _ & t' & args & l & Ht' & _ & _ & _ & _ & _ & ->).
  rewrite Ht in Ht'. injection Ht' as <-.
  eexists. erewrite List_unfold; [|by rewrite lookup_insert_eq].
  simpl. rewrite length_app. simpl. do 2 f_equal. lia.
Qed.

Lemma List_total_counts_witness :
  exists records', List task task_db_1 1 10 = Ok (records', 0 + 1).
Proof.
  apply (List_total_counts (H := sqlite.sqlite_affinity) task (fresh task)
           1 10 [] 0
           ltac:(apply (bool_decide_unpack (db_ok task (fresh task)));
                 vm_compute; exact I)
           eq_refl task_x_open task_db_1 1).
  vm_compute. reflexivity.
Defined.

(** X16.  Over a table in order, every record of a page of [List] has
    the id of its row under ["id"] and, besides that key, exactly one
    key per declared field; and no id occurs twice in a page. *)
Theorem List_record_keys (e : Entity) (db : sql.DB) (page pageSize : Z)
    (records : list (gmap string Value)) (total : Z) :
  db_ok e db ->
  List e db page pageSize = Ok (records, total) ->
  (forall r, r ∈ records ->
     (exists id, r !! "id" = Some (VInt64 id))
     /\ forall k, is_Some (r !! k) <-> k = "id" \/ is_Some (Fields e !! k))
  /\ NoDup ((fun r : gmap string Value => r !! "id") <$> records).
Proof.
  unfold db_ok. destruct (db !! sql.fold (Name e)) as [t|] eqn:Ht; [|done].
  intros [Hschema (_ & Hnd & _)].
  rewrite (List_unfold e db t page pageSize Ht). intros [= <- _]. split.
  - intros r Hr. apply list_elem_of_fmap in Hr as (row & -> & Hrow).
    split.
    + exists (sql.rowid row). apply (record_of_id e t Hschema).
    + intros k. destruct (decide (k = "id")) as [->|Hk].
      * rewrite (record_of_id e t Hschema). split; [by left|by eauto].
      * destruct (Fields e !! k) as [field|] eqn:Hfield.
        -- rewrite (record_of_declared e t Hschema row k field Hfield).
           split; [by right; eauto|by eauto].
        -- rewrite (record_of_undeclared e t Hschema row k Hk Hfield).
           split; [by intros [? ?]|]. intros [?|[? ?]]; done.
  - rewrite <- list_fmap_compose.
    rewrite (list_fmap_ext _ (fun row => Some (VInt64 (sql.rowid row)))).
    2:{ intros i row _. apply (record_of_id e t Hschema). }
    rewrite (list_fmap_compose sql.rowid (fun id => Some (VInt64 id))).
    apply NoDup_fmap_2; [by intros x y [= ->]|].
    eapply sublist_NoDup; [done|].
    rewrite fmap_take, fmap_drop. apply sublist_page.
Qed.

Lemma List_record_keys_witness :
  (exists id, task_record_1 !! "id" = Some (VInt64 id))
  /\ (is_Some (task_record_1 !! "title")
      <-> "title" = "id" \/ is_Some (Fields task !! "title")).
Proof.
  destruct (proj1 (List_record_keys task task_db_1 1 10 [task_record_1] 1
                     ltac:(apply (bool_decide_unpack (db_ok task task_db_1));
                           vm_compute; exact I)
                     ltac:(vm_compute; reflexivity))
              task_record_1) as [Hid Hkeys].
  - apply list_elem_of_singleton. reflexivity.
  - split; [exact Hid|exact (Hkeys "title")].
Defined.

Lemma scan_not_nil (decltype : string) (v : sql.SqlValue) :
  v <> sql.SNull -> convert (sql.scan decltype v) <> VNil.
Proof.
  destruct v; try done. simpl.
  by destruct (String.eqb decltype "BOOLEAN").
Qed.

(** X25.  Over a table in order, a record that [List] returns has a
    value other than [nil] for every required field. *)
Theorem required_fields_are_read_back (e : Entity) (db : sql.DB)
    (f : string) (field : Field) :
  db_ok e db ->
  Fields e !! f = Some field -> Field_Required field = true ->
  forall page pageSize records total r,
    List e db page pageSize = Ok (records, total) -> r ∈ records ->
    exists v, r !! f = Some v /\ v <> VNil.
Proof.
  unfold db_ok. destruct (db !! sql.fold (Name e)) as [t|] eqn:Ht; [|done].
  intros [Hschema (_ & _ & Hnn)] Hfield Hrequired.
  assert (forall row, row ∈ sql.rows t ->
            exists v, record_of t row !! f = Some v /\ v <> VNil) as Hrow.
  { intros row Hin.
    rewrite (record_of_declared e t Hschema row f field Hfield).
    eexists. split; [done|]. apply scan_not_nil.
    rewrite Forall_forall in Hnn. specialize (Hnn row Hin).
    rewrite null_violation_None in Hnn.
    destruct (find_column_declared e (sql.columns t) Hschema f field Hfield)
      as (c & Hc & Hname & _ & Hnotnull).
    apply find_column_Some in Hc as [Hc _].
    specialize (Hnn c Hc). rewrite Hname in Hnn. apply Hnn. congruence. }
  intros page pageSize records total r.
  rewrite (List_unfold e db t page pageSize Ht). intros [= <- _] Hr.
  apply list_elem_of_fmap in Hr as (row & -> & Hin).
  apply Hrow. by apply elem_of_page in Hin.
Qed.

Lemma required_fields_are_read_back_witness :
  exists v, task_record_1 !! "title" = Some v /\ v <> VNil.
Proof.
  apply (required_fields_are_read_back task task_db_1 "title"
           {| Field_Name := ""; Field_Type := "string";
              Field_Required := true; Field_Variants := [] |}
           ltac:(apply (bool_decide_unpack (db_ok task task_db_1));
                 vm_compute; exact I)
           eq_refl eq_refl 1 10 [task_record_1] 1 task_record_1).
  - vm_compute. reflexivity.
  - apply list_elem_of_singleton. reflexivity.
Defined.

(** ** Start-up *)








Section Startup.
Context `{sql.Affinity}.
Variable ParseFloat : string -> option float64.
Variable sql_message : sql.Error -> string.





End Startup.



(** ** The checks of each field type *)

(** [slices.Contains] decides membership. *)
Lemma Contains_elem_of (l : list string) (s : string) :
  Contains l s = true <-> s ∈ l.
Proof.
  unfold Contains. rewrite existsb_exists. split.
  - intros (x & Hx & Heq). apply String.eqb_eq in Heq as ->.
    by apply list_elem_of_In.
  - intros Hs. exists s. split; [by apply list_elem_of_In|].
    apply String.eqb_refl.
Qed.

Section TypeChecks.
Variable ParseFloat : string -> option float64.
Variable name : string.
Variable def : spec.EntityDef.
Variable f : string.
Variable fd : spec.FieldDef.
Hypothesis Hfd : spec.Fields def !! f = Some fd.

(** An error that names [f] other than the unknown-field error comes
    from the chain of [f]. *)
Lemma Validate_field_error (record : gmap string Value) (err : Error) :
  (forall k, err <> UnknownField k) ->
  (forall f' fd' validator value,
     validator ∈ field_validations ParseFloat f' fd' ->
     validator value = Some err -> f' = f) ->
  err ∈ Validate (NewEntity ParseFloat name def) record
  <-> exists validator,
        validator ∈ field_validations ParseFloat f fd
        /\ validator (default VNil (record !! f)) = Some err.
Proof.
  intros Hknown Hname. rewrite elem_of_Validate. split.
  - intros [(k & _ & _ & ->)|(f' & fd' & validator & Hfd' & Hin & Herr)].
    { by destruct (Hknown k). }
    pose proof (Hname f' fd' validator _ Hin Herr) as ->.
    rewrite Hfd in Hfd'. injection Hfd' as <-. by exists validator.
  - intros (validator & Hin & Herr). right. by exists f, fd, validator.
Qed.

Lemma elem_of_field_validations (validator : FieldValidator) (f' : string)
    (fd' : spec.FieldDef) :
  validator ∈ field_validations ParseFloat f' fd' ->
  validator = required_validator f'
  \/ validator = string_validator f' /\ spec.Type_ fd' = "string"
  \/ validator = int_validator f' /\ spec.Type_ fd' = "int"
  \/ validator = double_validator ParseFloat f' /\ spec.Type_ fd' = "double"
  \/ validator = enum_validator f' (spec.Variants fd')
     /\ spec.Type_ fd' = "enum".
Proof.
  unfold field_validations, type_validations. intros Hin.
  apply elem_of_app in Hin as [Hin|Hin].
  { destruct (spec.Required fd'); [|by inversion Hin].
    apply list_elem_of_singleton in Hin. by left. }
  right.
  destruct (String.eqb_spec (spec.Type_ fd') "string") as [Hty|_].
  { apply list_elem_of_singleton in Hin. by left. }
  destruct (String.eqb_spec (spec.Type_ fd') "int") as [Hty|_].
  { apply list_elem_of_singleton in Hin. by right; left. }
  destruct (String.eqb_spec (spec.Type_ fd') "double") as [Hty|_].
  { apply list_elem_of_singleton in Hin. by right; right; left. }
  destruct (String.eqb_spec (spec.Type_ fd') "enum") as [Hty|_].
  { apply list_elem_of_singleton in Hin. by right; right; right. }
  by inversion Hin.
Qed.

(** What each validator can report. *)
Lemma validator_error (validator : FieldValidator) (f' : string)
    (fd' : spec.FieldDef) (value : Value) (err : Error) :
  validator ∈ field_validations ParseFloat f' fd' ->
  validator value = Some err ->
  (err = FieldRequired f' /\ validator = required_validator f')
  \/ (err = MustBeString f' /\ validator = string_validator f')
  \/ (err = MustBeNumber f'
      /\ (validator = int_validator f' /\ spec.Type_ fd' = "int"
          \/ validator = double_validator ParseFloat f'
             /\ spec.Type_ fd' = "double"))
  \/ (err = MustBeInteger f' /\ validator = int_validator f')
  \/ (err = MustBeEnumString f'
      /\ validator = enum_validator f' (spec.Variants fd'))
  \/ (err = MustBeOneOf f' (spec.Variants fd')
      /\ validator = enum_validator f' (spec.Variants fd')).
Proof.
  intros Hin Herr.
  destruct (elem_of_field_validations _ _ _ Hin)
    as [->|[[-> Hty]|[[-> Hty]|[[-> Hty]|[-> Hty]]]]].
  - left. split; [|done]. unfold required_validator in Herr.
    destruct value; try done; [congruence|].
    destruct (TrimSpace_empty s); congruence.
  - right; left. split; [|done]. unfold string_validator in Herr.
    destruct value; congruence.
  - unfold int_validator in Herr. destruct value; try done;
      try (right; right; right; left; split; [congruence|done]).
    destruct (snd (ParseInt s)); [|done].
    right; right; left. split; [congruence|by left].
  - right; right; left. unfold double_validator in Herr.
    destruct value; try done; try (split; [congruence|by right]).
    destruct (ParseFloat s); [done|]. split; [congruence|by right].
  - unfold enum_validator in Herr. destruct value; try done;
      try (right; right; right; right; left; split; [congruence|done]).
    destruct (Contains (spec.Variants fd') s); [done|].
    right; right; right; right; right. split; [congruence|done].
Qed.
End TypeChecks.

Ltac validator_name Hin Herr :=
  let H := fresh in
  pose proof (validator_error _ _ _ _ _ _ Hin Herr) as H;
  destruct H as [[? ?]|[[? ?]|[[? ?]|[[? ?]|[[? ?]|[? ?]]]]]]; congruence.

Lemma default_nil_inv (record : gmap string Value) (f : string) (v : Value) :
  v <> VNil -> default VNil (record !! f) = v -> record !! f = Some v.
Proof. destruct (record !! f); simpl; congruence. Qed.

(** X10.  For an [enum] field, "must be one of" is reported exactly when
    the record gives the field a string that is not one of the declared
    variants (compared as they are written), and "must be a string for
    enum type" exactly when it gives a value that is neither [nil] nor a
    string. *)
Theorem enum_validation (ParseFloat : string -> option float64)
    (name : string) (def : spec.EntityDef) (f : string) (fd : spec.FieldDef)
    (record : gmap string Value) :
  spec.Fields def !! f = Some fd -> spec.Type_ fd = "enum" ->
  let e := NewEntity ParseFloat name def in
  (MustBeOneOf f (spec.Variants fd) ∈ Validate e record
   <-> exists s, record !! f = Some (VString s) /\ s ∉ spec.Variants fd)
  /\ (MustBeEnumString f ∈ Validate e record
      <-> exists v, record !! f = Some v /\ v <> VNil
                    /\ forall s, v <> VString s).
Proof.
  intros Hfd Hty e.
  assert (enum_validator f (spec.Variants fd)
          ∈ field_validations ParseFloat f fd) as Henum.
  { unfold field_validations, type_validations. rewrite Hty. simpl.
    apply elem_of_app. right. by apply list_elem_of_singleton. }
  split.
  - unfold e. rewrite (Validate_field_error ParseFloat name def f fd Hfd);
      [|done|by intros f' fd' validator value Hin Herr;
               validator_name Hin Herr].
    split.
    + intros (validator & Hin & Herr).
      destruct (validator_error _ _ _ _ _ _ Hin Herr)
        as [[? ?]|[[? ?]|[[? ?]|[[? ?]|[[? ?]|[_ ->]]]]]]; try done.
      unfold enum_validator in Herr.
      destruct (default VNil (record !! f)) as [|s| | | | | |] eqn:Hv;
        try done.
      destruct (Contains (spec.Variants fd) s) eqn:Hc; [done|].
      exists s. split; [by apply default_nil_inv|].
      rewrite <- Contains_elem_of. by rewrite Hc.
    + intros (s & Hs & Hnotin). exists (enum_validator f (spec.Variants fd)).
      split; [done|]. rewrite Hs. simpl.
      destruct (Contains (spec.Variants fd) s) eqn:Hc; [|done].
      by apply Contains_elem_of in Hc.
  - unfold e. rewrite (Validate_field_error ParseFloat name def f fd Hfd);
      [|done|by intros f' fd' validator value Hin Herr;
               validator_name Hin Herr].
    split.
    + intros (validator & Hin & Herr).
      destruct (validator_error _ _ _ _ _ _ Hin Herr)
        as [[? ?]|[[? ?]|[[? ?]|[[? ?]|[[_ ->]|[? ?]]]]]]; try done.
      unfold enum_validator in Herr.
      destruct (default VNil (record !! f)) as [|s| | | | | |] eqn:Hv;
        try done;
        try (eexists; split;
             [apply default_nil_inv; [|exact Hv]; done|by split]).
      by destruct (Contains (spec.Variants fd) s).
    + intros (v & Hv & Hnil & Hstr).
      exists (enum_validator f (spec.Variants fd)).
      split; [done|]. rewrite Hv. simpl.
      destruct v; try done. by destruct (Hstr s).
Qed.

Lemma enum_validation_witness :
  MustBeOneOf "status" ["open"; "done"]
  ∈ Validate task (<["status" := VString "Open"]> ∅).
Proof.
  apply (proj1 (enum_validation no_ParseFloat "task" task_def "status"
                  (field "enum" true ["open"; "done"])
                  (<["status" := VString "Open"]> ∅) eq_refl eq_refl)).
  exists "Open". split; [reflexivity|].
  apply (bool_decide_unpack ("Open" ∉ ["open"; "done"])).
  vm_compute. exact I.
Defined.

(** X11.  For an [int] field, "must be an integer" is reported exactly
    when the record gives the field a value that is not [nil], an [int],
    an [int64] or a string (so for every [float64], the type of a decoded
    JSON number), and "must be a number" exactly when it gives a string
    that [strconv.ParseInt] refuses. *)
Theorem int_validation (ParseFloat : string -> option float64)
    (name : string) (def : spec.EntityDef) (f : string) (fd : spec.FieldDef)
    (record : gmap string Value) :
  spec.Fields def !! f = Some fd -> spec.Type_ fd = "int" ->
  let e := NewEntity ParseFloat name def in
  (MustBeInteger f ∈ Validate e record
   <-> exists v, record !! f = Some v
                 /\ match v with
                    | VNil | VInt _ | VInt64 _ | VString _ => False
                    | _ => True
                    end)
  /\ (MustBeNumber f ∈ Validate e record
      <-> exists s, record !! f = Some (VString s)
                    /\ is_Some (snd (ParseInt s)))
  /\ (forall x, record !! f = Some (VFloat64 x) ->
        MustBeInteger f ∈ Validate e record).
Proof.
  intros Hfd Hty e.
  assert (int_validator f ∈ field_validations ParseFloat f fd) as Hint.
  { unfold field_validations, type_validations. rewrite Hty. simpl.
    apply elem_of_app. right. by apply list_elem_of_singleton. }
  assert (MustBeInteger f ∈ Validate e record
          <-> exists v, record !! f = Some v
                        /\ match v with
                           | VNil | VInt _ | VInt64 _ | VString _ => False
                           | _ => True
                           end) as Hinteger.
  { unfold e. rewrite (Validate_field_error ParseFloat name def f fd Hfd);
      [|done|by intros f' fd' validator value Hin Herr;
               validator_name Hin Herr].
    split.
    - intros (validator & Hin & Herr).
      destruct (validator_error _ _ _ _ _ _ Hin Herr)
        as [[? ?]|[[? ?]|[[? ?]|[[_ ->]|[[? ?]|[? ?]]]]]]; try done.
      unfold int_validator in Herr.
      destruct (default VNil (record !! f)) as [|s| | | | | |] eqn:Hv;
        try done;
        try (eexists; split;
             [apply default_nil_inv; [|exact Hv]; done|done]).
      by destruct (snd (ParseInt s)).
    - intros (v & Hv & Hkind). exists (int_validator f).
      split; [done|]. rewrite Hv. simpl. by destruct v. }
  split_and!.
  - done.
  - unfold e. rewrite (Validate_field_error ParseFloat name def f fd Hfd);
      [|done|by intros f' fd' validator value Hin Herr;
               validator_name Hin Herr].
    split.
    + intros (validator & Hin & Herr).
      destruct (validator_error _ _ _ _ _ _ Hin Herr)
        as [[? ?]|[[? ?]|[[_ [[-> _]|[_ Hty']]]|[[? ?]|[[? ?]|[? ?]]]]]];
        try done; [|congruence].
      unfold int_validator in Herr.
      destruct (default VNil (record !! f)) as [|s| | | | | |] eqn:Hv;
        try done.
      exists s. split; [by apply default_nil_inv|].
      by destruct (snd (ParseInt s)).
    + intros (s & Hs & [err Herr]). exists (int_validator f).
      split; [done|]. rewrite Hs. simpl. by rewrite Herr.
  - intros x Hx. apply Hinteger. by exists (VFloat64 x).
Qed.

Lemma int_validation_witness :
  MustBeInteger "qty"
  ∈ Validate item (<["qty" := VFloat64 (Float64frombits 0)]> ∅).
Proof.
  apply (proj2 (proj2 (int_validation no_ParseFloat "item" item_def "qty"
                         (field "int" false [])
                         (<["qty" := VFloat64 (Float64frombits 0)]> ∅)
                         eq_refl eq_refl)) (Float64frombits 0)).
  reflexivity.
Defined.

(** No check of a type reports a missing value. *)
Lemma type_validations_nil (ParseFloat : string -> option float64)
    (f : string) (fd : spec.FieldDef) (validator : FieldValidator) :
  validator ∈ type_validations ParseFloat f fd -> validator VNil = None.
Proof.
  unfold type_validations. intros Hin.
  destruct (String.eqb (spec.Type_ fd) "string").
  { by apply list_elem_of_singleton in Hin as ->. }
  destruct (String.eqb (spec.Type_ fd) "int").
  { by apply list_elem_of_singleton in Hin as ->. }
  destruct (String.eqb (spec.Type_ fd) "double").
  { by apply list_elem_of_singleton in Hin as ->. }
  destruct (String.eqb (spec.Type_ fd) "enum").
  { by apply list_elem_of_singleton in Hin as ->. }
  by inversion Hin.
Qed.

Lemma type_validations_not_required (ParseFloat : string -> option float64)
    (f r : string) (fd : spec.FieldDef) (validator : FieldValidator)
    (value : Value) :
  validator ∈ type_validations ParseFloat f fd ->
  validator value <> Some (FieldRequired r).
Proof.
  unfold type_validations. intros Hin.
  destruct (String.eqb (spec.Type_ fd) "string").
  { apply list_elem_of_singleton in Hin as ->. by destruct value. }
  destruct (String.eqb (spec.Type_ fd) "int").
  { apply list_elem_of_singleton in Hin as ->. destruct value; try done.
    simpl. by destruct (snd (ParseInt s)). }
  destruct (String.eqb (spec.Type_ fd) "double").
  { apply list_elem_of_singleton in Hin as ->. destruct value; try done.
    simpl. by destruct (ParseFloat s). }
  destruct (String.eqb (spec.Type_ fd) "enum").
  { apply list_elem_of_singleton in Hin as ->. destruct value; try done.
    simpl. by destruct (Contains (spec.Variants fd) s). }
  by inversion Hin.
Qed.

(** When a value fails the required check. *)
Lemma required_validator_Some (f : string) (record : gmap string Value) :
  required_validator f (default VNil (record !! f)) = Some (FieldRequired f)
  <-> record !! f = None \/ record !! f = Some VNil
      \/ exists s, record !! f = Some (VString s) /\ TrimSpace_empty s = true.
Proof.
  unfold required_validator. destruct (record !! f) as [v|]; simpl.
  2:{ split; [by left|done]. }
  destruct v; try (split; [done|]; by intros [?|[?|(? & ? & ?)]]).
  - split; [by right; left|done].
  - destruct (TrimSpace_empty s) eqn:Hs.
    + split; [|done]. intros _. right; right. by exists s.
    + split; [done|]. intros [?|[?|(s' & [= <-] & ?)]]; congruence.
Qed.

(** X12.  "field f is required" is reported exactly when [f] is a
    declared field marked required and the record has no value for it,
    has [nil], or has a string of white space only.  So the empty record
    is valid exactly when no field is required. *)
Theorem required_validation (ParseFloat : string -> option float64)
    (name : string) (def : spec.EntityDef) (record : gmap string Value) :
  let e := NewEntity ParseFloat name def in
  (forall f,
     FieldRequired f ∈ Validate e record
     <-> exists fd,
           spec.Fields def !! f = Some fd /\ spec.Required fd = true
           /\ (record !! f = None \/ record !! f = Some VNil
               \/ exists s, record !! f = Some (VString s)
                            /\ TrimSpace_empty s = true))
  /\ (Validate e ∅ = []
      <-> forall f fd, spec.Fields def !! f = Some fd ->
                       spec.Required fd = false).
Proof.
  intros e.
  assert (forall record f,
            FieldRequired f ∈ Validate e record
            <-> exists fd,
                  spec.Fields def !! f = Some fd /\ spec.Required fd = true
                  /\ required_validator f (default VNil (record !! f))
                     = Some (FieldRequired f)) as Hreq.
  { intros record' f. unfold e. rewrite elem_of_Validate. split.
    - intros [(k & _ & _ & [=])|(f' & fd & validator & Hfd & Hin & Herr)].
      destruct (field_validations_required _ _ _ _ _ _ Hin Herr)
        as [-> Hrequired].
      exists fd. split; [done|]. split; [|done].
      unfold field_validations in Hin. apply elem_of_app in Hin as [Hin|Hin].
      + destruct (spec.Required fd); [done|by inversion Hin].
      + by destruct (type_validations_not_required _ _ _ _ _ _ Hin Herr).
    - intros (fd & Hfd & Hrequired & Herr). right.
      exists f, fd, (required_validator f). split; [done|]. split; [|done].
      unfold field_validations. rewrite Hrequired.
      apply elem_of_app. left. by apply list_elem_of_singleton. }
  split.
  - intros f. rewrite Hreq. by setoid_rewrite required_validator_Some.
  - split.
    + intros Hvalid f fd Hfd.
      destruct (spec.Required fd) eqn:Hrequired; [|done].
      assert (FieldRequired f ∈ Validate e ∅) as Hin.
      { apply Hreq. exists fd. split; [done|]. split; [done|].
        by rewrite lookup_empty. }
      rewrite Hvalid in Hin. by inversion Hin.
    + intros Hnone. apply elem_of_nil_inv. intros err. unfold e.
      rewrite elem_of_Validate.
      intros [(k & [v Hv] & _)|(f & fd & validator & Hfd & Hin & Herr)].
      { by rewrite lookup_empty in Hv. }
      rewrite lookup_empty in Herr. simpl in Herr.
      unfold field_validations in Hin. rewrite (Hnone f fd Hfd) in Hin.
      simpl in Hin. apply type_validations_nil in Hin. congruence.
Qed.

(** A key that is not a declared field is reported. *)
Lemma Validate_unknown (e : Entity) (data : gmap string Value) (k : string) :
  is_Some (data !! k) -> Fields e !! k = None ->
  UnknownField k ∈ Validate e data.
Proof.
  intros [v Hv] Hk. rewrite Validate_unfold. apply elem_of_app. left.
  apply list_elem_of_bind. exists (k, v).
  split; [|by apply elem_of_map_to_list]. simpl. rewrite Hk.
  by apply list_elem_of_singleton.
Qed.

(** X27.  For a [string] field, "must be a string" is reported exactly
    when the record gives the field a value that is neither [nil] nor a
    string; no other check of the type exists, so any string passes,
    the empty one too unless the field is required. *)
Theorem string_validation (ParseFloat : string -> option float64)
    (name : string) (def : spec.EntityDef) (f : string) (fd : spec.FieldDef)
    (record : gmap string Value) :
  spec.Fields def !! f = Some fd -> spec.Type_ fd = "string" ->
  let e := NewEntity ParseFloat name def in
  (MustBeString f ∈ Validate e record
   <-> exists v, record !! f = Some v /\ v <> VNil
                 /\ forall s, v <> VString s)
  /\ (forall s err,
        record !! f = Some (VString s) ->
        err ∈ chain_errors (field_validations ParseFloat f fd) (VString s) ->
        err = FieldRequired f /\ spec.Required fd = true
        /\ TrimSpace_empty s = true).
Proof.
  intros Hfd Hty e.
  assert (field_validations ParseFloat f fd
          = (if spec.Required fd then [required_validator f] else [])
            ++ [string_validator f]) as Hchain.
  { unfold field_validations, type_validations. by rewrite Hty. }
  split.
  - unfold e. rewrite (Validate_field_error ParseFloat name def f fd Hfd);
      [|done|by intros f' fd' validator value Hin Herr;
               validator_name Hin Herr].
    split.
    + intros (validator & Hin & Herr).
      destruct (validator_error _ _ _ _ _ _ Hin Herr)
        as [[? ?]|[[_ ->]|[[? ?]|[[? ?]|[[? ?]|[? ?]]]]]]; try done.
      unfold string_validator in Herr.
      destruct (default VNil (record !! f)) as [|s| | | | | |] eqn:Hv;
        try done;
        try (eexists; split;
             [apply default_nil_inv; [|exact Hv]; done|by split]).
    + intros (v & Hv & Hnil & Hstr). exists (string_validator f). split.
      * rewrite Hchain. apply elem_of_app. right.
        by apply list_elem_of_singleton.
      * rewrite Hv. simpl. destruct v; try done. by destruct (Hstr s).
  - intros s err _. rewrite Hchain. unfold chain_errors.
    rewrite list_elem_of_omap. intros (validator & Hin & Herr).
    apply elem_of_app in Hin as [Hin|Hin].
    + destruct (spec.Required fd); [|by inversion Hin].
      apply list_elem_of_singleton in Hin as ->. simpl in Herr.
      destruct (TrimSpace_empty s); [|done]. by injection Herr as <-.
    + by apply list_elem_of_singleton in Hin as ->.
Qed.

Lemma string_validation_witness :
  MustBeString "title"
  ∈ Validate task (<["title" := VBool true]> ∅).
Proof.
  apply (proj1 (string_validation no_ParseFloat "task" task_def "title"
                  (field "string" true []) (<["title" := VBool true]> ∅)
                  eq_refl eq_refl)).
  exists (VBool true). split; [reflexivity|]. split; discriminate.
Defined.

(** X28.  For a [double] field, "must be a number" is reported exactly
    when the record gives the field a string that [strconv.ParseFloat]
    refuses, or a value that is not [nil], a [float64] or a string: an
    [int] or an [int64] is refused too. *)
Theorem double_validation (ParseFloat : string -> option float64)
    (name : string) (def : spec.EntityDef) (f : string) (fd : spec.FieldDef)
    (record : gmap string Value) :
  spec.Fields def !! f = Some fd -> spec.Type_ fd = "double" ->
  let e := NewEntity ParseFloat name def in
  (MustBeNumber f ∈ Validate e record
   <-> exists v, record !! f = Some v
                 /\ match v with
                    | VNil | VFloat64 _ => False
                    | VString s => ParseFloat s = None
                    | _ => True
                    end)
  /\ (forall n, record !! f = Some (VInt64 n) ->
        MustBeNumber f ∈ Validate e record).
Proof.
  intros Hfd Hty e.
  assert (double_validator ParseFloat f ∈ field_validations ParseFloat f fd)
    as Hdouble.
  { unfold field_validations, type_validations. rewrite Hty. simpl.
    apply elem_of_app. right. by apply list_elem_of_singleton. }
  assert (MustBeNumber f ∈ Validate e record
          <-> exists v, record !! f = Some v
                        /\ match v with
                           | VNil | VFloat64 _ => False
                           | VString s => ParseFloat s = None
                           | _ => True
                           end) as Hnumber.
  { unfold e. rewrite (Validate_field_error ParseFloat name def f fd Hfd);
      [|done|by intros f' fd' validator value Hin Herr;
               validator_name Hin Herr].
    split.
    - intros (validator & Hin & Herr).
      destruct (validator_error _ _ _ _ _ _ Hin Herr)
        as [[? ?]|[[? ?]|[[_ [[_ Hty']|[-> _]]]|[[? ?]|[[? ?]|[? ?]]]]]];
        try done; [congruence|].
      unfold double_validator in Herr.
      destruct (default VNil (record !! f)) as [|s| | | | | |] eqn:Hv;
        try done;
        try (eexists; split;
             [apply default_nil_inv; [|exact Hv]; done|done]).
      exists (VString s). split; [by apply default_nil_inv|].
      by destruct (ParseFloat s).
    - intros (v & Hv & Hkind). exists (double_validator ParseFloat f).
      split; [done|]. rewrite Hv. unfold double_validator. simpl.
      destruct v; try done. by rewrite Hkind. }
  split; [done|]. intros n Hn. apply Hnumber. by exists (VInt64 n).
Qed.

Lemma double_validation_witness :
  MustBeNumber "price" ∈ Validate product price_3.
Proof.
  apply (proj2 (double_validation no_ParseFloat "product" product_def
                  "price" (field "double" false []) price_3
                  eq_refl eq_refl) 3).
  reflexivity.
Defined.

(** X13.  The id of a record cannot be chosen: over a table in order, a
    [Create] whose data has the key ["id"] fails validation with
    "unknown field: id" among the errors, and writes nothing. *)
Theorem id_not_writable `{sql.Affinity} (e : Entity) (db : sql.DB)
    (data : gmap string Value) :
  db_ok e db -> is_Some (data !! "id") ->
  exists errs, Create e db data = (db, Err (ValidationFailed errs))
               /\ UnknownField "id" ∈ errs.
Proof.
  unfold db_ok. destruct (db !! sql.fold (Name e)) as [t|] eqn:Ht; [|done].
  intros [Hschema _] Hdata.
  pose proof (id_not_declared e (sql.columns t) Hschema) as Hid.
  pose proof (Validate_unknown e data "id" Hdata Hid) as Hin.
  exists (Validate e data). split; [|done]. apply Create_invalid.
  intros Hnil. rewrite Hnil in Hin. by inversion Hin.
Qed.

Lemma id_not_writable_witness :
  exists errs,
    Create (H := sqlite.sqlite_affinity) task task_db_1
      (<["id" := VInt64 7]> task_x_open)
    = (task_db_1, Err (ValidationFailed errs))
    /\ UnknownField "id" ∈ errs.
Proof.
  apply (id_not_writable (H := sqlite.sqlite_affinity) task task_db_1
           (<["id" := VInt64 7]> task_x_open)
           ltac:(apply (bool_decide_unpack (db_ok task task_db_1));
                 vm_compute; exact I)
           ltac:(eexists; reflexivity)).
Defined.

(** ** The registry and the options *)

(** X22.  After [RegisterEntity], [GetEntity] of the registered name
    returns the entity that was returned at registration, compiled from
    the latest definition given for the name; every other name answers
    as before, and a name never registered gives "entity %s not
    found". *)
Theorem RegisterEntity_GetEntity (ParseFloat : string -> option float64)
    (r : registry.EntityRegistry) (name name' : string)
    (def : spec.EntityDef) :
  let (r', entity) := registry.RegisterEntity ParseFloat r name def in
  entity = NewEntity ParseFloat name def
  /\ registry.GetEntity r' name = Ok entity
  /\ (name' <> name -> registry.GetEntity r' name' = registry.GetEntity r name')
  /\ (forall def',
        registry.GetEntity
          (fst (registry.RegisterEntity ParseFloat r' name def')) name
        = Ok (NewEntity ParseFloat name def'))
  /\ registry.GetEntity registry.NewEntityRegistry name'
     = Err ("entity " +:+ name' +:+ " not found").
Proof.
  unfold registry.RegisterEntity, registry.GetEntity. simpl. split_and!.
  - done.
  - by rewrite lookup_insert_eq.
  - intros Hne. by rewrite lookup_insert_ne.
  - intros def'. by rewrite lookup_insert_eq.
  - by rewrite lookup_empty.
Qed.

(** X23.  [OptionsFromManifest] never fails.  The API name and the path
    prefix are always the defaults ["OneAPI"] and ["/api"], whatever the
    manifest's [prefix]; the port, the health check path and the two
    documentation paths are the manifest's where its server section
    gives them, and 9090, ["/_oneapi/health"], ["/_oneapi/docs"] and
    ["/api/docs"] where it does not. *)
Theorem OptionsFromManifest_defaults (manifest : spec.Manifest) :
  exists opts,
    options.OptionsFromManifest manifest = Ok opts
    /\ options.APIName opts = "OneAPI"
    /\ options.PathPrefix opts = "/api"
    /\ options.Port opts
       = default 9090 (spec.Server manifest ≫= spec.Port)
    /\ options.HealthCheckPath opts
       = default "/_oneapi/health" (spec.Server manifest ≫= spec.HealthCheck)
    /\ options.APIDocsPrefix opts
       = default "/_oneapi/docs" (spec.Server manifest ≫= spec.APIDocsPrefix)
    /\ options.APIDocsUIPath opts
       = default "/api/docs" (spec.Server manifest ≫= spec.APIDocsUIPath).
Proof.
  unfold options.OptionsFromManifest.
  destruct (spec.Server manifest) as [server|]; simpl.
  - eexists. split; [reflexivity|].
    by destruct (spec.Port server), (spec.HealthCheck server),
      (spec.APIDocsPrefix server), (spec.APIDocsUIPath server).
  - by eexists.
Qed.

(** ** Reads by id on the handle *)

(** X1.  With at most one free connection on the handle, [FindByID]
    returns no record, and not "not found" either: for every id it
    returns the error of its query for the columns, no such table.  When
    the free connection has the table, that connection is left taken for
    good, and the free connection afterwards is a new one with an empty
    database; otherwise the free connection stays, or a new one is
    opened. *)
Theorem FindByID_no_such_table (e : Entity) (p : sql.Pool) (id : Z) :
  (length (sql.idle p) <= 1)%nat ->
  snd (repository.FindByID e p id)
  = Err (Storage (sql.NoSuchTable (Name e)))
  /\ (forall c t,
        sql.idle p = [c] -> c !! sql.fold (Name e) = Some t ->
        fst (repository.FindByID e p id)
        = {| sql.idle := [∅]; sql.busy := sql.busy p ++ [c] |})
  /\ (forall c,
        sql.idle p = [c] -> c !! sql.fold (Name e) = None ->
        fst (repository.FindByID e p id) = p)
  /\ (sql.idle p = [] ->
      fst (repository.FindByID e p id)
      = {| sql.idle := [∅]; sql.busy := sql.busy p |}).
Proof.
  intros Hlen. split_and!.
  - by apply FindByID_fails.
  - intros c t Hidle Ht. by rewrite (FindByID_serving e p c t id Hidle Ht).
  - intros c Hidle Ht. by rewrite (FindByID_lost e p c id Hidle Ht).
  - intros Hidle. by rewrite (FindByID_none e p id Hidle).
Qed.

Lemma FindByID_no_such_table_witness :
  repository.FindByID task task_pool_1 1
  = ({| sql.idle := [∅]; sql.busy := [task_db_1] |},
     Err (Storage (sql.NoSuchTable "task"))).
Proof.
  pose proof (FindByID_no_such_table task task_pool_1 1
                ltac:(vm_compute; lia)) as (Herr & Hpool & _).
  rewrite (surjective_pairing (repository.FindByID task task_pool_1 1)).
  rewrite Herr, (Hpool task_db_1 task_table_1 eq_refl eq_refl).
  reflexivity.
Defined.

(** The databases of a pool. *)
Lemma FindByID_databases (e : Entity) (p : sql.Pool) (id : Z) (c : sql.DB) :
  (length (sql.idle p) <= 1)%nat ->
  c ∈ sql.idle (fst (repository.FindByID e p id))
      ++ sql.busy (fst (repository.FindByID e p id)) ->
  c = ∅ \/ c ∈ sql.idle p ++ sql.busy p.
Proof.
  intros Hlen. destruct (sql.idle p) as [|c0 [|c1 rest]] eqn:Hidle.
  - rewrite (FindByID_none e p id Hidle). simpl.
    rewrite elem_of_cons. intros [->|Hc]; [by left|by right].
  - destruct (c0 !! sql.fold (Name e)) as [t|] eqn:Ht.
    + rewrite (FindByID_serving e p c0 t id Hidle Ht). simpl.
      rewrite elem_of_cons, elem_of_app, list_elem_of_singleton.
      intros [->|[Hc| ->]]; [by left|right|right].
      * by right.
      * by left.
    + rewrite (FindByID_lost e p c0 id Hidle Ht). simpl. rewrite Hidle.
      by right.
  - simpl in Hlen. lia.
Qed.

(** X2.  With at most one free connection on the handle, [Delete]
    deletes nothing: it returns the error of its [FindByID], no such
    table, and every database of the pool afterwards is one that was
    there before, as it was, or the empty database of a new
    connection. *)
Theorem Delete_never_deletes `{sql.Affinity} (e : Entity) (p : sql.Pool)
    (id : Z) :
  (length (sql.idle p) <= 1)%nat ->
  repository.Delete e p id
  = (fst (repository.FindByID e p id),
     Some (Storage (sql.NoSuchTable (Name e))))
  /\ forall c,
       c ∈ sql.idle (fst (repository.Delete e p id))
           ++ sql.busy (fst (repository.Delete e p id)) ->
       c = ∅ \/ c ∈ sql.idle p ++ sql.busy p.
Proof.
  intros Hlen. rewrite (Delete_unfold e p id Hlen). split; [done|].
  intros c. by apply FindByID_databases.
Qed.

Lemma Delete_never_deletes_witness :
  repository.Delete (H := sqlite.sqlite_affinity) task task_pool_1 1
  = ({| sql.idle := [∅]; sql.busy := [task_db_1] |},
     Some (Storage (sql.NoSuchTable "task"))).
Proof.
  rewrite (proj1 (Delete_never_deletes (H := sqlite.sqlite_affinity) task
                    task_pool_1 1 ltac:(vm_compute; lia))).
  vm_compute. reflexivity.
Defined.

(** X3.  [CreateSchema], [List] and [Create] finish each statement
    before the next: on a handle with one free connection they run on
    that connection and release it again, so their results are those on
    its database, and no other database changes. *)
Theorem statements_on_free_connection `{sql.Affinity} (e : Entity)
    (p : sql.Pool) (c : sql.DB) :
  sql.idle p = [c] ->
  repository.CreateSchema e p
  = ({| sql.idle := [fst (CreateSchema e c)]; sql.busy := sql.busy p |},
     snd (CreateSchema e c))
  /\ (forall page pageSize,
        repository.List e p page pageSize = (p, List e c page pageSize))
  /\ (forall data,
        repository.Create e p data
        = ({| sql.idle := [fst (Create e c data)]; sql.busy := sql.busy p |},
           snd (Create e c data))).
Proof.
  intros Hidle. split_and!.
  - by apply CreateSchema_on_connection.
  - intros page pageSize. by apply List_on_connection.
  - intros data. by apply Create_on_connection.
Qed.

Lemma statements_on_free_connection_witness :
  repository.List task task_pool_1 1 10
  = (task_pool_1, Ok ([task_record_1], 1)).
Proof.
  rewrite (proj1 (proj2 (statements_on_free_connection
                           (H := sqlite.sqlite_affinity) task task_pool_1
                           task_db_1 eq_refl))).
  vm_compute. reflexivity.
Defined.

Section Lost.
Context `{sql.Affinity}.
Variable e : Entity.

(** On a database without the table, no statement of the repository
    succeeds. *)
Lemma List_no_table (db : sql.DB) (page pageSize : Z) :
  db !! sql.fold (Name e) = None ->
  List e db page pageSize = Err (Storage (sql.NoSuchTable (Name e))).
Proof.
  intros Hnone. unfold List, sql.QueryRow, sql.Query. simpl.
  by rewrite Hnone.
Qed.

Lemma Create_failed (db db' : sql.DB) (data : gmap string Value)
    (err : RepoError) :
  Create e db data = (db', Err err) -> db' = db.
Proof.
  unfold Create. destruct (Validate e data); [|by intros [= <-]].
  destruct (declared e data) as [fields values].
  destruct (sql.Exec db (sql.Insert (Name e) fields) values)
    as [[db'' id]|err']; [done|by intros [= <-]].
Qed.

Lemma Create_no_table (db : sql.DB) (data : gmap string Value) :
  db !! sql.fold (Name e) = None ->
  exists err, Create e db data = (db, Err err).
Proof.
  intros Hnone. destruct (Create e db data) as [db' [id|err]] eqn:Hcreate.
  - apply Create_inv in Hcreate as (_ & _ & t & _ & _ & Ht & _).
    congruence.
  - rewrite (Create_failed db db' data err Hcreate). by eexists.
Qed.
End Lost.

(** X5.  After one [FindByID] on the handle of a running service, whose
    free connection had the table, no method of the repository reaches
    the table again: [List], [FindByID], [Update] and [Delete] return no
    such table and every [Create] returns an error, whatever the
    arguments, and the handle stays as it is. *)
Theorem no_table_after_FindByID `{sql.Affinity} (e : Entity) (p : sql.Pool)
    (c : sql.DB) (t : sql.Table) (id : Z) :
  sql.idle p = [c] ->
  c !! sql.fold (Name e) = Some t ->
  let p' := fst (repository.FindByID e p id) in
  let err := Storage (sql.NoSuchTable (Name e)) in
  p' = {| sql.idle := [∅]; sql.busy := sql.busy p ++ [c] |}
  /\ (forall page pageSize,
        repository.List e p' page pageSize = (p', Err err))
  /\ (forall data, exists err', repository.Create e p' data = (p', Err err'))
  /\ (forall id', repository.FindByID e p' id' = (p', Err err))
  /\ (forall id' data, repository.Update e p' id' data = (p', Some err))
  /\ (forall id', repository.Delete e p' id' = (p', Some err)).
Proof.
  intros Hidle Ht p' err. unfold p'.
  rewrite (FindByID_serving e p c t id Hidle Ht). simpl.
  set (q := {| sql.idle := [∅]; sql.busy := sql.busy p ++ [c] |}).
  assert (sql.idle q = [∅]) as Hq by done.
  assert ((∅ : sql.DB) !! sql.fold (Name e) = None) as Hnone
    by apply lookup_empty.
  assert (forall id', repository.FindByID e q id' = (q, Err err)) as Hfind.
  { intros id'. by apply (FindByID_lost e q ∅ id'). }
  split_and!.
  - done.
  - intros page pageSize.
    rewrite (List_on_connection e q ∅ page pageSize Hq).
    by rewrite List_no_table.
  - intros data.
    rewrite (Create_on_connection e q ∅ data Hq).
    destruct (Create_no_table e ∅ data Hnone) as [err' ->]. by exists err'.
  - done.
  - intros id' data.
    rewrite (Update_unfold e q id' data) by (simpl; lia).
    by rewrite Hfind.
  - intros id'.
    rewrite (Delete_unfold e q id') by (simpl; lia).
    by rewrite Hfind.
Qed.

Lemma no_table_after_FindByID_witness :
  repository.List task (fst (repository.FindByID task task_pool_1 1)) 1 10
  = (fst (repository.FindByID task task_pool_1 1),
     Err (Storage (sql.NoSuchTable "task"))).
Proof.
  apply (proj1 (proj2 (no_table_after_FindByID (H := sqlite.sqlite_affinity)
                         task task_pool_1 task_db_1 task_table_1 1
                         eq_refl eq_refl))).
Defined.

(** X18.  The merged view [Update] builds from the stored record and
    the patch: a key of the patch has the value of the patch, any other
    key but [id] the value of the stored record, and [id] is left out
    unless the patch has it; with an empty patch it is the stored
    record without [id]. *)
Theorem merged_view (existing patch : gmap string Value) (k : string) :
  merge existing patch !! k
  = match patch !! k with
    | Some v => Some v
    | None => if decide (k = "id") then None else existing !! k
    end
  /\ merge existing ∅ = delete "id" existing.
Proof. split; [apply merge_lookup|apply merge_empty]. Qed.

(** ** The state of the handle is kept *)

Section HandleInvariant.
Context `{sql.Affinity}.
Variable e : Entity.




End HandleInvariant.



(** ** The handlers *)

Section HandlerFacts.
Context `{sql.Affinity}.
Variable e : Entity.
Variable sql_message : sql.Error -> string.


(** [List] on the handle is [List] on the free connection. *)
Lemma handlers_List_on_connection (p : sql.Pool) (c : sql.DB)
    (query : gmap string string) :
  sql.idle p = [c] ->
  handlers.List e p query = (p, server.List e c query).
Proof.
  intros Hidle. unfold handlers.List, server.List.
  rewrite (List_on_connection e p c _ _ Hidle).
  destruct (List e c _ _) as [[data total]|err]; [|done].
  by destruct (_ =? 0).
Qed.
End HandlerFacts.



(** X15.  With at most one free connection on the handle, a request
    for one record finds none: for every id, [Get] answers 404, and
    [Update] and [Delete] return the error of the repository as it is,
    which the error handler turns into 500; the detail of all three is
    the engine's message for a table that is not there ([Update] looks
    for "validation failed" in it first). *)
Theorem requests_by_id_fail `{sql.Affinity} (e : Entity)
    (sql_message : sql.Error -> string) (p : sql.Pool) (idParam : string)
    (id : Z) :
  (length (sql.idle p) <= 1)%nat ->
  ParseInt idParam = (id, None) ->
  let err := Storage (sql.NoSuchTable (Name e)) in
  let p' := fst (repository.FindByID e p id) in
  handlers.Get e sql_message p idParam
  = (p', handlers.Failed
           (handlers.FiberError 404
              (sql_message (sql.NoSuchTable (Name e)))))
  /\ (handlers.strings_Contains (sql_message (sql.NoSuchTable (Name e)))
        "validation failed" = false ->
      forall patch,
        handlers.Update e sql_message p idParam (Some patch)
        = (p', handlers.Failed (handlers.RepoErr err)))
  /\ handlers.Delete e p idParam
     = (p', handlers.Failed (handlers.RepoErr err))
  /\ handlers.ErrorHandler sql_message (handlers.RepoErr err)
     = (500, {| handlers.entry_status := "500";
                handlers.entry_title := "Error";
                handlers.entry_detail :=
                  sql_message (sql.NoSuchTable (Name e)) |}).
Proof.
  intros Hlen Hid err p'. destruct (FindByID_fails e p id Hlen) as [Herr _].
  split_and!.
  - unfold handlers.Get. rewrite Hid. unfold p'.
    destruct (repository.FindByID e p id) as [q res]. simpl in *.
    by subst res.
  - intros Hmessage patch. unfold handlers.Update.
    rewrite Hid, (Update_unfold e p id patch Hlen). simpl.
    by rewrite Hmessage.
  - unfold handlers.Delete. by rewrite Hid, (Delete_unfold e p id Hlen).
  - done.
Qed.

Lemma requests_by_id_fail_witness :
  handlers.Get task sqlite_message task_pool_1 "1"
  = ({| sql.idle := [∅]; sql.busy := [task_db_1] |},
     handlers.Failed (handlers.FiberError 404 "no such table: task")).
Proof.
  rewrite (proj1 (requests_by_id_fail (H := sqlite.sqlite_affinity) task
                    sqlite_message task_pool_1 "1" 1
                    ltac:(vm_compute; lia) eq_refl)).
  vm_compute. reflexivity.
Defined.

(** X17.  [Create] of a valid, non-empty record of storable values on
    the handle of a running service, whose free connection has the
    table in order, inserts the row with the next id, and answers 500
    all the same: the [FindByID] that is to fetch the new record
    returns the engine's error, no such table, and the handler returns
    it as it is.  The connection with the new row is left taken for
    good. *)
Theorem Create_inserts_and_answers_500 `{sql.Affinity}
    (ParseFloat : string -> option float64) (name : string)
    (def : spec.EntityDef) (sql_message : sql.Error -> string)
    (p : sql.Pool) (c : sql.DB) (t : sql.Table) (data : gmap string Value) :
  let e := NewEntity ParseFloat name def in
  sql.idle p = [c] ->
  c !! sql.fold name = Some t ->
  table_ok e t ->
  sql.sequence t + 1 < 2 ^ 63 ->
  Validate e data = [] ->
  data <> ∅ ->
  map_Forall (fun _ v => storable v) data ->
  exists c' row,
    handlers.Create e sql_message p (Some data)
    = ({| sql.idle := [∅]; sql.busy := sql.busy p ++ [c'] |},
       handlers.Failed
         (handlers.RepoErr (Storage (sql.NoSuchTable name))))
    /\ Create e c data = (c', Ok (sql.sequence t + 1))
    /\ c' !! sql.fold name
       = Some {| sql.columns := sql.columns t;
                 sql.rows := sql.rows t ++ [row];
                 sql.sequence := sql.sequence t + 1 |}
    /\ sql.rowid row = sql.sequence t + 1
    /\ handlers.status sql_message
         (snd (handlers.Create e sql_message p (Some data))) = 500.
Proof.
  intros e Hidle Ht Hok Hseq Hvalid Hne Hstorable.
  destruct (Create_succeeds ParseFloat name def c t data Ht Hok Hseq Hvalid
              Hne Hstorable) as (row & Hcreate & Hrow & _).
  fold e in Hcreate.
  assert (Name e = name) as Hname by apply NewEntity_Name.
  set (c' := <[sql.fold name := _]> c) in Hcreate.
  assert (c' !! sql.fold (Name e)
          = Some {| sql.columns := sql.columns t;
                    sql.rows := sql.rows t ++ [row];
                    sql.sequence := sql.sequence t + 1 |}) as Hc'.
  { rewrite Hname. apply lookup_insert_eq. }
  assert (handlers.Create e sql_message p (Some data)
          = ({| sql.idle := [∅]; sql.busy := sql.busy p ++ [c'] |},
             handlers.Failed
               (handlers.RepoErr (Storage (sql.NoSuchTable name)))))
    as Hhandler.
  { unfold handlers.Create.
    rewrite (Create_on_connection e p c data Hidle).
    rewrite Hcreate. simpl.
    rewrite (FindByID_serving e {| sql.idle := [c']; sql.busy := sql.busy p |}
               c' _ _ eq_refl Hc').
    by rewrite Hname. }
  exists c', row. split_and!; [done|done| |done|by rewrite Hhandler].
  by rewrite <- Hname.
Qed.

Lemma Create_inserts_and_answers_500_witness :
  exists c' row,
    handlers.Create (H := sqlite.sqlite_affinity) task sqlite_message
      (serving task) (Some task_x_open)
    = ({| sql.idle := [∅]; sql.busy := [c'] |},
       handlers.Failed
         (handlers.RepoErr (Storage (sql.NoSuchTable "task"))))
    /\ Create (H := sqlite.sqlite_affinity) task (fresh task) task_x_open
       = (c', Ok 1)
    /\ c' !! "task"
       = Some {| sql.columns := sql.columns (empty_table task);
                 sql.rows := [row];
                 sql.sequence := 1 |}
    /\ sql.rowid row = 1
    /\ handlers.status sqlite_message
         (snd (handlers.Create (H := sqlite.sqlite_affinity) task
                 sqlite_message (serving task) (Some task_x_open))) = 500.
Proof.
  apply (Create_inserts_and_answers_500 (H := sqlite.sqlite_affinity)
           no_ParseFloat "task" task_def sqlite_message (serving task)
           (fresh task) (empty_table task) task_x_open).
  - reflexivity.
  - vm_compute. reflexivity.
  - apply (bool_decide_unpack (table_ok task (empty_table task))).
    vm_compute. exact I.
  - vm_compute. reflexivity.
  - vm_compute. reflexivity.
  - intros Heq. apply (f_equal (fun m => m !! "title")) in Heq.
    vm_compute in Heq. discriminate Heq.
  - intros k v. unfold task_x_open.
    rewrite !lookup_insert_Some, lookup_empty.
    intros [[_ <-]|[_ [[_ <-]|[_ [=]]]]]; exact I.
Defined.

(** X19.  A [Create] whose body has no attributes, for an entity with no
    required field, passes validation and fails in the engine on the
    statement with an empty column list; the handler returns that error
    as it is, so the answer is 500 (whenever the engine's message does
    not contain "validation failed"), and nothing is written. *)
Theorem Create_without_attributes_500 `{sql.Affinity}
    (ParseFloat : string -> option float64) (name : string)
    (def : spec.EntityDef) (sql_message : sql.Error -> string)
    (p : sql.Pool) (c : sql.DB) :
  let e := NewEntity ParseFloat name def in
  let err :=
    sql.SyntaxError ("INSERT INTO " +:+ name +:+ " () VALUES ()") in
  sql.idle p = [c] ->
  (forall f fd, spec.Fields def !! f = Some fd -> spec.Required fd = false) ->
  handlers.strings_Contains (sql_message err) "validation failed" = false ->
  handlers.Create e sql_message p (Some ∅)
  = (p, handlers.Failed (handlers.RepoErr (Storage err)))
  /\ handlers.status sql_message
       (snd (handlers.Create e sql_message p (Some ∅))) = 500.
Proof.
  intros e err Hidle Hoptional Hmessage.
  assert (Validate e ∅ = []) as Hvalid.
  { apply elem_of_nil_inv. intros err'. unfold e. rewrite elem_of_Validate.
    intros [(k & [v Hv] & _)|(f & fd & validator & Hfd & Hin & Herr)].
    { by rewrite lookup_empty in Hv. }
    rewrite lookup_empty in Herr. simpl in Herr.
    unfold field_validations in Hin. rewrite (Hoptional f fd Hfd) in Hin.
    simpl in Hin. apply type_validations_nil in Hin. congruence. }
  assert (Create e c ∅ = (c, Err (Storage err))) as Hcreate.
  { unfold Create. rewrite Hvalid, declared_unfold.
    unfold declared_entries. rewrite map_to_list_empty. simpl.
    unfold e. by rewrite NewEntity_Name. }
  assert (handlers.Create e sql_message p (Some ∅)
          = (p, handlers.Failed (handlers.RepoErr (Storage err))))
    as Hhandler.
  { unfold handlers.Create.
    rewrite (Create_on_connection e p c ∅ Hidle).
    rewrite Hcreate. simpl. rewrite Hmessage, <- Hidle.
    by rewrite <- Pool_eta. }
  split; [done|]. by rewrite Hhandler.
Qed.

Lemma Create_without_attributes_500_witness :
  handlers.Create (H := sqlite.sqlite_affinity) item sqlite_message
    (serving item) (Some ∅)
  = (serving item,
     handlers.Failed
       (handlers.RepoErr
          (Storage (sql.SyntaxError "INSERT INTO item () VALUES ()")))).
Proof.
  apply (proj1 (Create_without_attributes_500 (H := sqlite.sqlite_affinity)
                  no_ParseFloat "item" item_def sqlite_message
                  (serving item) (fresh item) eq_refl
                  ltac:(intros f fd; unfold item_def; simpl;
                        rewrite !lookup_insert_Some, lookup_empty;
                        intros [[_ <-]|[_ [[_ <-]|[_ [=]]]]]; reflexivity)
                  eq_refl)).
Defined.

Lemma wrap64_small (z : Z) : - 2 ^ 63 <= z < 2 ^ 63 -> wrap64 z = z.
Proof. intros Hz. unfold wrap64. rewrite Z.mod_small; lia. Qed.

Lemma List_total_nonneg (e : Entity) (db : sql.DB) (page pageSize : Z)
    (records : list (gmap string Value)) (total : Z) :
  List e db page pageSize = Ok (records, total) -> 0 <= total.
Proof.
  destruct (db !! sql.fold (Name e)) as [t|] eqn:Ht.
  - rewrite (List_unfold e db t page pageSize Ht). intros [= _ <-]. lia.
  - unfold List, sql.QueryRow, sql.Query. simpl. by rewrite Ht.
Qed.

Lemma wrap64_pred (a : Z) : wrap64 (wrap64 a - 1) = wrap64 (a - 1).
Proof.
  unfold wrap64. f_equal.
  replace ((a + 2 ^ 63) mod 2 ^ 64 - 2 ^ 63 - 1 + 2 ^ 63)
    with ((a + 2 ^ 63) mod 2 ^ 64 - 1) by lia.
  rewrite Zminus_mod_idemp_l. f_equal. lia.
Qed.

(** X20.  For a page size of at least 1 (and a total that leaves room
    for it in an [int]), the [total_pages] of a list response is the
    number of pages needed for [total] records: that many pages hold
    them all and one page less does not. *)
Theorem List_total_pages_ceiling (e : Entity) (db : sql.DB)
    (query : gmap string string) (records : list (gmap string Value))
    (total : Z) :
  let page := fst (Atoi (server.Query query "page[number]" "1")) in
  let pageSize := fst (Atoi (server.Query query "page[size]" "10")) in
  storage.List e db page pageSize = Ok (records, total) ->
  1 <= pageSize -> total + pageSize <= 2 ^ 63 ->
  exists r,
    server.List e db query = server.Respond r
    /\ server.data r = server.formatJSONapiData records
    /\ server.total (server.meta r) = total
    /\ server.page_size (server.meta r) = pageSize
    /\ total <= server.total_pages (server.meta r) * pageSize
    /\ (server.total_pages (server.meta r) - 1) * pageSize < total
    /\ (server.total_pages (server.meta r) = 0 <-> total = 0).
Proof.
  intros page pageSize Hlist Hsize Hfit.
  pose proof (List_total_nonneg e db page pageSize records total Hlist)
    as Htotal.
  unfold server.List. fold page pageSize. rewrite Hlist.
  destruct (Z.eqb_spec pageSize 0) as [|_]; [lia|].
  eexists. split; [reflexivity|]. simpl.
  rewrite wrap64_pred, wrap64_small by lia.
  unfold server.int_div.
  rewrite Z.quot_div_nonneg by lia.
  pose proof (Z.div_mod (total + pageSize - 1) pageSize ltac:(lia)) as Hdiv.
  pose proof (Z.mod_pos_bound (total + pageSize - 1) pageSize ltac:(lia))
    as Hmod.
  assert (0 <= (total + pageSize - 1) `div` pageSize
          <= total + pageSize - 1) as Hq.
  { split; [apply Z.div_pos; lia|].
    apply Z.div_le_upper_bound; [lia|]. nia. }
  rewrite wrap64_small by lia.
  revert Hdiv Hmod Hq. generalize ((total + pageSize - 1) `div` pageSize),
    ((total + pageSize - 1) `mod` pageSize).
  intros q m Hdiv Hmod Hq.
  split; [done|]. split; [done|]. split; [done|].
  split; [nia|]. split; [nia|]. split; intros ?; nia.
Qed.

Lemma List_total_pages_ceiling_witness :
  exists r,
    server.List task task_db_1 (<["page[size]" := "5"]> ∅)
    = server.Respond r
    /\ server.total_pages (server.meta r) = 1.
Proof.
  destruct (List_total_pages_ceiling task task_db_1
              (<["page[size]" := "5"]> ∅) [task_record_1] 1)
    as (r & Hlist & _ & _ & _ & Hup & Hlow & _).
  - reflexivity.
  - vm_compute. discriminate.
  - vm_compute. discriminate.
  - exists r. split; [exact Hlist|].
    change (fst (Atoi (server.Query (<["page[size]" := "5"]> ∅)
                         "page[size]" "10"))) with 5 in Hup, Hlow.
    lia.
Defined.

(** X21.  On the handle of a running service, the list handler answers
    as [List] does on the database of the free connection, and leaves
    the handle as it is.  After one [FindByID] on a handle whose free
    connection had the table, it returns the engine's error, no such
    table, for every query, which the error handler turns into 500. *)
Theorem List_on_the_handle `{sql.Affinity} (e : Entity)
    (sql_message : sql.Error -> string) (p : sql.Pool) (c : sql.DB)
    (query : gmap string string) :
  sql.idle p = [c] ->
  handlers.List e p query = (p, server.List e c query)
  /\ (forall t id,
        c !! sql.fold (Name e) = Some t ->
        let p' := fst (repository.FindByID e p id) in
        handlers.List e p' query
        = (p', server.Fail (Storage (sql.NoSuchTable (Name e)))))
  /\ fst (handlers.ErrorHandler sql_message
            (handlers.RepoErr (Storage (sql.NoSuchTable (Name e))))) = 500.
Proof.
  intros Hidle. split_and!.
  - by apply handlers_List_on_connection.
  - intros t id Ht p'. unfold p'.
    rewrite (FindByID_serving e p c t id Hidle Ht). simpl.
    rewrite (handlers_List_on_connection e
               {| sql.idle := [∅]; sql.busy := sql.busy p ++ [c] |} ∅ query
               eq_refl).
    unfold server.List. rewrite List_no_table; [done|apply lookup_empty].
  - done.
Qed.

Lemma List_on_the_handle_witness :
  handlers.List task (fst (repository.FindByID task task_pool_1 1)) ∅
  = (fst (repository.FindByID task task_pool_1 1),
     server.Fail (Storage (sql.NoSuchTable "task"))).
Proof.
  apply (proj1 (proj2 (List_on_the_handle (H := sqlite.sqlite_affinity) task
                         sqlite_message task_pool_1 task_db_1 ∅ eq_refl))
           task_table_1 1 eq_refl).
Defined.
